(** * Terminals service (Zellij-backed terminal sessions)

    A shallow embedding of the terminals service of the daemon
    ([TerminalsService] and its helpers: the shell-argument escapers, the
    Zellij session cache, the PTY output batcher and the init-command
    injection), together with the properties of its specification.

    JavaScript strings are modelled as [string] (sequences of 8-bit
    characters); [undefined]/[null] as [None]; a [Promise] that rejects or a
    statement that throws as the [Throw] outcome of an explicit
    state-and-exception monad; the outside world (child processes, the PTY
    library, the database, the file system, the clock) as a record of
    oracles. *)

From Stdlib Require Import ZArith Ascii String List Bool Lia DecimalString.
From stdpp Require Import base option gmap strings list fin_maps.

Local Open Scope Z_scope.

(* ===================================================================== *)
(** * JavaScript string primitives used by the service *)
(* ===================================================================== *)

Module Js.

(** Characters that cannot be written inside a string literal here. *)
Definition DQ : ascii := "034"%char.      (* double quote *)
Definition SQ : ascii := "039"%char.      (* single quote *)
Definition BS : ascii := "092"%char.      (* backslash *)
Definition DOLLAR : ascii := "036"%char.
Definition BACKTICK : ascii := "096"%char.
Definition NL : ascii := "010"%char.
Definition TAB : ascii := "009"%char.
Definition SPACE : ascii := "032"%char.

Definition chr (c : ascii) : string := String c EmptyString.

(** [s.length] *)
Definition length (s : string) : Z := Z.of_nat (String.length s).

(** [s.replace(/c/g, rep)] for a one-character pattern [c]. None of the
    replacement texts used by the service contains a [$] followed by another
    character, so the replacement text is inserted literally. *)
Fixpoint replaceAll (c : ascii) (rep : string) (s : string) : string :=
  match s with
  | EmptyString => EmptyString
  | String x rest =>
      if Ascii.eqb x c then rep +:+ replaceAll c rep rest
      else String x (replaceAll c rep rest)
  end.

(** [s.startsWith(p)] *)
Fixpoint startsWith (p s : string) : bool :=
  match p, s with
  | EmptyString, _ => true
  | String a p', String b s' => Ascii.eqb a b && startsWith p' s'
  | String _ _, EmptyString => false
  end.

(** [s.includes(p)] *)
Fixpoint includes (p s : string) : bool :=
  startsWith p s ||
  match s with
  | EmptyString => false
  | String _ s' => includes p s'
  end.

(** [s.split('\n')]: always at least one piece. *)
Fixpoint splitLines (s : string) : list string :=
  match s with
  | EmptyString => [EmptyString]
  | String c rest =>
      if Ascii.eqb c NL then EmptyString :: splitLines rest
      else match splitLines rest with
           | [] => [chr c]
           | l :: ls => String c l :: ls
           end
  end.

(** White space removed by [trim], among the characters below 256: tab,
    line feed, vertical tab, form feed, carriage return, space, no-break
    space. *)
Definition isSpace (c : ascii) : bool :=
  let n := nat_of_ascii c in
  ((9 <=? n)%nat && (n <=? 13)%nat) || (n =? 32)%nat || (n =? 160)%nat.

Fixpoint trimStart (s : string) : string :=
  match s with
  | EmptyString => EmptyString
  | String c rest => if isSpace c then trimStart rest else s
  end.

Fixpoint trimEnd (s : string) : string :=
  match s with
  | EmptyString => EmptyString
  | String c rest =>
      match trimEnd rest with
      | EmptyString => if isSpace c then EmptyString else chr c
      | r => String c r
      end
  end.

Definition trim (s : string) : string := trimEnd (trimStart s).

(** [s.substring(0, n)] *)
Fixpoint take (n : nat) (s : string) : string :=
  match n, s with
  | O, _ => EmptyString
  | _, EmptyString => EmptyString
  | S n', String c rest => String c (take n' rest)
  end.

(** [arr.join(sep)] *)
Fixpoint join (sep : string) (l : list string) : string :=
  match l with
  | [] => EmptyString
  | [x] => x
  | x :: rest => x +:+ sep +:+ join sep rest
  end.

(** [arr.includes(x)] *)
Definition arrIncludes (x : string) (l : list string) : bool :=
  existsb (String.eqb x) l.

(** Truthiness of an optional string: [undefined], [null] and [''] are falsy. *)
Definition truthy (o : option string) : bool :=
  match o with
  | Some s => negb (String.eqb s EmptyString)
  | None => false
  end.

(** [a || b] on optional strings with a string default. *)
Definition orElse (o : option string) (d : string) : string :=
  match o with
  | Some s => if String.eqb s EmptyString then d else s
  | None => d
  end.

(** [n || d] on optional numbers: [undefined] and [0] are falsy. *)
Definition numOrElse (o : option Z) (d : Z) : Z :=
  match o with
  | Some n => if n =? 0 then d else n
  | None => d
  end.

(** Decimal rendering of an integer inside a template literal. *)
Definition showZ (n : Z) : string := NilZero.string_of_int (Z.to_int n).

End Js.

(* ===================================================================== *)
(** * Shell-argument escapers *)
(* ===================================================================== *)

(** [escapeShellArg]: wrap in single quotes; each single quote of the
    argument becomes quote, backslash, quote, quote. *)
Definition escapeShellArg (arg : string) : string :=
  "'" +:+ Js.replaceAll Js.SQ "'\''" arg +:+ "'".

(** [escapeDoubleQuoted]: four successive global replacements, the backslash
    first. *)
Definition escapeDoubleQuoted (str : string) : string :=
  Js.replaceAll Js.BACKTICK (String Js.BS (Js.chr Js.BACKTICK))
    (Js.replaceAll Js.DOLLAR (String Js.BS (Js.chr Js.DOLLAR))
       (Js.replaceAll Js.DQ (String Js.BS (Js.chr Js.DQ))
          (Js.replaceAll Js.BS (String Js.BS (Js.chr Js.BS)) str))).

(* ===================================================================== *)
(** * The quoting rules of the POSIX shell *)
(* ===================================================================== *)

(** The service hands its command lines to [/bin/sh -c]. What the shell makes
    of a command line is fixed by the quoting rules of the Shell Command
    Language (section 2.2: escape character, single quotes, double quotes)
    and by field splitting on blanks. [Sh.fields] reads a command line made
    of literal words only and returns the words the command receives; it
    answers [None] where the shell would do anything else with the text (an
    unquoted operator, a parameter expansion or a command substitution, an
    unterminated quote). *)

Module Sh.

Inductive state :=
| Plain          (* outside quotes *)
| PlainEsc       (* outside quotes, after a backslash *)
| Single         (* inside single quotes *)
| Double         (* inside double quotes *)
| DoubleEsc.     (* inside double quotes, after a backslash *)

Definition isBlank (c : ascii) : bool :=
  Ascii.eqb c Js.SPACE || Ascii.eqb c Js.TAB || Ascii.eqb c Js.NL.

(** Characters that can have a meaning of their own outside quotes
    (operators, expansions, patterns, comments, reserved words): the lexer
    does not read a command line that has one unquoted. *)
Definition isActive (c : ascii) : bool :=
  existsb (Ascii.eqb c)
    [ "|"; "&"; ";"; "<"; ">"; "("; ")"; "$"; "`"; "*"; "?"; "["; "#"; "~";
      "="; "%"; "{"; "}"; "!" ]%char.

(** Inside double quotes the backslash escapes only these (and the newline). *)
Definition escapableInDouble (c : ascii) : bool :=
  Ascii.eqb c Js.DOLLAR || Ascii.eqb c Js.BACKTICK || Ascii.eqb c Js.DQ
  || Ascii.eqb c Js.BS.

Definition snoc (w : string) (c : ascii) : string := w +:+ Js.chr c.

(** [lex st started w input]: [w] is the word read so far, [started] tells
    whether a word is in progress (an empty pair of quotes starts one). *)
Fixpoint lex (st : state) (started : bool) (w : string) (input : string)
  : option (list string) :=
  match input with
  | EmptyString =>
      match st with
      | Plain => Some (if started then [w] else [])
      | _ => None
      end
  | String c rest =>
      match st with
      | Plain =>
          if Ascii.eqb c Js.SQ then lex Single true w rest
          else if Ascii.eqb c Js.DQ then lex Double true w rest
          else if Ascii.eqb c Js.BS then lex PlainEsc started w rest
          else if isBlank c then
            if started then cons w <$> lex Plain false EmptyString rest
            else lex Plain false EmptyString rest
          else if isActive c then None
          else lex Plain true (snoc w c) rest
      | PlainEsc =>
          if Ascii.eqb c Js.NL then lex Plain started w rest
          else lex Plain true (snoc w c) rest
      | Single =>
          if Ascii.eqb c Js.SQ then lex Plain true w rest
          else lex Single true (snoc w c) rest
      | Double =>
          if Ascii.eqb c Js.DQ then lex Plain true w rest
          else if Ascii.eqb c Js.BS then lex DoubleEsc true w rest
          else if Ascii.eqb c Js.DOLLAR || Ascii.eqb c Js.BACKTICK then None
          else lex Double true (snoc w c) rest
      | DoubleEsc =>
          if escapableInDouble c then lex Double true (snoc w c) rest
          else if Ascii.eqb c Js.NL then lex Double true w rest
          else lex Double true (snoc (snoc w Js.BS) c) rest
      end
  end.

Definition fields (commandLine : string) : option (list string) :=
  lex Plain false EmptyString commandLine.

End Sh.

(* ===================================================================== *)
(** * Outcomes, thrown values and the data model *)
(* ===================================================================== *)

(** A thrown value: an [Error] object (of class [Error] or of the subclass
    [UnixUserNotFoundError]) or anything else. *)
Inductive ErrorClass := PlainError | UnixUserNotFoundError.

Inductive Thrown :=
| ErrorObj (cls : ErrorClass) (message : string)
| NonError (text : string).

(** [error instanceof Error ? error.message : String(error)] *)
Definition messageOf (e : Thrown) : string :=
  match e with
  | ErrorObj _ m => m
  | NonError t => t
  end.

(** [new Error(message)] *)
Definition newError (message : string) : Thrown := ErrorObj PlainError message.

Inductive Outcome (A : Type) :=
| Ok (a : A)
| Throw (e : Thrown).
Arguments Ok {A} a.
Arguments Throw {A} e.

(** Environment variables, in insertion order. *)
Definition Env := list (string * string).

Fixpoint env_get (k : string) (e : Env) : option string :=
  match e with
  | [] => None
  | (k', v) :: rest => if String.eqb k k' then Some v else env_get k rest
  end.

Fixpoint env_delete (k : string) (e : Env) : Env :=
  match e with
  | [] => []
  | (k', v) :: rest =>
      if String.eqb k k' then env_delete k rest else (k', v) :: env_delete k rest
  end.

(** Assignment to a property: an existing key keeps its place. *)
Fixpoint env_set (k v : string) (e : Env) : Env :=
  match e with
  | [] => [(k, v)]
  | (k', v') :: rest =>
      if String.eqb k k' then (k, v) :: rest else (k', v') :: env_set k v rest
  end.

(** The closure installed as [onFlush] of a batcher: the emitter built by
    [create], or the one-shot wrapper that [waitForReady] puts around it. *)
Inductive FlushHandler :=
| EmitData (terminalId : string)
| ReadyProbe (terminalId : string).

(** [TerminalDataBatcher]: [timer] tells whether a timeout is pending. *)
Record TerminalDataBatcher := mkBatcher {
  buffer : string;
  timer : bool;
  onFlush : FlushHandler
}.

(** [TerminalSession]; [ts_pty] is the handle of the PTY (an object of the
    PTY library), [ts_batcher] the address of the batcher object. *)
Record TerminalSession := mkSession {
  ts_terminalId : string;
  ts_pty : nat;
  ts_shell : string;
  ts_cwd : string;
  ts_userId : option string;
  ts_worktreeId : option string;
  ts_zellijSession : string;
  ts_cols : Z;
  ts_rows : Z;
  ts_createdAt : Z;
  ts_env : Env;
  ts_batcher : nat
}.

Record CreateTerminalData := mkCreateData {
  d_cwd : option string;
  d_shell : option string;
  d_rows : option Z;
  d_cols : option Z;
  d_userId : option string;
  d_worktreeId : option string
}.

Record ResizeTerminalData := mkResize { r_rows : Z; r_cols : Z }.

Record PatchData := mkPatch {
  p_input : option string;
  p_resize : option ResizeTerminalData
}.

(** The result of [create]. *)
Record CreateResult := mkCreateResult {
  cr_terminalId : string;
  cr_cwd : string;
  cr_zellijSession : string;
  cr_zellijReused : bool;
  cr_worktreeName : option string
}.

Record GetResult := mkGetResult {
  g_terminalId : string;
  g_cwd : string;
  g_alive : bool
}.

(** The part of the configuration, of a user and of a worktree that
    [create] reads. *)
Record Config := mkConfig {
  unix_user_mode : option string;
  executor_unix_user : option string
}.

Record User := mkUser { unix_username : option string }.

Record Worktree := mkWorktree { wt_name : string; wt_path : string }.

Record SpawnOptions := mkSpawnOptions {
  so_name : string;
  so_cols : Z;
  so_rows : Z;
  so_cwd : string;
  so_env : option Env
}.

(** What the service does to the outside world, in order. [EvInvalidate]
    marks a call of the cache's [invalidate] between them. *)
Inductive Event :=
| EvExec (fullCommand : string) (timeout : Z)
| EvExecSync (command : string) (timeout : Z)
| EvWriteFile (path content : string) (mode : Z)
| EvSpawn (cmd : string) (args : list string) (opts : SpawnOptions)
| EvPtyWrite (pty : nat) (data : string)
| EvPtyResize (pty : nat) (cols rows : Z)
| EvPtyKill (pty : nat) (signal : string)
| EvEmitData (terminalId data : string)
| EvEmitExit (terminalId : string) (exitCode : Z)
| EvSleep (ms : Z)
| EvInvalidate (cacheKey : string).

(** Lines written to the console, one constructor per logging site. *)
Inductive LogEntry :=
| LogSessionCheckTimeout (sessionName : string)
| LogActionTimeout (sessionName action : string)
| LogActionFailed (sessionName action message : string)
| LogTabsTimeout (sessionName : string)
| LogChownFailed (chownTo : string) (e : Thrown)
| LogEnvFileFailed (e : Thrown)
| LogLoadUserFailed (userId : string) (e : Thrown)
| LogSpawnFailed (zellijSession message : string)
| LogEmitFailed (terminalId : string) (e : Thrown)
| LogExited (terminalId : string) (exitCode : Z)
| LogExitFailed (terminalId : string) (e : Thrown)
| LogReadyTimeout (terminalId : string)
| LogTabConfigFailed (e : Thrown).

(** The state of one [TerminalsService]: the table of terminals (a [Map],
    which iterates in insertion order), the two maps of the Zellij cache,
    the batcher objects, and what has been done and logged so far. *)
Record State := mkState {
  sessions : list (string * TerminalSession);
  tabsCache : gmap string (list string * Z);
  existsCache : gmap string (bool * Z);
  batchers : gmap nat TerminalDataBatcher;
  trace : list Event;
  console : list LogEntry
}.

Definition set_sessions (f : list (string * TerminalSession) -> list (string * TerminalSession))
  (st : State) : State :=
  mkState (f (sessions st)) (tabsCache st) (existsCache st) (batchers st)
          (trace st) (console st).

Definition set_tabsCache (f : gmap string (list string * Z) -> gmap string (list string * Z))
  (st : State) : State :=
  mkState (sessions st) (f (tabsCache st)) (existsCache st) (batchers st)
          (trace st) (console st).

Definition set_existsCache (f : gmap string (bool * Z) -> gmap string (bool * Z))
  (st : State) : State :=
  mkState (sessions st) (tabsCache st) (f (existsCache st)) (batchers st)
          (trace st) (console st).

Definition set_batchers (f : gmap nat TerminalDataBatcher -> gmap nat TerminalDataBatcher)
  (st : State) : State :=
  mkState (sessions st) (tabsCache st) (existsCache st) (f (batchers st))
          (trace st) (console st).

Definition record (ev : Event) (st : State) : State :=
  mkState (sessions st) (tabsCache st) (existsCache st) (batchers st)
          (trace st ++ [ev]) (console st).

Definition log (l : LogEntry) (st : State) : State :=
  mkState (sessions st) (tabsCache st) (existsCache st) (batchers st)
          (trace st) (console st ++ [l]).

(** [Map] operations on the table of terminals. *)
Fixpoint map_get {A} (k : string) (m : list (string * A)) : option A :=
  match m with
  | [] => None
  | (k', v) :: rest => if String.eqb k k' then Some v else map_get k rest
  end.

Fixpoint map_set {A} (k : string) (v : A) (m : list (string * A)) : list (string * A) :=
  match m with
  | [] => [(k, v)]
  | (k', v') :: rest =>
      if String.eqb k k' then (k, v) :: rest else (k', v') :: map_set k v rest
  end.

Fixpoint map_delete {A} (k : string) (m : list (string * A)) : list (string * A) :=
  match m with
  | [] => []
  | (k', v) :: rest =>
      if String.eqb k k' then map_delete k rest else (k', v) :: map_delete k rest
  end.

(* ===================================================================== *)
(** * The collaborators *)
(* ===================================================================== *)

(** Everything the service calls and does not define: Node's library, the
    PTY library, the event transport, and the helpers it imports from the
    core package. An oracle that reads the outside world receives the events
    so far, so its answers may change as the service acts. *)
Record World := mkWorld {
  (* Node *)
  w_now : list Event -> Z;                       (* Date.now() *)
  w_random : list Event -> string;               (* Math.random().toString(36).substr(2, 9) *)
  w_homedir : string;                            (* os.homedir() *)
  w_tmpdir : string;                             (* os.tmpdir() *)
  w_pathJoin : string -> string -> string;       (* path.join *)
  w_execAsync : list Event -> string -> Z -> Outcome string;
  w_execSync : list Event -> string -> Z -> Outcome unit;
  w_writeFileSync : list Event -> string -> string -> Z -> Outcome unit;
  w_existsSync : list Event -> string -> bool;
  (* PTY library *)
  w_ptySpawn : list Event -> string -> list string -> SpawnOptions -> Outcome nat;
  w_ptyWrite : list Event -> nat -> string -> Outcome unit;
  w_ptyResize : list Event -> nat -> Z -> Z -> Outcome unit;
  w_ptyKill : list Event -> nat -> string -> Outcome unit;
  w_ptyOutputBeforeReady : list Event -> list string;
  (* transport: app.service('terminals').emit *)
  w_emitData : list Event -> string -> string -> Outcome unit;
  w_emitExit : list Event -> string -> Z -> Outcome unit;
  (* core package *)
  w_loadConfig : list Event -> Outcome Config;
  w_usersFindById : list Event -> string -> Outcome (option User);
  w_worktreeFindById : list Event -> string -> Outcome (option Worktree);
  w_formatShortId : string -> string;
  w_resolveUnixUserForImpersonation :
    string -> option string -> option string -> Outcome (option string);
  w_validateResolvedUnixUser : list Event -> string -> option string -> Outcome unit;
  w_resolveUserEnvironment : list Event -> string -> Outcome Env;
  w_createUserProcessEnvironment : list Event -> option string -> Env -> Outcome Env;
  w_buildSpawnArgs :
    string -> list string -> option string -> option Env -> Outcome (string * list string)
}.

(* ===================================================================== *)
(** * The monad of the service: state and exceptions *)
(* ===================================================================== *)

Definition M (A : Type) : Type := State -> Outcome A * State.

Definition ret {A} (a : A) : M A := fun st => (Ok a, st).

Definition throw {A} (e : Thrown) : M A := fun st => (Throw e, st).

Definition bind {A B} (m : M A) (f : A -> M B) : M B :=
  fun st =>
    match m st with
    | (Ok a, st1) => f a st1
    | (Throw e, st1) => (Throw e, st1)
    end.

(** [try { m } catch (e) { h e }] *)
Definition tryCatch {A} (m : M A) (h : Thrown -> M A) : M A :=
  fun st =>
    match m st with
    | (Ok a, st1) => (Ok a, st1)
    | (Throw e, st1) => h e st1
    end.

Definition gets {A} (f : State -> A) : M A := fun st => (Ok (f st), st).

Definition modify (f : State -> State) : M unit := fun st => (Ok tt, f st).

(** Ask an oracle, passing it the events so far. *)
Definition ask {A} (q : list Event -> Outcome A) : M A := fun st => (q (trace st), st).

(** Perform an action on the outside world: the oracle answers on the events
    so far, then the action is recorded. *)
Definition perform {A} (ev : Event) (q : list Event -> Outcome A) : M A :=
  fun st => (q (trace st), record ev st).

Notation "'let!' x ':=' m 'in' k" := (bind m (fun x => k))
  (at level 10, x name, m at level 100, k at level 200).
Notation "'do!' m 'in' k" := (bind m (fun _ => k))
  (at level 10, m at level 100, k at level 200).

Definition bindOutcome {A} (o : Outcome A) : M A := fun st => (o, st).

(** Constants of the service. *)
Definition ZELLIJ_COMMAND_TIMEOUT_MS : Z := 5000.
Definition DATA_BATCH_INTERVAL_MS : Z := 10.
Definition TAB_CACHE_TTL_MS : Z := 5000.
Definition READY_TIMEOUT_MS : Z := 3000.
Definition MAX_BUFFER_SIZE : Z := 1024 * 1024.

(** A text between double quotes, as the template literals write it. *)
Definition dquote (s : string) : string := Js.chr Js.DQ +:+ s +:+ Js.chr Js.DQ.

Section Service.

Variable W : World.

(* --------------------------------------------------------------------- *)
(** ** Asynchronous Zellij utilities *)
(* --------------------------------------------------------------------- *)

(** The command line that [runAsUserAsync] hands to [exec]. *)
Definition fullCommandOf (command : string) (asUser : option string) : string :=
  if Js.truthy asUser
  then "sudo -n su - " +:+ Js.orElse asUser EmptyString +:+ " -c " +:+ escapeShellArg command
  else command.

Definition runAsUserAsync (command : string) (asUser : option string) (timeout : Z)
  : M string :=
  let fullCommand := fullCommandOf command asUser in
  perform (EvExec fullCommand timeout) (fun tr => w_execAsync W tr fullCommand timeout).

Definition listSessionsCommand : string := "zellij list-sessions 2>/dev/null".

Definition zellijSessionExistsAsync (sessionName : string) (asUser : option string)
  : M bool :=
  tryCatch
    (let! output := runAsUserAsync listSessionsCommand asUser
                    ZELLIJ_COMMAND_TIMEOUT_MS in
     let sessions := map Js.trim (Js.splitLines output) in
     ret (Js.arrIncludes sessionName sessions))
    (fun error =>
       let isTimeout :=
         match error with
         | ErrorObj _ m => Js.includes "ETIMEDOUT" m
         | NonError _ => false
         end in
       do! (if isTimeout then modify (log (LogSessionCheckTimeout sessionName))
            else ret tt) in
       ret false).

(** The command line of a Zellij action on a session. *)
Definition actionCommand (sessionName action : string) : string :=
  "zellij --session " +:+ dquote sessionName +:+ " action " +:+ action.

Definition runZellijActionAsync (sessionName action : string) (asUser : option string)
  (throwOnError : bool) : M unit :=
  tryCatch
    (let cmd := actionCommand sessionName action in
     do! runAsUserAsync cmd asUser ZELLIJ_COMMAND_TIMEOUT_MS in
     ret tt)
    (fun error =>
       let message := messageOf error in
       let isTimeout := Js.includes "ETIMEDOUT" message in
       do! modify (log (if isTimeout then LogActionTimeout sessionName action
                        else LogActionFailed sessionName action message)) in
       if throwOnError then throw error else ret tt).

(* --------------------------------------------------------------------- *)
(** ** [ZellijSessionCache] *)
(* --------------------------------------------------------------------- *)

Definition getCacheKey (sessionName : string) (asUser : option string) : string :=
  sessionName +:+ ":" +:+ Js.orElse asUser "daemon".

(** The cached value, when there is one younger than the TTL. *)
Definition freshEntry {A} (cached : option (A * Z)) (now : Z) : option A :=
  match cached with
  | Some (v, timestamp) => if now - timestamp <? TAB_CACHE_TTL_MS then Some v else None
  | None => None
  end.

Definition sessionExists (sessionName : string) (asUser : option string) : M bool :=
  let cacheKey := getCacheKey sessionName asUser in
  let! cached := gets (fun st => existsCache st !! cacheKey) in
  let! now := gets (fun st => w_now W (trace st)) in
  match freshEntry cached now with
  | Some ex => ret ex
  | None =>
      let! ex := zellijSessionExistsAsync sessionName asUser in
      do! modify (set_existsCache (insert cacheKey (ex, now))) in
      ret ex
  end.

Definition tabNamesCommand (sessionName : string) : string :=
  "zellij --session " +:+ dquote sessionName +:+ " action query-tab-names 2>/dev/null".

Definition fetchTabs (sessionName : string) (asUser : option string) : M (list string) :=
  tryCatch
    (let cmd := tabNamesCommand sessionName in
     let! output := runAsUserAsync cmd asUser ZELLIJ_COMMAND_TIMEOUT_MS in
     let tabs :=
       filter (fun line => 0 < Js.length line) (map Js.trim (Js.splitLines output)) in
     ret tabs)
    (fun error =>
       let message := messageOf error in
       let isTimeout := Js.includes "ETIMEDOUT" message in
       do! (if isTimeout then modify (log (LogTabsTimeout sessionName)) else ret tt) in
       ret []).

Definition getTabs (sessionName : string) (asUser : option string) : M (list string) :=
  let cacheKey := getCacheKey sessionName asUser in
  let! cached := gets (fun st => tabsCache st !! cacheKey) in
  let! now := gets (fun st => w_now W (trace st)) in
  match freshEntry cached now with
  | Some tabs => ret tabs
  | None =>
      let! tabs := fetchTabs sessionName asUser in
      do! modify (set_tabsCache (insert cacheKey (tabs, now))) in
      ret tabs
  end.

Definition invalidate (sessionName : string) (asUser : option string) : M unit :=
  let cacheKey := getCacheKey sessionName asUser in
  do! modify (record (EvInvalidate cacheKey)) in
  do! modify (set_tabsCache (delete cacheKey)) in
  modify (set_existsCache (delete cacheKey)).

(* --------------------------------------------------------------------- *)
(** ** Init commands *)
(* --------------------------------------------------------------------- *)

Definition buildInitCommands (envFile : option string) (cwd : string) (alwaysCd : bool)
  : list string :=
  (if Js.truthy envFile
   then [ "[ -f " +:+ escapeShellArg (Js.orElse envFile EmptyString)
          +:+ " ] && source " +:+ escapeShellArg (Js.orElse envFile EmptyString)
          +:+ " 2>/dev/null || true" ]
   else [])
  ++
  (if alwaysCd || negb (String.eqb cwd (w_homedir W))
   then [ "cd " +:+ escapeShellArg cwd ]
   else []).

Definition executeInitCommands (zellijSession : string) (initCommands : list string)
  (asUser : option string) : M unit :=
  match initCommands with
  | [] => ret tt
  | _ =>
      let initScript := Js.join " && " initCommands in
      do! runZellijActionAsync zellijSession
            ("write-chars " +:+ dquote (escapeDoubleQuoted initScript)) asUser false in
      runZellijActionAsync zellijSession "write 10" asUser false
  end.

(* --------------------------------------------------------------------- *)
(** ** [TerminalDataBatcher] *)
(* --------------------------------------------------------------------- *)

(** Reading a batcher object; an address that holds none is a [TypeError]. *)
Definition deref (r : nat) : M TerminalDataBatcher :=
  fun st =>
    match batchers st !! r with
    | Some b => (Ok b, st)
    | None => (Throw (ErrorObj PlainError "TypeError: batcher is undefined"), st)
    end.

Definition store (r : nat) (b : TerminalDataBatcher) : M unit :=
  modify (set_batchers (insert r b)).

(** The emitter that [create] gives to the batcher: the emission is wrapped
    in a try/catch that logs. *)
Definition emitData (terminalId data : string) : M unit :=
  tryCatch
    (perform (EvEmitData terminalId data) (fun tr => w_emitData W tr terminalId data))
    (fun error => modify (log (LogEmitFailed terminalId error))).

(** Calling [this.onFlush(data)]. The wrapper of [waitForReady] signals the
    first data, puts the original emitter back and calls it. *)
Definition callOnFlush (r : nat) (data : string) : M unit :=
  let! b := deref r in
  match onFlush b with
  | EmitData terminalId => emitData terminalId data
  | ReadyProbe terminalId =>
      do! store r (mkBatcher (buffer b) (timer b) (EmitData terminalId)) in
      emitData terminalId data
  end.

Definition Batcher_flush (r : nat) : M unit :=
  let! b := deref r in
  do! store r (mkBatcher (buffer b) false (onFlush b)) in
  if 0 <? Js.length (buffer b) then
    let data := buffer b in
    do! store r (mkBatcher EmptyString false (onFlush b)) in
    callOnFlush r data
  else ret tt.

Definition Batcher_push (r : nat) (data : string) : M unit :=
  let! b := deref r in
  let buf := buffer b +:+ data in
  do! store r (mkBatcher buf (timer b) (onFlush b)) in
  if MAX_BUFFER_SIZE <=? Js.length buf then Batcher_flush r
  else if timer b then ret tt
  else store r (mkBatcher buf true (onFlush b)).

Definition Batcher_destroy (r : nat) : M unit :=
  let! b := deref r in
  store r (mkBatcher EmptyString false (onFlush b)).

(** The timeout set by [push] fires. *)
Definition Batcher_timerFires (r : nat) : M unit := Batcher_flush r.

Fixpoint Batcher_pushAll (r : nat) (chunks : list string) : M unit :=
  match chunks with
  | [] => ret tt
  | data :: rest => do! Batcher_push r data in Batcher_pushAll r rest
  end.

(* --------------------------------------------------------------------- *)
(** ** [writeEnvFile] *)
(* --------------------------------------------------------------------- *)

Definition skipKeys : list string :=
  ["PATH"; "HOME"; "USER"; "SHELL"; "PWD"; "OLDPWD"; "TERM"; "COLORTERM"].

Definition exportLine (kv : string * string) : string :=
  "export " +:+ fst kv +:+ "='" +:+ Js.replaceAll Js.SQ "'\''" (snd kv) +:+ "'".

Definition writeEnvFile (userId : option string) (env : Env) (chownTo : option string)
  : M (option string) :=
  if negb (Js.truthy userId) then ret None
  else
    tryCatch
      (let tmpDir := w_tmpdir W in
       let envFile :=
         w_pathJoin W tmpDir
           ("agor-env-" +:+ Js.take 8 (Js.orElse userId EmptyString) +:+ ".sh") in
       let exportLines :=
         map exportLine (filter (fun kv => negb (Js.arrIncludes (fst kv) skipKeys)) env) in
       let scriptContent :=
         "#!/bin/sh" +:+ Js.chr Js.NL
         +:+ "# Agor user environment variables" +:+ Js.chr Js.NL
         +:+ "# Auto-generated - do not edit manually" +:+ Js.chr Js.NL
         +:+ Js.join (Js.chr Js.NL) exportLines +:+ Js.chr Js.NL in
       do! perform (EvWriteFile envFile scriptContent 384)
             (fun tr => w_writeFileSync W tr envFile scriptContent 384) in
       do! (if Js.truthy chownTo then
              let cmd := "sudo -n chown " +:+ dquote (Js.orElse chownTo EmptyString)
                         +:+ " " +:+ dquote envFile in
              tryCatch
                (perform (EvExecSync cmd 2000) (fun tr => w_execSync W tr cmd 2000))
                (fun chownError =>
                   modify (log (LogChownFailed (Js.orElse chownTo EmptyString) chownError)))
            else ret tt) in
       ret (Some envFile))
      (fun error => do! modify (log (LogEnvFileFailed error)) in ret None).

(* --------------------------------------------------------------------- *)
(** ** [TerminalsService.create] *)
(* --------------------------------------------------------------------- *)

Record AuthenticatedParams := mkParams { user_id : option string }.

(** [params?.user?.user_id] *)
Definition authenticatedUserIdOf (params : option AuthenticatedParams) : option string :=
  match params with
  | Some p => user_id p
  | None => None
  end.

(** [data.userId ?? authenticatedUserId] *)
Definition resolvedUserIdOf (data : CreateTerminalData)
  (params : option AuthenticatedParams) : option string :=
  match d_userId data with
  | Some u => Some u
  | None => authenticatedUserIdOf params
  end.

Definition userSessionSuffixOf (resolvedUserId : option string) : string :=
  if negb (Js.truthy resolvedUserId) then "shared"
  else w_formatShortId W (Js.orElse resolvedUserId EmptyString).

(** The name of the Zellij session: one session per user. *)
Definition zellijSessionOf (resolvedUserId : option string) : string :=
  "agor-" +:+ userSessionSuffixOf resolvedUserId.

(** The Unix name stored for the authenticated user, if it can be loaded. *)
Definition loadImpersonatedUser (authenticatedUserId : option string)
  : M (option string) :=
  if Js.truthy authenticatedUserId then
    let uid := Js.orElse authenticatedUserId EmptyString in
    tryCatch
      (let! user := ask (fun tr => w_usersFindById W tr uid) in
       match user with
       | Some u => if Js.truthy (unix_username u) then ret (unix_username u) else ret None
       | None => ret None
       end)
      (fun error => do! modify (log (LogLoadUserFailed uid error)) in ret None)
  else ret None.

(** Which Unix user the terminal runs as (lines 584-623 of the service): the
    configured mode, the mapped user and the executor user go through the
    resolver of the core package, and its answer through the validator.
    Returns the final Unix user. *)
Definition create_resolveIdentity (authenticatedUserId : option string)
  : M (option string) :=
  let! config := ask (w_loadConfig W) in
  let unixUserMode :=
    match unix_user_mode config with Some m => m | None => "simple" end in
  let executorUser := executor_unix_user config in
  let! impersonatedUser := loadImpersonatedUser authenticatedUserId in
  let! finalUnixUser :=
    bindOutcome (w_resolveUnixUserForImpersonation W unixUserMode impersonatedUser
                   executorUser) in
  do! tryCatch
        (ask (fun tr => w_validateResolvedUnixUser W tr unixUserMode finalUnixUser))
        (fun err =>
           match err with
           | ErrorObj UnixUserNotFoundError message =>
               throw (newError (message +:+
                 ". Ensure the Unix user is created before attempting terminal access."))
           | _ => throw err
           end) in
  ret finalUnixUser.

(** The working directory and the name of the worktree (lines 630-652). *)
Definition create_resolveCwd (data : CreateTerminalData) (finalUnixUser : option string)
  : M (string * option string) :=
  let cwd := Js.orElse (d_cwd data) (w_homedir W) in
  if Js.truthy (d_worktreeId data) then
    let! worktree :=
      ask (fun tr => w_worktreeFindById W tr (Js.orElse (d_worktreeId data) EmptyString)) in
    match worktree with
    | Some wt =>
        if Js.truthy finalUnixUser && Js.truthy (Some (wt_name wt)) then
          let symlinkPath :=
            "/home/" +:+ Js.orElse finalUnixUser EmptyString
            +:+ "/agor/worktrees/" +:+ wt_name wt in
          let! present := gets (fun st => w_existsSync W (trace st) symlinkPath) in
          ret (if present then symlinkPath else wt_path wt, Some (wt_name wt))
        else ret (wt_path wt, Some (wt_name wt))
    | None => ret (cwd, None)
    end
  else ret (cwd, None).

(** Session and tab bookkeeping (lines 664-682): (sessionExists,
    zellijReused, needsTabCreation, needsTabSwitch). *)
Definition create_classify (zellijSession : string) (asUser : option string)
  (tabName : string) : M (bool * bool * bool * bool) :=
  let! sessionExists := sessionExists zellijSession asUser in
  if sessionExists then
    let! existingTabs := getTabs zellijSession asUser in
    let tabExists := Js.arrIncludes tabName existingTabs in
    if tabExists then ret (true, true, false, true)
    else ret (true, false, true, false)
  else ret (false, false, false, false).

(** The environment of the terminal (lines 688-715). Where [LANG] is unset
    the assignment of [baseEnv.LANG] stores [undefined]; the variable is then
    left unset. *)
Definition defaultLocale (k : string) (env : Env) : Env :=
  if negb (Js.truthy (env_get k env)) then
    match env_get "LANG" env with
    | Some lang => env_set k lang env
    | None => env_delete k env
    end
  else env.

Definition create_environment (resolvedUserId finalUnixUser : option string)
  : M (Env * option string) :=
  let! userEnv :=
    (if Js.truthy resolvedUserId
     then ask (fun tr => w_resolveUserEnvironment W tr (Js.orElse resolvedUserId EmptyString))
     else ret []) in
  let! baseEnv :=
    ask (fun tr => w_createUserProcessEnvironment W tr resolvedUserId
                     [("TERM", "xterm-256color"); ("COLORTERM", "truecolor");
                      ("LANG", "C.UTF-8")]) in
  let baseEnv := env_delete "ZELLIJ_SESSION_NAME" (env_delete "ZELLIJ" baseEnv) in
  let env := defaultLocale "LC_CTYPE" (defaultLocale "LC_ALL" baseEnv) in
  let! envFile :=
    (if Js.truthy resolvedUserId then writeEnvFile resolvedUserId userEnv finalUnixUser
     else ret None) in
  ret (env, envFile).

(** Spawning the PTY attached to the session (lines 730-758). *)
Definition create_spawn (data : CreateTerminalData) (zellijSession cwd : string)
  (finalUnixUser : option string) (env : Env) : M nat :=
  tryCatch
    (let spawnEnv :=
       if Js.truthy finalUnixUser then
         env_set "USER" (Js.orElse finalUnixUser EmptyString)
           (env_set "HOME" ("/home/" +:+ Js.orElse finalUnixUser EmptyString) env)
       else env in
     let zellijArgs := ["attach"; zellijSession; "--create"] in
     let! ca :=
       bindOutcome
         (w_buildSpawnArgs W "zellij" zellijArgs
            (if Js.truthy finalUnixUser then finalUnixUser else None)
            (if Js.truthy finalUnixUser then Some spawnEnv else None)) in
     let opts :=
       mkSpawnOptions "xterm-256color" (Js.numOrElse (d_cols data) 80)
         (Js.numOrElse (d_rows data) 30) cwd
         (if Js.truthy finalUnixUser then None else Some spawnEnv) in
     perform (EvSpawn (fst ca) (snd ca) opts)
       (fun tr => w_ptySpawn W tr (fst ca) (snd ca) opts))
    (fun spawnError =>
       let errorMsg := messageOf spawnError in
       do! modify (log (LogSpawnFailed zellijSession errorMsg)) in
       throw (newError ("Failed to create terminal session: " +:+ errorMsg))).

(** [new TerminalDataBatcher(...)]: a new object, at an unused address. *)
Definition newBatcher (terminalId : string) : M nat :=
  fun st =>
    let r := fresh (dom (batchers st)) in
    (Ok r, set_batchers (insert r (mkBatcher EmptyString false (EmitData terminalId))) st).

(** Creating the batcher and storing the session (lines 760-787). *)
Definition create_register (data : CreateTerminalData) (terminalId : string)
  (ptyProcess : nat) (cwd : string) (resolvedUserId : option string)
  (zellijSession : string) (env : Env) : M nat :=
  let! batcher := newBatcher terminalId in
  let! createdAt := gets (fun st => w_now W (trace st)) in
  do! modify (set_sessions (map_set terminalId
        (mkSession terminalId ptyProcess "zellij" cwd resolvedUserId (d_worktreeId data)
           zellijSession (Js.numOrElse (d_cols data) 80) (Js.numOrElse (d_rows data) 30)
           createdAt env batcher))) in
  ret batcher.

(** The callbacks registered on the PTY (lines 791-815): [onData] pushes
    into the batcher, [onExit] flushes, releases the batcher and removes the
    session. *)
Definition ptyOnData (batcher : nat) (ptyData : string) : M unit :=
  Batcher_push batcher ptyData.

Definition ptyOnExit (terminalId : string) (batcher : nat) (exitCode : Z) : M unit :=
  tryCatch
    (do! Batcher_flush batcher in
     do! Batcher_destroy batcher in
     do! modify (log (LogExited terminalId exitCode)) in
     do! modify (set_sessions (map_delete terminalId)) in
     perform (EvEmitExit terminalId exitCode)
       (fun tr => w_emitExit W tr terminalId exitCode))
    (fun error =>
       do! modify (log (LogExitFailed terminalId error)) in
       do! Batcher_destroy batcher in
       modify (set_sessions (map_delete terminalId))).

(** Waiting for the first output of the PTY (lines 824-857). The wrapper is
    put around the emitter; the PTY delivers what it has to say before the
    service goes on (each chunk goes through [onData]); the batch timer, if
    one is pending, fires; and when nothing was flushed the fallback timeout
    ends the wait. *)
Definition waitForReady (terminalId : string) (batcher : nat) : M unit :=
  let! b := deref batcher in
  do! store batcher (mkBatcher (buffer b) (timer b) (ReadyProbe terminalId)) in
  let! chunks := gets (fun st => w_ptyOutputBeforeReady W (trace st)) in
  do! Batcher_pushAll batcher chunks in
  let! b1 := deref batcher in
  do! (if timer b1 then Batcher_timerFires batcher else ret tt) in
  let! b2 := deref batcher in
  match onFlush b2 with
  | ReadyProbe _ => modify (log (LogReadyTimeout terminalId))
  | EmitData _ => ret tt
  end.

(** What the first half of [create] leaves to the tab management. *)
Record TabPlan := mkTabPlan {
  tp_terminalId : string;
  tp_cwd : string;
  tp_zellijSession : string;
  tp_asUser : option string;
  tp_tabName : string;
  tp_worktreeName : option string;
  tp_envFile : option string;
  tp_sessionExists : bool;
  tp_zellijReused : bool;
  tp_needsTabCreation : bool;
  tp_needsTabSwitch : bool
}.

(** [create] up to and including the wait for the PTY (lines 569-857). *)
Definition create_setup (data : CreateTerminalData) (params : option AuthenticatedParams)
  : M TabPlan :=
  let! stamp := gets (fun st => w_now W (trace st)) in
  let! rnd := gets (fun st => w_random W (trace st)) in
  let terminalId := "term-" +:+ Js.showZ stamp +:+ "-" +:+ rnd in
  let authenticatedUserId := authenticatedUserIdOf params in
  let resolvedUserId := resolvedUserIdOf data params in
  let! finalUnixUser := create_resolveIdentity authenticatedUserId in
  let! cw := create_resolveCwd data finalUnixUser in
  let cwd := fst cw in
  let worktreeName := snd cw in
  let zellijSession := zellijSessionOf resolvedUserId in
  let asUser := if Js.truthy finalUnixUser then finalUnixUser else None in
  let tabName := Js.orElse worktreeName "terminal" in
  let! cls := create_classify zellijSession asUser tabName in
  let! ee := create_environment resolvedUserId finalUnixUser in
  let! ptyProcess := create_spawn data zellijSession cwd finalUnixUser (fst ee) in
  let! batcher :=
    create_register data terminalId ptyProcess cwd resolvedUserId zellijSession (fst ee) in
  do! waitForReady terminalId batcher in
  ret (mkTabPlan terminalId cwd zellijSession asUser tabName worktreeName (snd ee)
         (fst (fst (fst cls))) (snd (fst (fst cls))) (snd (fst cls)) (snd cls)).

(** The tab management of [create] (lines 859-916): exactly one of renaming
    the first tab, creating a tab, or switching to the existing tab; then the
    init commands. A failure is logged and thrown again under a new
    message. *)
Definition create_configureTab (plan : TabPlan) : M unit :=
  let zellijSession := tp_zellijSession plan in
  let asUser := tp_asUser plan in
  let cwd := tp_cwd plan in
  let envFile := tp_envFile plan in
  let escapedTabName := escapeDoubleQuoted (tp_tabName plan) in
  let escapedCwd := escapeDoubleQuoted cwd in
  tryCatch
    (if negb (tp_sessionExists plan) then
       do! runZellijActionAsync zellijSession
             ("rename-tab " +:+ dquote escapedTabName) asUser true in
       do! invalidate zellijSession asUser in
       let initCommands := buildInitCommands envFile cwd false in
       executeInitCommands zellijSession initCommands asUser
     else if tp_needsTabCreation plan then
       do! runZellijActionAsync zellijSession
             ("new-tab --name " +:+ dquote escapedTabName
              +:+ " --cwd " +:+ dquote escapedCwd) asUser true in
       do! runZellijActionAsync zellijSession
             ("go-to-tab-name " +:+ dquote escapedTabName) asUser true in
       do! invalidate zellijSession asUser in
       do! modify (record (EvSleep 50)) in
       let initCommands := buildInitCommands envFile cwd true in
       executeInitCommands zellijSession initCommands asUser
     else if tp_needsTabSwitch plan then
       do! runZellijActionAsync zellijSession
             ("go-to-tab-name " +:+ dquote escapedTabName) asUser true in
       do! runZellijActionAsync zellijSession "write 3" asUser false in
       do! modify (record (EvSleep 20)) in
       let initCommands := buildInitCommands envFile cwd true in
       executeInitCommands zellijSession initCommands asUser
     else ret tt)
    (fun error =>
       do! modify (log (LogTabConfigFailed error)) in
       throw (newError ("Zellij tab configuration failed: " +:+ messageOf error))).

Definition create (data : CreateTerminalData) (params : option AuthenticatedParams)
  : M CreateResult :=
  let! plan := create_setup data params in
  do! create_configureTab plan in
  ret (mkCreateResult (tp_terminalId plan) (tp_cwd plan) (tp_zellijSession plan)
         (tp_zellijReused plan) (tp_worktreeName plan)).

(* --------------------------------------------------------------------- *)
(** ** [get], [find], [patch], [remove], [cleanup] *)
(* --------------------------------------------------------------------- *)

Definition notFound (id : string) : Thrown :=
  newError ("Terminal " +:+ id +:+ " not found").

Definition get (id : string) : M GetResult :=
  let! session := gets (fun st => map_get id (sessions st)) in
  match session with
  | None => throw (notFound id)
  | Some session => ret (mkGetResult (ts_terminalId session) (ts_cwd session) true)
  end.

Definition find : M (list (string * string * Z)) :=
  gets (fun st =>
          map (fun kv => (ts_terminalId (snd kv), ts_cwd (snd kv), ts_createdAt (snd kv)))
              (sessions st)).

Definition resized (session : TerminalSession) (cols rows : Z) : TerminalSession :=
  mkSession (ts_terminalId session) (ts_pty session) (ts_shell session) (ts_cwd session)
    (ts_userId session) (ts_worktreeId session) (ts_zellijSession session) cols rows
    (ts_createdAt session) (ts_env session) (ts_batcher session).

Definition patch (id : string) (data : PatchData) : M unit :=
  let! session := gets (fun st => map_get id (sessions st)) in
  match session with
  | None => throw (notFound id)
  | Some session =>
      do! match p_input data with
          | Some input =>
              perform (EvPtyWrite (ts_pty session) input)
                (fun tr => w_ptyWrite W tr (ts_pty session) input)
          | None => ret tt
          end in
      match p_resize data with
      | Some rs =>
          do! modify (set_sessions (map_set id (resized session (r_cols rs) (r_rows rs)))) in
          perform (EvPtyResize (ts_pty session) (r_cols rs) (r_rows rs))
            (fun tr => w_ptyResize W tr (ts_pty session) (r_cols rs) (r_rows rs))
      | None => ret tt
      end
  end.

Definition ptyKill (pty : nat) (signal : string) : M unit :=
  perform (EvPtyKill pty signal) (fun tr => w_ptyKill W tr pty signal).

Definition remove (id : string) : M string :=
  let! session := gets (fun st => map_get id (sessions st)) in
  match session with
  | None => throw (notFound id)
  | Some session =>
      do! Batcher_flush (ts_batcher session) in
      do! Batcher_destroy (ts_batcher session) in
      do! ptyKill (ts_pty session) "SIGTERM" in
      do! modify (set_sessions (map_delete id)) in
      ret id
  end.

(** The body of the loop of [cleanup], for one session. *)
Definition teardown (session : TerminalSession) : M unit :=
  do! Batcher_flush (ts_batcher session) in
  do! Batcher_destroy (ts_batcher session) in
  ptyKill (ts_pty session) "SIGTERM".

Fixpoint teardownAll (l : list TerminalSession) : M unit :=
  match l with
  | [] => ret tt
  | session :: rest => do! teardown session in teardownAll rest
  end.

Definition cleanup : M unit :=
  let! all := gets (fun st => map snd (sessions st)) in
  do! teardownAll all in
  modify (set_sessions (fun _ => [])).

End Service.

(** The escapers, character by character: what [escapeDoubleQuoted] makes
    of one character. *)
Definition escapeChar (c : ascii) : string :=
  if Ascii.eqb c Js.BS then String Js.BS (Js.chr Js.BS)
  else if Ascii.eqb c Js.DQ then String Js.BS (Js.chr Js.DQ)
  else if Ascii.eqb c Js.DOLLAR then String Js.BS (Js.chr Js.DOLLAR)
  else if Ascii.eqb c Js.BACKTICK then String Js.BS (Js.chr Js.BACKTICK)
  else Js.chr c.

Fixpoint escapeEach (s : string) : string :=
  match s with
  | EmptyString => EmptyString
  | String c rest => escapeChar c +:+ escapeEach rest
  end.


(* ===================================================================== *)
(** * Concrete collaborators, for the examples *)
(* ===================================================================== *)

(** Modelled from the spec: [formatShortId] of the core package is not part
    of these sources. The comment at its call site says that it yields a
    short id of eight characters. *)
Definition spec_formatShortId (id : string) : string := Js.take 8 id.

(** Modelled from the spec: [resolveUnixUserForImpersonation] of the core
    package is not part of these sources. Section 4.3 of the spec names three
    modes: never impersonate (the resolved identity is empty), impersonate if
    the user has a mapped identity, always impersonate with the configured
    executor identity as fallback. The sources name only the default mode,
    [simple]; the other two are named here by the spec's descriptions. *)
Definition spec_resolveUnixUserForImpersonation (mode : string)
  (userUnixUsername executorUnixUser : option string) : Outcome (option string) :=
  if String.eqb mode "impersonate-if-mapped" then
    Ok (if Js.truthy userUnixUsername then userUnixUsername else None)
  else if String.eqb mode "always-impersonate-with-fallback" then
    Ok (if Js.truthy userUnixUsername then userUnixUsername
        else if Js.truthy executorUnixUser then executorUnixUser else None)
  else Ok None.

(** Modelled from the spec: [validateResolvedUnixUser] of the core package is
    not part of these sources. Section 4.3 of the spec: when the mode requires
    impersonation and no identity resolves, fail with a configuration error
    that identifies the missing identity; section 2: the resolved identity
    must exist. [osUsers] lists the Unix users of the host. *)
Definition spec_validateResolvedUnixUser (osUsers : list string) (mode : string)
  (unixUser : option string) : Outcome unit :=
  match unixUser with
  | Some u =>
      if Js.arrIncludes u osUsers then Ok tt
      else Throw (ErrorObj UnixUserNotFoundError ("Unix user not found: " +:+ u))
  | None =>
      if String.eqb mode "always-impersonate-with-fallback"
      then Throw (ErrorObj UnixUserNotFoundError
                    ("No Unix user resolved for mode " +:+ mode))
      else Ok tt
  end.

Module Demo.

(** A host on which everything succeeds, up to the given behaviour of child
    processes and of [kill], the given configuration, the Unix name mapped
    to every user, and the Unix users of the host. The PTY greets with one
    chunk of output. *)
Definition world (execAsync : list Event -> string -> Z -> Outcome string)
  (ptyKill : list Event -> nat -> string -> Outcome unit)
  (config : Config) (mapped : option string) (osUsers : list string) : World :=
  {| w_now := fun tr => 1700000000000 + Z.of_nat (List.length tr);
     w_random := fun _ => "k3x9q2m1z";
     w_homedir := "/home/agor";
     w_tmpdir := "/tmp";
     w_pathJoin := fun a b => a +:+ "/" +:+ b;
     w_execAsync := execAsync;
     w_execSync := fun _ _ _ => Ok tt;
     w_writeFileSync := fun _ _ _ _ => Ok tt;
     w_existsSync := fun _ _ => false;
     w_ptySpawn := fun tr _ _ _ => Ok (List.length tr);
     w_ptyWrite := fun _ _ _ => Ok tt;
     w_ptyResize := fun _ _ _ _ => Ok tt;
     w_ptyKill := ptyKill;
     w_ptyOutputBeforeReady := fun _ => ["Welcome to Zellij"];
     w_emitData := fun _ _ _ => Ok tt;
     w_emitExit := fun _ _ _ => Ok tt;
     w_loadConfig := fun _ => Ok config;
     w_usersFindById := fun _ _ => Ok (Some (mkUser mapped));
     w_worktreeFindById := fun _ id => Ok (Some (mkWorktree id ("/srv/worktrees/" +:+ id)));
     w_formatShortId := spec_formatShortId;
     w_resolveUnixUserForImpersonation := spec_resolveUnixUserForImpersonation;
     w_validateResolvedUnixUser := fun _ => spec_validateResolvedUnixUser osUsers;
     w_resolveUserEnvironment := fun _ _ => Ok [("EDITOR", "vim")];
     w_createUserProcessEnvironment := fun _ _ defaults => Ok defaults;
     w_buildSpawnArgs := fun cmd args _ _ => Ok (cmd, args) |}.

Definition defaultConfig : Config := mkConfig None None.

Definition killOk : list Event -> nat -> string -> Outcome unit := fun _ _ _ => Ok tt.

(** No Zellij session exists yet and every command succeeds. *)
Definition quiet : World :=
  world (fun _ _ _ => Ok EmptyString) killOk defaultConfig None [].

(** Every child process fails, as when Zellij is stuck. *)
Definition stuck : World :=
  world (fun _ _ _ => Throw (newError "Command failed: spawnSync /bin/sh ETIMEDOUT"))
        killOk defaultConfig None [].

(** The PTY library refuses to kill the PTY with handle 1. *)
Definition killFails : World :=
  world (fun _ _ _ => Ok EmptyString)
        (fun _ pty _ => if Nat.eqb pty 1 then Throw (newError "kill ESRCH") else Ok tt)
        defaultConfig None [].

(** The session [agor-shared] exists with the single tab [other]; creating a
    tab works, going to it fails. *)
Definition gotoFails : World :=
  world (fun _ cmd _ =>
           if Js.includes "go-to-tab-name" cmd then Throw (newError "Command failed")
           else if Js.includes "list-sessions" cmd then Ok "agor-shared"
           else if Js.includes "query-tab-names" cmd then Ok "other"
           else Ok EmptyString)
        killOk defaultConfig None [].

(** Impersonation is required, and neither a mapped nor an executor user is
    configured. *)
Definition strict : World :=
  world (fun _ _ _ => Ok EmptyString) killOk
        (mkConfig (Some "always-impersonate-with-fallback") None) None [].

(** Every terminal runs as the executor user [agor_executor]. *)
Definition insulated : World :=
  world (fun _ _ _ => Ok EmptyString) killOk
        (mkConfig (Some "always-impersonate-with-fallback") (Some "agor_executor"))
        None ["agor_executor"].

(** Users are mapped to the Unix user [alice], who does not exist. *)
Definition unknownUser : World :=
  world (fun _ _ _ => Ok EmptyString) killOk
        (mkConfig (Some "impersonate-if-mapped") None) (Some "alice") [].

(** The session [agor-shared] exists with the single tab [other]. *)
Definition sessionExists : World :=
  world (fun _ cmd _ =>
           if Js.includes "list-sessions" cmd then Ok "agor-shared"
           else if Js.includes "query-tab-names" cmd then Ok "other"
           else Ok EmptyString)
        killOk defaultConfig None [].

Definition noData : CreateTerminalData := mkCreateData None None None None None None.

Definition dataOfUser (userId : string) : CreateTerminalData :=
  mkCreateData None None None None (Some userId) None.

Definition empty : State := mkState [] ∅ ∅ ∅ [] [].

(** A chunk of PTY output of [n] characters. *)
Definition chunk (n : N) : string := N.iter n (String "x") EmptyString.

(** The lengths of the chunks emitted, and the length of a batcher's buffer
    with the state of its timer. *)
Definition emittedLengths (tr : list Event) : list (string * Z) :=
  flat_map (fun ev => match ev with
                      | EvEmitData t d => [(t, Js.length d)]
                      | _ => []
                      end) tr.

Definition buffered (st : State) (r : nat) : option (Z * bool) :=
  match batchers st !! r with
  | Some b => Some (Js.length (buffer b), timer b)
  | None => None
  end.

Definition userParams (userId : string) : option AuthenticatedParams :=
  Some (mkParams (Some userId)).

(** A request of a user for a terminal in a worktree, with dimensions. *)
Definition dataOfWorktree (userId worktreeId : string) : CreateTerminalData :=
  mkCreateData (Some "/srv") (Some "bash") (Some 40) (Some 120) (Some userId)
    (Some worktreeId).

(** What a run of [create] returned as session name, and which Unix user
    its commands ran as. *)
Definition sessionNameOf (run : Outcome CreateResult * State) : option string :=
  match fst run with
  | Ok result => Some (cr_zellijSession result)
  | Throw _ => None
  end.

Definition actingIdentityOf (run : Outcome TabPlan * State) : option (option string) :=
  match fst run with
  | Ok plan => Some (tp_asUser plan)
  | Throw _ => None
  end.

Definition session (terminalId : string) (pty batcher : nat) : TerminalSession :=
  mkSession terminalId pty "zellij" "/home/agor" None None "agor-shared" 80 30
    1700000000000 [] batcher.

(** Two terminals; the first has output waiting in its batcher. *)
Definition twoTerminals : State :=
  mkState [("term-1", session "term-1" 1 0); ("term-2", session "term-2" 2 1)] ∅ ∅
    (<[0%nat := mkBatcher "ls" true (EmitData "term-1")]>
       (<[1%nat := mkBatcher EmptyString false (EmitData "term-2")]> ∅))
    [] [].

End Demo.

(** The PTYs that were sent a signal, in order. *)
Definition killsOf (tr : list Event) : list (nat * string) :=
  flat_map (fun ev => match ev with EvPtyKill pty sig => [(pty, sig)] | _ => [] end) tr.

(** The event of a Zellij action on a session. *)
Definition actionEvent (zellijSession action : string) (asUser : option string) : Event :=
  EvExec (fullCommandOf (actionCommand zellijSession action) asUser)
    ZELLIJ_COMMAND_TIMEOUT_MS.

(** The events of the injection of a list of init commands. *)
Definition initEventsOf (zellijSession : string) (initCommands : list string)
  (asUser : option string) : list Event :=
  match initCommands with
  | [] => []
  | _ =>
      [ actionEvent zellijSession
          ("write-chars " +:+ dquote (escapeDoubleQuoted (Js.join " && " initCommands)))
          asUser;
        actionEvent zellijSession "write 10" asUser ]
  end.

(** The Unix name that [create] hands to the resolver for the authenticated
    user: the stored name when the user can be loaded and has one. *)
Definition mappedUnixUserOf (W : World) (tr : list Event)
  (authenticatedUserId : option string) : option string :=
  if Js.truthy authenticatedUserId then
    match w_usersFindById W tr (Js.orElse authenticatedUserId EmptyString) with
    | Ok (Some u) => if Js.truthy (unix_username u) then unix_username u else None
    | _ => None
    end
  else None.

(** The error with which [create] fails when the validator throws [e]. *)
Definition identityError (e : Thrown) : Thrown :=
  match e with
  | ErrorObj UnixUserNotFoundError message =>
      newError (message +:+
        ". Ensure the Unix user is created before attempting terminal access.")
  | _ => e
  end.

(** Events that [create] causes before the tab management: the two queries
    of the cache, the env file and its ownership, the spawn of the PTY, and
    output of the PTY. No Zellij action is among them. *)
Definition setupEvent (zs : string) (asUser : option string) (ev : Event) : Prop :=
  match ev with
  | EvExec cmd _ =>
      cmd = fullCommandOf listSessionsCommand asUser
      \/ cmd = fullCommandOf (tabNamesCommand zs) asUser
  | EvExecSync _ _ | EvWriteFile _ _ _ | EvSpawn _ _ _ | EvEmitData _ _ => True
  | _ => False
  end.

(** [st'] continues the events of [st] with events that satisfy [P]. *)
Definition grows (P : Event -> Prop) (st st' : State) : Prop :=
  exists evs, trace st' = trace st ++ evs /\ Forall P evs.

(** A state reached from another by console output only. *)
Definition onlyLogged (st st' : State) : Prop :=
  sessions st' = sessions st /\ tabsCache st' = tabsCache st
  /\ existsCache st' = existsCache st /\ batchers st' = batchers st
  /\ trace st' = trace st.

(** The commands run so far, and the cache keys invalidated so far. *)
Definition execsOf (tr : list Event) : list string :=
  flat_map (fun ev => match ev with EvExec cmd _ => [cmd] | _ => [] end) tr.

Definition invalidationsOf (tr : list Event) : list string :=
  flat_map (fun ev => match ev with EvInvalidate key => [key] | _ => [] end) tr.

(** Two states that differ at most in the batcher objects, the events and
    the console. *)
Definition sameTables (st st' : State) : Prop :=
  sessions st' = sessions st
  /\ tabsCache st' = tabsCache st
  /\ existsCache st' = existsCache st.

(** The terminal a flush handler emits for. *)
Definition handlerId (h : FlushHandler) : string :=
  match h with
  | EmitData t => t
  | ReadyProbe t => t
  end.

(** A batcher that holds nothing and waits for nothing. *)
Definition released (st : State) (r : nat) : Prop :=
  exists h, batchers st !! r = Some (mkBatcher EmptyString false h).

(** What [flush] hands to the transport for a batcher. *)
Definition flushEvents (b : TerminalDataBatcher) : list Event :=
  if 0 <? Js.length (buffer b)
  then [EvEmitData (handlerId (onFlush b)) (buffer b)] else [].

(** A session name without a colon. *)
Fixpoint noColon (s : string) : bool :=
  match s with
  | EmptyString => true
  | String c rest => negb (Ascii.eqb c ":") && noColon rest
  end.

(** The output handed to the transport for a terminal so far, in order. *)
Fixpoint emittedTo (terminalId : string) (tr : list Event) : string :=
  match tr with
  | [] => EmptyString
  | EvEmitData t d :: rest =>
      if String.eqb t terminalId then d +:+ emittedTo terminalId rest
      else emittedTo terminalId rest
  | _ :: rest => emittedTo terminalId rest
  end.

(** The chunks of PTY output, one after the other. *)
Fixpoint concatChunks (chunks : list string) : string :=
  match chunks with
  | [] => EmptyString
  | c :: rest => c +:+ concatChunks rest
  end.

(** Two states with the same terminals and the same batcher objects, and
    between which no PTY was sent a signal. *)
Definition sameObjects (st st' : State) : Prop :=
  sessions st' = sessions st /\ batchers st' = batchers st
  /\ killsOf (trace st') = killsOf (trace st).

(** A computation that, whatever its outcome, relates the state it starts
    from to the state it ends in. *)
Definition preserves {A} (R : State -> State -> Prop) (m : M A) : Prop :=
  forall st o st', m st = (o, st') -> R st st'.

(** A computation that throws nothing but values that satisfy [P]. *)
Definition throwsOnly {A} (P : Thrown -> Prop) (m : M A) : Prop :=
  forall st e st', m st = (Throw e, st') -> P e.

(** The ways in which [create] fails: the value it throws, by the call that
    threw first. *)
Inductive CreateFailure (W : World) : Thrown -> Prop :=
| ConfigUnreadable tr e :
    w_loadConfig W tr = Throw e -> CreateFailure W e
| ResolverRefused mode mapped executor e :
    w_resolveUnixUserForImpersonation W mode mapped executor = Throw e ->
    CreateFailure W e
| ValidatorRefused tr mode unixUser cause :
    w_validateResolvedUnixUser W tr mode unixUser = Throw cause ->
    CreateFailure W (identityError cause)
| WorktreeLookupFailed tr worktreeId e :
    w_worktreeFindById W tr worktreeId = Throw e -> CreateFailure W e
| UserEnvironmentFailed tr userId e :
    w_resolveUserEnvironment W tr userId = Throw e -> CreateFailure W e
| ProcessEnvironmentFailed tr userId defaults e :
    w_createUserProcessEnvironment W tr userId defaults = Throw e -> CreateFailure W e
| SpawnArgsFailed cmd args asUser env cause :
    w_buildSpawnArgs W cmd args asUser env = Throw cause ->
    CreateFailure W (newError ("Failed to create terminal session: " +:+ messageOf cause))
| SpawnFailed tr cmd args opts cause :
    w_ptySpawn W tr cmd args opts = Throw cause ->
    CreateFailure W (newError ("Failed to create terminal session: " +:+ messageOf cause))
| TabConfigurationFailed tr zellijSession action asUser cause :
    w_execAsync W tr (fullCommandOf (actionCommand zellijSession action) asUser)
      ZELLIJ_COMMAND_TIMEOUT_MS = Throw cause ->
    (Js.startsWith "rename-tab " action || Js.startsWith "new-tab " action
     || Js.startsWith "go-to-tab-name " action = true) ->
    CreateFailure W (newError ("Zellij tab configuration failed: " +:+ messageOf cause)).

(** Characters that the shell takes as they are outside quotes, and words
    made of them. *)
Definition isPlainChar (c : ascii) : bool :=
  negb (Ascii.eqb c Js.SQ || Ascii.eqb c Js.DQ || Ascii.eqb c Js.BS
        || Sh.isBlank c || Sh.isActive c).

Fixpoint allPlain (s : string) : bool :=
  match s with
  | EmptyString => true
  | String c rest => isPlainChar c && allPlain rest
  end.

Definition isPlainWord (s : string) : bool :=
  negb (String.eqb s EmptyString) && allPlain s.

(** Texts that the shell takes as they are between double quotes. *)
Fixpoint literalInDouble (s : string) : bool :=
  match s with
  | EmptyString => true
  | String c rest =>
      negb (Ascii.eqb c Js.DQ || Ascii.eqb c Js.BS || Ascii.eqb c Js.DOLLAR
            || Ascii.eqb c Js.BACKTICK)
      && literalInDouble rest
  end.

(** The path of the env file of a user (line 484). *)
Definition envFilePathOf (W : World) (userId : option string) : string :=
  w_pathJoin W (w_tmpdir W)
    ("agor-env-" +:+ Js.take 8 (Js.orElse userId EmptyString) +:+ ".sh").

(** The files written so far: path and mode. *)
Definition writesOf (tr : list Event) : list (string * Z) :=
  flat_map (fun ev => match ev with EvWriteFile p _ mode => [(p, mode)] | _ => [] end) tr.

(** The table of terminals is well keyed: no id occurs twice, and every
    session is stored under its own id. *)
Definition wellKeyed (m : list (string * TerminalSession)) : Prop :=
  List.NoDup (map fst m) /\ Forall (fun kv => ts_terminalId (snd kv) = fst kv) m.

(** A computation that, whatever its outcome, keeps an invariant of the
    state. *)
Definition keeps {A} (I : State -> Prop) (m : M A) : Prop :=
  forall st o st', I st -> m st = (o, st') -> I st'.

Definition tableOk (st : State) : Prop := wellKeyed (sessions st).

(* ===================================================================== *)
(** * The command [agor config set] *)
(* ===================================================================== *)

Module ConfigSet.

(** The colours of [chalk]: each wraps a text in its escape sequences. *)
Record Chalk := mkChalk {
  green : string -> string;
  cyan : string -> string;
  yellow : string -> string
}.

(** What the command leaves on the terminal: a line of [this.log], or the
    message of [this.error], which ends the command. *)
Inductive Output :=
| Logged (line : string)
| Failed (message : string).

(** The value as it is shown (lines 41-42): the values of keys that name an
    API key or a token are cut after ten characters. *)
Definition displayValue (key value : string) : string :=
  if Js.includes "API_KEY" key || Js.includes "TOKEN" key
  then Js.take 10 value +:+ "..."
  else value.

(** The check mark of the message, in UTF-8. *)
Definition tick : string := "✓".

(** [run] (lines 32-48), after the arguments are parsed. [setConfigValue]
    belongs to the core package. *)
Definition run (chalk : Chalk)
  (setConfigValue : string -> string -> Outcome unit) (key value : string) : Output :=
  match setConfigValue key value with
  | Ok _ =>
      Logged (green chalk tick +:+ " Set " +:+ cyan chalk key +:+ " = "
              +:+ yellow chalk (displayValue key value))
  | Throw error => Failed ("Failed to set config: " +:+ messageOf error)
  end.

End ConfigSet.

(** The events of tearing down the sessions of a list in turn, read off the
    batchers as they are before the first teardown: for each session, what
    its batcher holds is handed to the transport in one emission (nothing
    when the buffer is empty, or when a session earlier in the list shares
    the batcher and has emptied it), then SIGTERM is sent to its PTY. *)
Fixpoint teardownEvents (bs : gmap nat TerminalDataBatcher) (flushed : list nat)
  (l : list TerminalSession) : list Event :=
  match l with
  | [] => []
  | session :: rest =>
      (if existsb (Nat.eqb (ts_batcher session)) flushed then []
       else match bs !! ts_batcher session with
            | Some b => flushEvents b
            | None => []
            end)
      ++ EvPtyKill (ts_pty session) "SIGTERM"
      :: teardownEvents bs (ts_batcher session :: flushed) rest
  end.

(* ===================================================================== *)
(** * [create] while its PTY is alive *)
(* ===================================================================== *)

(** [create] is asynchronous: once it has registered the terminal and the
    [onData] and [onExit] callbacks of the PTY (lines 774-815), every [await]
    that follows (lines 857-908) lets these callbacks run before [create]
    goes on. [create] above is the run in which the PTY keeps still after its
    first output; the definitions below let the PTY act at every [await].
    Requests are served one at a time, as everywhere in this development. *)

(** What the PTY of the new terminal does while [create] is suspended: it
    delivers output ([onData]), the batch timer that a push has set fires,
    or the process exits ([onExit]). *)
Inductive PtySignal :=
| SigData (chunk : string)
| SigTimer
| SigExit (exitCode : Z).

(** The exit codes emitted for a terminal so far. *)
Definition exitsOf (terminalId : string) (tr : list Event) : list Z :=
  flat_map (fun ev => match ev with
                      | EvEmitExit t exitCode =>
                          if String.eqb t terminalId then [exitCode] else []
                      | _ => []
                      end) tr.

Section Interleaved.

Variable W : World.

(** The signals that arrive during a suspension, given the events so far. *)
Variable arriving : list Event -> list PtySignal.

(** The callback that a signal runs. *)
Definition deliver (terminalId : string) (batcher : nat) (signal : PtySignal) : M unit :=
  match signal with
  | SigData chunk => ptyOnData W batcher chunk
  | SigTimer =>
      let! b := deref batcher in
      if timer b then Batcher_timerFires W batcher else ret tt
  | SigExit exitCode => ptyOnExit W terminalId batcher exitCode
  end.

Fixpoint deliverAll (terminalId : string) (batcher : nat) (signals : list PtySignal)
  : M unit :=
  match signals with
  | [] => ret tt
  | signal :: rest =>
      do! deliver terminalId batcher signal in deliverAll terminalId batcher rest
  end.

(** [create] is suspended at an [await]: the callbacks of the signals that
    arrive run, in order. *)
Definition suspended (terminalId : string) (batcher : nat) : M unit :=
  let! signals := gets (fun st => arriving (trace st)) in
  deliverAll terminalId batcher signals.

(** [await runAsUserAsync(...)]: the child process is started, [create] is
    suspended until it ends, then its outcome reaches [create]. *)
Definition runAsUserAsync_interleaved (terminalId : string) (batcher : nat)
  (command : string) (asUser : option string) (timeout : Z) : M string :=
  let fullCommand := fullCommandOf command asUser in
  let! before := gets trace in
  do! modify (record (EvExec fullCommand timeout)) in
  do! suspended terminalId batcher in
  bindOutcome (w_execAsync W before fullCommand timeout).

Definition runZellijActionAsync_interleaved (terminalId : string) (batcher : nat)
  (sessionName action : string) (asUser : option string) (throwOnError : bool) : M unit :=
  tryCatch
    (let cmd := actionCommand sessionName action in
     do! runAsUserAsync_interleaved terminalId batcher cmd asUser
           ZELLIJ_COMMAND_TIMEOUT_MS in
     ret tt)
    (fun error =>
       let message := messageOf error in
       let isTimeout := Js.includes "ETIMEDOUT" message in
       do! modify (log (if isTimeout then LogActionTimeout sessionName action
                        else LogActionFailed sessionName action message)) in
       if throwOnError then throw error else ret tt).

Definition executeInitCommands_interleaved (terminalId : string) (batcher : nat)
  (zellijSession : string) (initCommands : list string) (asUser : option string) : M unit :=
  match initCommands with
  | [] => ret tt
  | _ =>
      let initScript := Js.join " && " initCommands in
      do! runZellijActionAsync_interleaved terminalId batcher zellijSession
            ("write-chars " +:+ dquote (escapeDoubleQuoted initScript)) asUser false in
      runZellijActionAsync_interleaved terminalId batcher zellijSession "write 10"
        asUser false
  end.

(** [await new Promise((r) => setTimeout(r, ms))] *)
Definition sleep_interleaved (terminalId : string) (batcher : nat) (ms : Z) : M unit :=
  do! modify (record (EvSleep ms)) in
  suspended terminalId batcher.

(** [await waitForReady()] (lines 824-857): as [waitForReady], with the
    signals that arrive after the first output and before the wait ends. *)
Definition waitForReady_interleaved (terminalId : string) (batcher : nat) : M unit :=
  let! b := deref batcher in
  do! store batcher (mkBatcher (buffer b) (timer b) (ReadyProbe terminalId)) in
  let! chunks := gets (fun st => w_ptyOutputBeforeReady W (trace st)) in
  do! Batcher_pushAll W batcher chunks in
  do! suspended terminalId batcher in
  let! b1 := deref batcher in
  do! (if timer b1 then Batcher_timerFires W batcher else ret tt) in
  let! b2 := deref batcher in
  match onFlush b2 with
  | ReadyProbe _ => modify (log (LogReadyTimeout terminalId))
  | EmitData _ => ret tt
  end.

(** [create] up to and including the registration of the terminal (lines
    569-815): [create_setup] without the wait for the PTY. Nothing that
    [create] has registered can run before this point. *)
Definition create_prepare (data : CreateTerminalData) (params : option AuthenticatedParams)
  : M (TabPlan * nat) :=
  let! stamp := gets (fun st => w_now W (trace st)) in
  let! rnd := gets (fun st => w_random W (trace st)) in
  let terminalId := "term-" +:+ Js.showZ stamp +:+ "-" +:+ rnd in
  let authenticatedUserId := authenticatedUserIdOf params in
  let resolvedUserId := resolvedUserIdOf data params in
  let! finalUnixUser := create_resolveIdentity W authenticatedUserId in
  let! cw := create_resolveCwd W data finalUnixUser in
  let cwd := fst cw in
  let worktreeName := snd cw in
  let zellijSession := zellijSessionOf W resolvedUserId in
  let asUser := if Js.truthy finalUnixUser then finalUnixUser else None in
  let tabName := Js.orElse worktreeName "terminal" in
  let! cls := create_classify W zellijSession asUser tabName in
  let! ee := create_environment W resolvedUserId finalUnixUser in
  let! ptyProcess := create_spawn W data zellijSession cwd finalUnixUser (fst ee) in
  let! batcher :=
    create_register W data terminalId ptyProcess cwd resolvedUserId zellijSession
      (fst ee) in
  ret (mkTabPlan terminalId cwd zellijSession asUser tabName worktreeName (snd ee)
         (fst (fst (fst cls))) (snd (fst (fst cls))) (snd (fst cls)) (snd cls),
       batcher).

(** The tab management (lines 859-916), suspended at each [await]. *)
Definition create_configureTab_interleaved (batcher : nat) (plan : TabPlan) : M unit :=
  let terminalId := tp_terminalId plan in
  let zellijSession := tp_zellijSession plan in
  let asUser := tp_asUser plan in
  let cwd := tp_cwd plan in
  let envFile := tp_envFile plan in
  let escapedTabName := escapeDoubleQuoted (tp_tabName plan) in
  let escapedCwd := escapeDoubleQuoted cwd in
  let action := runZellijActionAsync_interleaved terminalId batcher zellijSession in
  tryCatch
    (if negb (tp_sessionExists plan) then
       do! action ("rename-tab " +:+ dquote escapedTabName) asUser true in
       do! invalidate zellijSession asUser in
       let initCommands := buildInitCommands W envFile cwd false in
       executeInitCommands_interleaved terminalId batcher zellijSession initCommands asUser
     else if tp_needsTabCreation plan then
       do! action ("new-tab --name " +:+ dquote escapedTabName
                   +:+ " --cwd " +:+ dquote escapedCwd) asUser true in
       do! action ("go-to-tab-name " +:+ dquote escapedTabName) asUser true in
       do! invalidate zellijSession asUser in
       do! sleep_interleaved terminalId batcher 50 in
       let initCommands := buildInitCommands W envFile cwd true in
       executeInitCommands_interleaved terminalId batcher zellijSession initCommands asUser
     else if tp_needsTabSwitch plan then
       do! action ("go-to-tab-name " +:+ dquote escapedTabName) asUser true in
       do! action "write 3" asUser false in
       do! sleep_interleaved terminalId batcher 20 in
       let initCommands := buildInitCommands W envFile cwd true in
       executeInitCommands_interleaved terminalId batcher zellijSession initCommands asUser
     else ret tt)
    (fun error =>
       do! modify (log (LogTabConfigFailed error)) in
       throw (newError ("Zellij tab configuration failed: " +:+ messageOf error))).

Definition create_interleaved (data : CreateTerminalData)
  (params : option AuthenticatedParams) : M CreateResult :=
  let! prepared := create_prepare data params in
  let plan := fst prepared in
  let batcher := snd prepared in
  do! waitForReady_interleaved (tp_terminalId plan) batcher in
  do! create_configureTab_interleaved batcher plan in
  ret (mkCreateResult (tp_terminalId plan) (tp_cwd plan) (tp_zellijSession plan)
         (tp_zellijReused plan) (tp_worktreeName plan)).

End Interleaved.

(** What the callbacks of the PTY of a terminal can do to the state between
    two points of [create]: the terminal leaves the table exactly when an
    exit has been emitted for it; only its own batcher changes, and stays
    an object; no PTY is sent a signal. *)
Definition ownSteps (terminalId : string) (batcher : nat) (st st' : State) : Prop :=
  (exists exits,
     exitsOf terminalId (trace st') = exitsOf terminalId (trace st) ++ exits
     /\ sessions st' = match exits with
                       | [] => sessions st
                       | _ => map_delete terminalId (sessions st)
                       end)
  /\ (forall r, r <> batcher -> batchers st' !! r = batchers st !! r)
  /\ (is_Some (batchers st !! batcher) -> is_Some (batchers st' !! batcher))
  /\ killsOf (trace st') = killsOf (trace st).

Module Pty.

(** The PTY keeps still. *)
Definition still : list Event -> list PtySignal := fun _ => [].

(** The PTY exits with code 1 at the first suspension of [create]. *)
Definition exitsAtOnce : list Event -> list PtySignal :=
  fun tr =>
    if existsb (fun ev => match ev with EvEmitExit _ _ => true | _ => false end) tr
    then [] else [SigExit 1].

End Pty.

(* ===================================================================== *)
(** * Properties of the escapers *)
(* ===================================================================== *)

Section Escapers.

Lemma append_cons (c : ascii) (s t : string) :
  String c s +:+ t = String c (s +:+ t).
Proof. reflexivity. Qed.

Lemma append_nil_l (t : string) : EmptyString +:+ t = t.
Proof. reflexivity. Qed.

Lemma append_nil_r (s : string) : s +:+ EmptyString = s.
Proof.
  induction s as [|c s IH]; [reflexivity | now rewrite append_cons, IH].
Qed.

Lemma append_assoc (a b c : string) : (a +:+ b) +:+ c = a +:+ (b +:+ c).
Proof.
  induction a as [|x a IH]; [reflexivity | now rewrite !append_cons, IH].
Qed.

Lemma snoc_append (w : string) (c : ascii) (s : string) :
  Sh.snoc w c +:+ s = w +:+ String c s.
Proof. unfold Sh.snoc, Js.chr. now rewrite append_assoc. Qed.

Lemma replaceAll_append (c : ascii) (rep a b : string) :
  Js.replaceAll c rep (a +:+ b) = Js.replaceAll c rep a +:+ Js.replaceAll c rep b.
Proof.
  induction a as [|x a IH]; [reflexivity|].
  rewrite append_cons. cbn [Js.replaceAll].
  destruct (Ascii.eqb x c); rewrite IH; [now rewrite append_assoc | reflexivity].
Qed.

(** The four passes never touch what an earlier pass has inserted: together
    they escape each character once. *)
Lemma escapeDoubleQuoted_cons (c : ascii) (s : string) :
  escapeDoubleQuoted (String c s) = escapeChar c +:+ escapeDoubleQuoted s.
Proof.
  unfold escapeDoubleQuoted, escapeChar.
  cbn [Js.replaceAll].
  destruct (Ascii.eqb c Js.BS) eqn:E1.
  { apply Ascii.eqb_eq in E1; subst c. reflexivity. }
  cbn [Js.replaceAll].
  destruct (Ascii.eqb c Js.DQ) eqn:E2.
  { apply Ascii.eqb_eq in E2; subst c. reflexivity. }
  cbn [Js.replaceAll].
  destruct (Ascii.eqb c Js.DOLLAR) eqn:E3.
  { apply Ascii.eqb_eq in E3; subst c. reflexivity. }
  cbn [Js.replaceAll].
  destruct (Ascii.eqb c Js.BACKTICK) eqn:E4.
  { apply Ascii.eqb_eq in E4; subst c. reflexivity. }
  reflexivity.
Qed.

Lemma escapeDoubleQuoted_each (s : string) : escapeDoubleQuoted s = escapeEach s.
Proof.
  induction s as [|c s IH]; [reflexivity|].
  rewrite escapeDoubleQuoted_cons. cbn [escapeEach]. now rewrite IH.
Qed.

(** Inside single quotes the shell reads the escaped body back. *)
Lemma lex_single_body (s w rest : string) :
  Sh.lex Sh.Single true w (Js.replaceAll Js.SQ "'\''" s +:+ String Js.SQ rest)
  = Sh.lex Sh.Plain true (w +:+ s) rest.
Proof.
  revert w. induction s as [|c s IH]; intros w.
  - rewrite append_nil_r. reflexivity.
  - cbn [Js.replaceAll].
    destruct (Ascii.eqb c Js.SQ) eqn:E.
    + apply Ascii.eqb_eq in E; subst c.
      change (Sh.lex Sh.Single true w
                (("'\''" +:+ Js.replaceAll Js.SQ "'\''" s) +:+ String Js.SQ rest))
        with (Sh.lex Sh.Single true (Sh.snoc w Js.SQ)
                (Js.replaceAll Js.SQ "'\''" s +:+ String Js.SQ rest)).
      rewrite IH. now rewrite snoc_append.
    + rewrite append_cons. cbn [Sh.lex]. rewrite E. rewrite IH. now rewrite snoc_append.
Qed.

Lemma lex_escapeShellArg (s : string) (started : bool) (w rest : string) :
  Sh.lex Sh.Plain started w (escapeShellArg s +:+ rest)
  = Sh.lex Sh.Plain true (w +:+ s) rest.
Proof.
  unfold escapeShellArg.
  change (Sh.lex Sh.Plain started w
            (("'" +:+ Js.replaceAll Js.SQ "'\''" s +:+ "'") +:+ rest))
    with (Sh.lex Sh.Single true w
            ((Js.replaceAll Js.SQ "'\''" s +:+ "'") +:+ rest)).
  rewrite append_assoc. apply lex_single_body.
Qed.

(** Inside double quotes the shell reads the escaped text back. *)
Lemma lex_double_body (s w rest : string) :
  Sh.lex Sh.Double true w (escapeDoubleQuoted s +:+ rest)
  = Sh.lex Sh.Double true (w +:+ s) rest.
Proof.
  revert w. induction s as [|c s IH]; intros w.
  - rewrite append_nil_r. reflexivity.
  - rewrite escapeDoubleQuoted_cons, append_assoc. unfold escapeChar.
    destruct (Ascii.eqb c Js.BS) eqn:E1.
    { apply Ascii.eqb_eq in E1; subst c.
      change (Sh.lex Sh.Double true w
                (String Js.BS (Js.chr Js.BS) +:+ escapeDoubleQuoted s +:+ rest))
        with (Sh.lex Sh.Double true (Sh.snoc w Js.BS) (escapeDoubleQuoted s +:+ rest)).
      rewrite IH. now rewrite snoc_append. }
    destruct (Ascii.eqb c Js.DQ) eqn:E2.
    { apply Ascii.eqb_eq in E2; subst c.
      change (Sh.lex Sh.Double true w
                (String Js.BS (Js.chr Js.DQ) +:+ escapeDoubleQuoted s +:+ rest))
        with (Sh.lex Sh.Double true (Sh.snoc w Js.DQ) (escapeDoubleQuoted s +:+ rest)).
      rewrite IH. now rewrite snoc_append. }
    destruct (Ascii.eqb c Js.DOLLAR) eqn:E3.
    { apply Ascii.eqb_eq in E3; subst c.
      change (Sh.lex Sh.Double true w
                (String Js.BS (Js.chr Js.DOLLAR) +:+ escapeDoubleQuoted s +:+ rest))
        with (Sh.lex Sh.Double true (Sh.snoc w Js.DOLLAR) (escapeDoubleQuoted s +:+ rest)).
      rewrite IH. now rewrite snoc_append. }
    destruct (Ascii.eqb c Js.BACKTICK) eqn:E4.
    { apply Ascii.eqb_eq in E4; subst c.
      change (Sh.lex Sh.Double true w
                (String Js.BS (Js.chr Js.BACKTICK) +:+ escapeDoubleQuoted s +:+ rest))
        with (Sh.lex Sh.Double true (Sh.snoc w Js.BACKTICK) (escapeDoubleQuoted s +:+ rest)).
      rewrite IH. now rewrite snoc_append. }
    unfold Js.chr. rewrite append_cons, append_nil_l. cbn [Sh.lex].
    rewrite E2, E1, E3, E4. cbn [orb].
    rewrite IH. now rewrite snoc_append.
Qed.

Lemma lex_dquote_escaped (s : string) (started : bool) (w rest : string) :
  Sh.lex Sh.Plain started w (dquote (escapeDoubleQuoted s) +:+ rest)
  = Sh.lex Sh.Plain true (w +:+ s) rest.
Proof.
  unfold dquote.
  change (Sh.lex Sh.Plain started w
            ((Js.chr Js.DQ +:+ escapeDoubleQuoted s +:+ Js.chr Js.DQ) +:+ rest))
    with (Sh.lex Sh.Double true w
            ((escapeDoubleQuoted s +:+ Js.chr Js.DQ) +:+ rest)).
  rewrite append_assoc, lex_double_body. reflexivity.
Qed.

(** C1. Round trip of the escapers. For every string [s]:
    [escapeShellArg s] is [s] between single quotes with each single quote
    replaced by quote-backslash-quote-quote, and [escapeDoubleQuoted s]
    escapes each backslash, double quote, dollar sign and backtick of [s]
    exactly once (the backslash pass comes first, so no inserted backslash is
    escaped again); a POSIX shell that reads [escapeShellArg s], or
    [escapeDoubleQuoted s] between double quotes, at any place of a command
    line, adds exactly the characters of [s] to the word it is reading; in
    particular each fragment alone evaluates to the single word [s]. *)
Theorem escapers_round_trip (s : string) :
  escapeShellArg s = "'" +:+ Js.replaceAll Js.SQ "'\''" s +:+ "'"
  /\ escapeDoubleQuoted s = escapeEach s
  /\ (forall started w rest,
        Sh.lex Sh.Plain started w (escapeShellArg s +:+ rest)
        = Sh.lex Sh.Plain true (w +:+ s) rest)
  /\ (forall w rest,
        Sh.lex Sh.Double true w (escapeDoubleQuoted s +:+ rest)
        = Sh.lex Sh.Double true (w +:+ s) rest)
  /\ Sh.fields (escapeShellArg s) = Some [s]
  /\ Sh.fields (dquote (escapeDoubleQuoted s)) = Some [s].
Proof.
  split; [reflexivity|].
  split; [apply escapeDoubleQuoted_each|].
  split; [intros; apply lex_escapeShellArg|].
  split; [intros; apply lex_double_body|].
  split.
  - unfold Sh.fields.
    rewrite <- (append_nil_r (escapeShellArg s)), lex_escapeShellArg. reflexivity.
  - unfold Sh.fields.
    rewrite <- (append_nil_r (dquote (escapeDoubleQuoted s))), lex_dquote_escaped.
    reflexivity.
Qed.

(** The example of the source: [foo'bar] becomes ['foo'\''bar']. *)
Example escapeShellArg_example : escapeShellArg "foo'bar" = "'foo'\''bar'".
Proof. reflexivity. Qed.

Example escapeDoubleQuoted_example :
  escapeDoubleQuoted "a\b$HOME`id`" = "a\\b\$HOME\`id\`".
Proof. reflexivity. Qed.

(** A command that substitutes is rejected by the lexer when it is not
    escaped, and read back literally when it is. *)
Example unescaped_text_is_not_literal :
  Sh.fields (dquote "$(reboot)") = None
  /\ Sh.fields (dquote (escapeDoubleQuoted "$(reboot)")) = Some ["$(reboot)"].
Proof. split; reflexivity. Qed.

End Escapers.

(** Words and quoted texts, as the shell reads them. *)

Lemma lex_plain_chars (u : string) :
  forall (started : bool) (w rest : string),
  allPlain u = true ->
  Sh.lex Sh.Plain started w (u +:+ rest)
  = Sh.lex Sh.Plain (started || negb (String.eqb u EmptyString)) (w +:+ u) rest.
Proof.
  induction u as [|c u IH]; intros started w rest Hu.
  - rewrite append_nil_r, append_nil_l. cbn. now rewrite orb_false_r.
  - cbn [allPlain] in Hu. apply andb_true_iff in Hu. destruct Hu as [Hc Hu].
    unfold isPlainChar in Hc. apply negb_true_iff in Hc.
    repeat (apply orb_false_iff in Hc; destruct Hc as [Hc ?]).
    rewrite append_cons. cbn [Sh.lex].
    repeat match goal with E : _ = false |- _ => rewrite E; clear E end.
    rewrite (IH true _ _ Hu), snoc_append. cbn. now rewrite orb_true_r.
Qed.

Lemma lex_plain_word (u rest : string) :
  isPlainWord u = true ->
  Sh.lex Sh.Plain false EmptyString (u +:+ String Js.SPACE rest)
  = cons u <$> Sh.lex Sh.Plain false EmptyString rest.
Proof.
  intros Hu. unfold isPlainWord in Hu. apply andb_true_iff in Hu. destruct Hu as [Hn Hu].
  rewrite (lex_plain_chars u _ _ _ Hu), Hn, append_nil_l. reflexivity.
Qed.

Lemma lex_literal_double (s : string) :
  forall (w rest : string),
  literalInDouble s = true ->
  Sh.lex Sh.Double true w (s +:+ String Js.DQ rest) = Sh.lex Sh.Plain true (w +:+ s) rest.
Proof.
  induction s as [|c s IH]; intros w rest Hs.
  - rewrite append_nil_r. reflexivity.
  - cbn [literalInDouble] in Hs. apply andb_true_iff in Hs. destruct Hs as [Hc Hs].
    apply negb_true_iff in Hc.
    repeat (apply orb_false_iff in Hc; destruct Hc as [Hc ?]).
    rewrite append_cons. cbn [Sh.lex].
    repeat match goal with E : _ = false |- _ => rewrite E; clear E end.
    cbn [orb]. rewrite (IH _ _ Hs), snoc_append. reflexivity.
Qed.

Lemma lex_last_shellArg (s : string) :
  Sh.lex Sh.Plain false EmptyString (escapeShellArg s) = Some [s].
Proof.
  rewrite <- (append_nil_r (escapeShellArg s)), lex_escapeShellArg. reflexivity.
Qed.

Lemma lex_last_dquote (s : string) :
  Sh.lex Sh.Plain false EmptyString (dquote (escapeDoubleQuoted s)) = Some [s].
Proof.
  rewrite <- (append_nil_r (dquote _)), lex_dquote_escaped. reflexivity.
Qed.

Lemma actionCommand_fields (zs action : string) :
  literalInDouble zs = true ->
  Sh.fields (actionCommand zs action)
  = (fun l => "zellij" :: "--session" :: zs :: "action" :: l)
    <$> Sh.lex Sh.Plain false EmptyString action.
Proof.
  intros Hz. unfold Sh.fields, actionCommand, dquote.
  change (Sh.lex Sh.Plain false EmptyString
            ("zellij --session " +:+ (Js.chr Js.DQ +:+ zs +:+ Js.chr Js.DQ)
             +:+ " action " +:+ action))
    with (cons "zellij" <$> (cons "--session" <$>
            Sh.lex Sh.Double true EmptyString
              ((zs +:+ Js.chr Js.DQ) +:+ " action " +:+ action))).
  rewrite append_assoc. unfold Js.chr at 1. rewrite append_cons, append_nil_l.
  rewrite (lex_literal_double _ _ _ Hz), append_nil_l.
  change (Sh.lex Sh.Plain true zs (" action " +:+ action))
    with (cons zs <$> (cons "action" <$> Sh.lex Sh.Plain false EmptyString action)).
  destruct (Sh.lex Sh.Plain false EmptyString action); reflexivity.
Qed.

Lemma fullCommandOf_impersonating (unixUser command : string) :
  isPlainWord unixUser = true ->
  fullCommandOf command (Some unixUser)
  = "sudo -n su - " +:+ unixUser +:+ " -c " +:+ escapeShellArg command.
Proof.
  intros Hu. unfold isPlainWord in Hu. apply andb_true_iff in Hu. destruct Hu as [Hn _].
  unfold fullCommandOf, Js.truthy, Js.orElse. rewrite Hn.
  apply negb_true_iff in Hn. now rewrite Hn.
Qed.

Lemma lex_sudo_line (unixUser command : string) :
  isPlainWord unixUser = true ->
  Sh.fields ("sudo -n su - " +:+ unixUser +:+ " -c " +:+ escapeShellArg command)
  = Some ["sudo"; "-n"; "su"; "-"; unixUser; "-c"; command].
Proof.
  intros Hu. unfold Sh.fields.
  change (Sh.lex Sh.Plain false EmptyString
            ("sudo -n su - " +:+ unixUser +:+ " -c " +:+ escapeShellArg command))
    with (cons "sudo" <$> (cons "-n" <$> (cons "su" <$> (cons "-" <$>
            Sh.lex Sh.Plain false EmptyString
              (unixUser +:+ String Js.SPACE ("-c " +:+ escapeShellArg command)))))).
  rewrite (lex_plain_word _ _ Hu).
  change (Sh.lex Sh.Plain false EmptyString ("-c " +:+ escapeShellArg command))
    with (cons "-c" <$> Sh.lex Sh.Plain false EmptyString (escapeShellArg command)).
  rewrite lex_last_shellArg. reflexivity.
Qed.

Lemma lex_cd (dir : string) :
  Sh.fields ("cd " +:+ escapeShellArg dir) = Some ["cd"; dir].
Proof.
  unfold Sh.fields.
  change (Sh.lex Sh.Plain false EmptyString ("cd " +:+ escapeShellArg dir))
    with (cons "cd" <$> Sh.lex Sh.Plain false EmptyString (escapeShellArg dir)).
  now rewrite lex_last_shellArg.
Qed.

(* ===================================================================== *)
(** * Reasoning about the monad *)
(* ===================================================================== *)

Lemma bind_ok_inv {A B} (m : M A) (f : A -> M B) (st : State) (b : B) (st' : State) :
  bind m f st = (Ok b, st') ->
  exists a st1, m st = (Ok a, st1) /\ f a st1 = (Ok b, st').
Proof.
  unfold bind. destruct (m st) as [[a|e] st1]; intros H; [eauto | discriminate].
Qed.

Lemma bind_throw_inv {A B} (m : M A) (f : A -> M B) (st : State) (e : Thrown)
  (st' : State) :
  bind m f st = (Throw e, st') ->
  m st = (Throw e, st') \/ exists a st1, m st = (Ok a, st1) /\ f a st1 = (Throw e, st').
Proof.
  unfold bind. destruct (m st) as [[a|e0] st1]; intros H; [right; eauto | left].
  now inversion H.
Qed.

Lemma bind_ok {A B} (m : M A) (f : A -> M B) (st st1 : State) (a : A) :
  m st = (Ok a, st1) -> bind m f st = f a st1.
Proof. unfold bind. intros H; now rewrite H. Qed.

Lemma bind_throw {A B} (m : M A) (f : A -> M B) (st st1 : State) (e : Thrown) :
  m st = (Throw e, st1) -> bind m f st = (Throw e, st1).
Proof. unfold bind. intros H; now rewrite H. Qed.

Lemma length_zero_empty (s : string) : Js.length s = 0 -> s = EmptyString.
Proof. destruct s; [reflexivity | unfold Js.length; simpl; lia]. Qed.

Lemma length_nonneg (s : string) : 0 <= Js.length s.
Proof. unfold Js.length. lia. Qed.


Lemma sameTables_refl st : sameTables st st.
Proof. repeat split. Qed.

Lemma sameTables_trans st1 st2 st3 :
  sameTables st1 st2 -> sameTables st2 st3 -> sameTables st1 st3.
Proof. unfold sameTables. intuition congruence. Qed.

(* ===================================================================== *)
(** * The output batcher *)
(* ===================================================================== *)


Section Batcher.

Variable W : World.

Lemma emitData_spec (terminalId data : string) (st : State) :
  exists st', emitData W terminalId data st = (Ok tt, st')
    /\ trace st' = trace st ++ [EvEmitData terminalId data]
    /\ batchers st' = batchers st
    /\ sameTables st st'.
Proof.
  unfold emitData, tryCatch, perform.
  destruct (w_emitData W (trace st) terminalId data) as [[]|e].
  - eexists; split; [reflexivity|]. repeat split.
  - eexists; split; [reflexivity|]. repeat split.
Qed.

(** What [flush] leaves in the batcher and sends to the transport. *)
Lemma flush_spec (r : nat) (st : State) (b : TerminalDataBatcher) :
  batchers st !! r = Some b ->
  exists st' h, Batcher_flush W r st = (Ok tt, st')
    /\ batchers st' !! r = Some (mkBatcher EmptyString false h)
    /\ handlerId h = handlerId (onFlush b)
    /\ (buffer b = EmptyString -> h = onFlush b)
    /\ (forall r', r' <> r -> batchers st' !! r' = batchers st !! r')
    /\ trace st' = trace st ++
         (if 0 <? Js.length (buffer b)
          then [EvEmitData (handlerId (onFlush b)) (buffer b)] else [])
    /\ sameTables st st'.
Proof.
  intros Hb. unfold Batcher_flush.
  unfold bind at 1. unfold deref at 1. rewrite Hb.
  unfold bind at 1. unfold store at 1, modify at 1.
  destruct (0 <? Js.length (buffer b)) eqn:Hlen.
  - unfold bind at 1, store at 1, modify at 1.
    unfold callOnFlush, bind at 1, deref at 1. cbn [batchers set_batchers].
    rewrite lookup_insert_eq. cbn [onFlush buffer timer].
    destruct (onFlush b) as [tid|tid] eqn:Hh.
    + destruct (emitData_spec tid (buffer b)
                  (set_batchers (insert r (mkBatcher EmptyString false (EmitData tid)))
                     (set_batchers (insert r (mkBatcher (buffer b) false (EmitData tid))) st)))
        as (st' & He & Ht & Hbs & Hs).
      exists st', (EmitData tid). rewrite He. split; [reflexivity|].
      rewrite Hbs, Ht. cbn [batchers set_batchers trace handlerId].
      split; [apply lookup_insert_eq|]. split; [reflexivity|].
      split; [intros E; rewrite E in Hlen; discriminate|].
      split; [intros r' Hr; now rewrite !lookup_insert_ne by congruence|].
      split; [reflexivity|].
      destruct Hs as (H1 & H2 & H3). repeat split; assumption.
    + unfold bind at 1, store at 1, modify at 1.
      destruct (emitData_spec tid (buffer b)
                  (set_batchers (insert r (mkBatcher EmptyString false (EmitData tid)))
                  (set_batchers (insert r (mkBatcher EmptyString false (ReadyProbe tid)))
                     (set_batchers (insert r (mkBatcher (buffer b) false (ReadyProbe tid))) st))))
        as (st' & He & Ht & Hbs & Hs).
      exists st', (EmitData tid). rewrite He. split; [reflexivity|].
      rewrite Hbs, Ht. cbn [batchers set_batchers trace handlerId].
      split; [apply lookup_insert_eq|]. split; [reflexivity|].
      split; [intros E; rewrite E in Hlen; discriminate|].
      split; [intros r' Hr; now rewrite !lookup_insert_ne by congruence|].
      split; [reflexivity|].
      destruct Hs as (H1 & H2 & H3). repeat split; assumption.
  - assert (Hempty : buffer b = EmptyString).
    { apply length_zero_empty. pose proof (length_nonneg (buffer b)).
      apply Z.ltb_ge in Hlen. lia. }
    eexists _, (onFlush b). split; [reflexivity|].
    cbn [batchers set_batchers trace]. rewrite Hempty.
    split; [apply lookup_insert_eq|]. split; [reflexivity|].
    split; [reflexivity|].
    split; [intros r' Hr; now rewrite lookup_insert_ne by congruence|].
    split; [now rewrite app_nil_r|]. repeat split.
Qed.

Lemma destroy_spec (r : nat) (st : State) (b : TerminalDataBatcher) :
  batchers st !! r = Some b ->
  exists st', Batcher_destroy r st = (Ok tt, st')
    /\ batchers st' !! r = Some (mkBatcher EmptyString false (onFlush b))
    /\ (forall r', r' <> r -> batchers st' !! r' = batchers st !! r')
    /\ trace st' = trace st
    /\ sameTables st st'.
Proof.
  intros Hb. unfold Batcher_destroy, bind, deref. rewrite Hb.
  eexists. split; [reflexivity|]. cbn [batchers set_batchers trace].
  split; [apply lookup_insert_eq|].
  split; [intros r' Hr; now rewrite lookup_insert_ne by congruence|].
  repeat split.
Qed.

(** [flush] on a batcher that is idle (empty buffer, no timer) changes
    nothing at all. *)
Lemma flush_idle (r : nat) (st : State) (b : TerminalDataBatcher) :
  batchers st !! r = Some b -> buffer b = EmptyString -> timer b = false ->
  Batcher_flush W r st = (Ok tt, st).
Proof.
  intros Hb He Ht. unfold Batcher_flush, bind, deref. rewrite Hb.
  unfold store, modify. rewrite He. cbn.
  f_equal. destruct st as [ss tc ec bs tr co]. unfold set_batchers. cbn in *.
  f_equal. apply insert_id. rewrite Hb. destruct b; cbn in *; congruence.
Qed.

(** What [push] leaves in the batcher and sends to the transport. *)
Lemma push_spec (r : nat) (data : string) (st : State) (b : TerminalDataBatcher) :
  batchers st !! r = Some b ->
  exists st' b', Batcher_push W r data st = (Ok tt, st')
    /\ batchers st' !! r = Some b'
    /\ handlerId (onFlush b') = handlerId (onFlush b)
    /\ (forall r', r' <> r -> batchers st' !! r' = batchers st !! r')
    /\ (if MAX_BUFFER_SIZE <=? Js.length (buffer b +:+ data)
        then buffer b' = EmptyString /\ timer b' = false
             /\ trace st' = trace st
                  ++ [EvEmitData (handlerId (onFlush b)) (buffer b +:+ data)]
        else buffer b' = buffer b +:+ data /\ timer b' = true
             /\ onFlush b' = onFlush b /\ trace st' = trace st)
    /\ sameTables st st'.
Proof.
  intros Hb. unfold Batcher_push.
  unfold bind at 1, deref at 1. rewrite Hb.
  unfold bind at 1, store at 1, modify at 1.
  destruct (MAX_BUFFER_SIZE <=? Js.length (buffer b +:+ data)) eqn:Hmax.
  - destruct (flush_spec r
                (set_batchers (insert r (mkBatcher (buffer b +:+ data) (timer b) (onFlush b))) st)
                (mkBatcher (buffer b +:+ data) (timer b) (onFlush b)))
      as (st' & h & Hf & Hl & Hid & _ & Hoth & Htr & Hs).
    { cbn [batchers set_batchers]. apply lookup_insert_eq. }
    exists st', (mkBatcher EmptyString false h). rewrite Hf.
    split; [reflexivity|]. split; [exact Hl|]. split; [exact Hid|].
    split.
    { intros r' Hr. rewrite (Hoth r' Hr). cbn [batchers set_batchers].
      now rewrite lookup_insert_ne by congruence. }
    split.
    { cbn [buffer timer]. split; [reflexivity|]. split; [reflexivity|].
      rewrite Htr. cbn [buffer onFlush trace set_batchers].
      assert ((0 <? Js.length (buffer b +:+ data)) = true) as ->.
      { apply Z.ltb_lt. apply Z.leb_le in Hmax. unfold MAX_BUFFER_SIZE in Hmax. lia. }
      reflexivity. }
    destruct Hs as (H1 & H2 & H3). repeat split; assumption.
  - destruct (timer b) eqn:Ht.
    + eexists _, (mkBatcher (buffer b +:+ data) true (onFlush b)).
      split; [reflexivity|]. cbn [batchers set_batchers trace buffer timer onFlush].
      split; [apply lookup_insert_eq|]. split; [reflexivity|].
      split; [intros r' Hr; now rewrite lookup_insert_ne by congruence|].
      repeat split.
    + eexists _, (mkBatcher (buffer b +:+ data) true (onFlush b)).
      split; [reflexivity|]. cbn [batchers set_batchers trace buffer timer onFlush].
      split; [apply lookup_insert_eq|]. split; [reflexivity|].
      split; [intros r' Hr; now rewrite !lookup_insert_ne by congruence|].
      repeat split.
Qed.

End Batcher.

Section BatcherClaims.

Variable W : World.

Lemma pushAll_spec (r : nat) (chunks : list string) :
  forall (st : State) (b : TerminalDataBatcher),
  batchers st !! r = Some b ->
  exists st' b', Batcher_pushAll W r chunks st = (Ok tt, st')
    /\ batchers st' !! r = Some b'
    /\ handlerId (onFlush b') = handlerId (onFlush b)
    /\ (forall r', r' <> r -> batchers st' !! r' = batchers st !! r')
    /\ (chunks <> [] -> Js.length (buffer b') < MAX_BUFFER_SIZE)
    /\ sameTables st st'.
Proof.
  induction chunks as [|data rest IH]; intros st b Hb.
  - exists st, b. cbn. repeat split; try assumption. congruence.
  - destruct (push_spec W r data st b Hb) as (st1 & b1 & Hp & Hb1 & Hid1 & Ho1 & Hc & Hs1).
    destruct (IH st1 b1 Hb1) as (st' & b' & Hq & Hb' & Hid & Ho & Hlt & Hs).
    exists st', b'. cbn [Batcher_pushAll]. rewrite (bind_ok _ _ _ _ _ Hp), Hq.
    split; [reflexivity|]. split; [exact Hb'|]. split; [congruence|].
    split; [intros r' Hr; rewrite (Ho r' Hr); now apply Ho1|].
    split; [| eapply sameTables_trans; eassumption].
    intros _. destruct rest as [|d2 rest'].
    + cbn in Hq. injection Hq as <-. rewrite Hb1 in Hb'. injection Hb' as <-.
      destruct (MAX_BUFFER_SIZE <=? Js.length (buffer b +:+ data)) eqn:Hmax.
      * destruct Hc as (-> & _). unfold MAX_BUFFER_SIZE, Js.length. cbn. lia.
      * destruct Hc as (-> & _). apply Z.leb_gt in Hmax. exact Hmax.
    + apply Hlt. discriminate.
Qed.

(** C6. The byte ceiling of the output batcher. A [push] on a batcher always
    returns normally and leaves a buffer strictly shorter than
    [MAX_BUFFER_SIZE]: when the buffer with the new data reaches or crosses
    the ceiling, [push] flushes at once, whether or not a timer is pending
    (the whole buffer is emitted as one unit, the buffer is emptied and the
    timer cleared); otherwise the data is appended, nothing is emitted and a
    timer is pending. The same bound holds after every non-empty sequence of
    pushes. *)
Theorem push_keeps_buffer_below_ceiling (r : nat) (st : State)
  (b : TerminalDataBatcher) (data : string) (chunks : list string) :
  batchers st !! r = Some b ->
  (exists st' b', Batcher_push W r data st = (Ok tt, st')
     /\ batchers st' !! r = Some b'
     /\ Js.length (buffer b') < MAX_BUFFER_SIZE
     /\ (if MAX_BUFFER_SIZE <=? Js.length (buffer b +:+ data)
         then buffer b' = EmptyString /\ timer b' = false
              /\ trace st' = trace st
                   ++ [EvEmitData (handlerId (onFlush b)) (buffer b +:+ data)]
         else buffer b' = buffer b +:+ data /\ timer b' = true
              /\ trace st' = trace st))
  /\ (exists st' b', Batcher_pushAll W r (data :: chunks) st = (Ok tt, st')
        /\ batchers st' !! r = Some b'
        /\ Js.length (buffer b') < MAX_BUFFER_SIZE).
Proof.
  intros Hb. split.
  - destruct (push_spec W r data st b Hb) as (st' & b' & Hp & Hb' & _ & _ & Hc & _).
    exists st', b'. split; [exact Hp|]. split; [exact Hb'|].
    destruct (MAX_BUFFER_SIZE <=? Js.length (buffer b +:+ data)) eqn:Hmax.
    + destruct Hc as (He & Ht & Htr). split; [|now repeat split].
      rewrite He. unfold MAX_BUFFER_SIZE, Js.length. cbn. lia.
    + destruct Hc as (He & Ht & _ & Htr). split; [|now repeat split].
      rewrite He. now apply Z.leb_gt in Hmax.
  - destruct (pushAll_spec r (data :: chunks) st b Hb)
      as (st' & b' & Hp & Hb' & _ & _ & Hlt & _).
    exists st', b'. split; [exact Hp|]. split; [exact Hb'|]. apply Hlt. discriminate.
Qed.

(** C9. Flushing an empty buffer. On a batcher whose buffer is empty,
    [flush] returns normally and emits nothing; and [flush] is idempotent: a
    second [flush] right after a first one returns normally and changes
    nothing, so two flushes in a row emit exactly what one flush emits. *)
Theorem flush_empty_is_noop_and_idempotent (r : nat) (st : State)
  (b : TerminalDataBatcher) :
  batchers st !! r = Some b ->
  (buffer b = EmptyString ->
   exists st', Batcher_flush W r st = (Ok tt, st') /\ trace st' = trace st
     /\ sameTables st st')
  /\ (exists st', Batcher_flush W r st = (Ok tt, st')
        /\ Batcher_flush W r st' = (Ok tt, st')).
Proof.
  intros Hb.
  destruct (flush_spec W r st b Hb) as (st' & h & Hf & Hb' & _ & _ & _ & Htr & Hs).
  split.
  - intros He. exists st'. split; [exact Hf|]. split; [|exact Hs].
    rewrite Htr, He. cbn. now rewrite app_nil_r.
  - exists st'. split; [exact Hf|].
    now apply (flush_idle W r st' _ Hb').
Qed.

End BatcherClaims.

(** Just under the ceiling, at it, and over it: the lengths emitted, and the
    length left in the buffer with the state of the timer. *)
Example push_just_under_the_ceiling :
  let st' := snd (Batcher_push Demo.quiet 1 (Demo.chunk 1048575) Demo.twoTerminals) in
  Demo.emittedLengths (trace st') = []
  /\ Demo.buffered st' 1 = Some (1048575, true).
Proof. vm_compute. split; reflexivity. Qed.

Example push_at_the_ceiling :
  let st' := snd (Batcher_push Demo.quiet 1 (Demo.chunk 1048576) Demo.twoTerminals) in
  Demo.emittedLengths (trace st') = [("term-2", 1048576)]
  /\ Demo.buffered st' 1 = Some (0, false).
Proof. vm_compute. split; reflexivity. Qed.

Example push_over_the_ceiling :
  let st' := snd (Batcher_push Demo.quiet 0 (Demo.chunk 1048576) Demo.twoTerminals) in
  Demo.emittedLengths (trace st') = [("term-1", 1048578)]
  /\ Demo.buffered st' 0 = Some (0, false).
Proof. vm_compute. split; reflexivity. Qed.

Lemma push_keeps_buffer_below_ceiling_witness :
  exists st' b', Batcher_push Demo.quiet 0 "total 0" Demo.twoTerminals = (Ok tt, st')
    /\ batchers st' !! 0%nat = Some b'
    /\ Js.length (buffer b') < MAX_BUFFER_SIZE.
Proof.
  destruct (push_keeps_buffer_below_ceiling Demo.quiet 0 Demo.twoTerminals
              (mkBatcher "ls" true (EmitData "term-1")) "total 0" []
              ltac:(vm_compute; reflexivity))
    as ((st' & b' & H1 & H2 & H3 & _) & _).
  exists st', b'. auto.
Defined.

Lemma flush_empty_is_noop_and_idempotent_witness :
  (exists st', Batcher_flush Demo.quiet 1 Demo.twoTerminals = (Ok tt, st')
     /\ trace st' = trace Demo.twoTerminals)
  /\ (exists st', Batcher_flush Demo.quiet 0 Demo.twoTerminals = (Ok tt, st')
        /\ Batcher_flush Demo.quiet 0 st' = (Ok tt, st')).
Proof.
  split.
  - destruct (flush_empty_is_noop_and_idempotent Demo.quiet 1 Demo.twoTerminals
                (mkBatcher EmptyString false (EmitData "term-2"))
                ltac:(vm_compute; reflexivity)) as (H & _).
    destruct (H eq_refl) as (st' & H1 & H2 & _). exists st'. auto.
  - destruct (flush_empty_is_noop_and_idempotent Demo.quiet 0 Demo.twoTerminals
                (mkBatcher "ls" true (EmitData "term-1"))
                ltac:(vm_compute; reflexivity)) as (_ & H).
    exact H.
Defined.

(* ===================================================================== *)
(** * [get] *)
(* ===================================================================== *)

(** C10. [get] never reports a dead terminal. For an id that is in the
    table, [get] returns the id and the working directory of the session
    with [alive = true], whatever has become of the PTY (the state is left
    as it is, nothing is asked of the PTY); and for every id, [get] either
    returns [alive = true] or throws the not-found error. *)
Theorem get_alive_is_constant (id : string) (st : State) :
  (forall session, map_get id (sessions st) = Some session ->
     get id st = (Ok (mkGetResult (ts_terminalId session) (ts_cwd session) true), st))
  /\ ((exists result, get id st = (Ok result, st) /\ g_alive result = true)
      \/ get id st = (Throw (notFound id), st)).
Proof.
  unfold get, bind, gets. split.
  - intros session H. now rewrite H.
  - destruct (map_get id (sessions st)) as [session|]; [left | right; reflexivity].
    eexists. split; reflexivity.
Qed.

Lemma get_alive_is_constant_witness :
  get "term-2" Demo.twoTerminals
  = (Ok (mkGetResult "term-2" "/home/agor" true), Demo.twoTerminals).
Proof.
  exact (proj1 (get_alive_is_constant "term-2" Demo.twoTerminals)
           (Demo.session "term-2" 2 1) eq_refl).
Defined.

(* ===================================================================== *)
(** * The Zellij session cache *)
(* ===================================================================== *)

Section Cache.

Variable W : World.

Lemma zellijSessionExistsAsync_total (sessionName : string) (asUser : option string)
  (st : State) :
  exists v st', zellijSessionExistsAsync W sessionName asUser st = (Ok v, st')
    /\ trace st' = trace st
         ++ [EvExec (fullCommandOf listSessionsCommand asUser) ZELLIJ_COMMAND_TIMEOUT_MS]
    /\ (forall e,
          w_execAsync W (trace st) (fullCommandOf listSessionsCommand asUser)
            ZELLIJ_COMMAND_TIMEOUT_MS = Throw e -> v = false).
Proof.
  unfold zellijSessionExistsAsync, tryCatch, bind, runAsUserAsync, perform.
  destruct (w_execAsync W (trace st) (fullCommandOf listSessionsCommand asUser)
              ZELLIJ_COMMAND_TIMEOUT_MS) as [output|e].
  - eexists _, _. split; [reflexivity|]. split; [reflexivity|]. discriminate.
  - destruct e as [cls m|t].
    + destruct (Js.includes "ETIMEDOUT" m); eexists _, _;
        (split; [reflexivity|]; split; [reflexivity|]; reflexivity).
    + eexists _, _. split; [reflexivity|]. split; [reflexivity|]. reflexivity.
Qed.

Lemma fetchTabs_total (sessionName : string) (asUser : option string) (st : State) :
  exists v st', fetchTabs W sessionName asUser st = (Ok v, st')
    /\ trace st' = trace st
         ++ [EvExec (fullCommandOf (tabNamesCommand sessionName) asUser)
               ZELLIJ_COMMAND_TIMEOUT_MS]
    /\ (forall e,
          w_execAsync W (trace st) (fullCommandOf (tabNamesCommand sessionName) asUser)
            ZELLIJ_COMMAND_TIMEOUT_MS = Throw e -> v = []).
Proof.
  unfold fetchTabs, tryCatch, bind, runAsUserAsync, perform.
  destruct (w_execAsync W (trace st) (fullCommandOf (tabNamesCommand sessionName) asUser)
              ZELLIJ_COMMAND_TIMEOUT_MS) as [output|e].
  - eexists _, _. split; [reflexivity|]. split; [reflexivity|]. discriminate.
  - destruct (Js.includes "ETIMEDOUT" (messageOf e)); eexists _, _;
      (split; [reflexivity|]; split; [reflexivity|]; reflexivity).
Qed.

(** C4. The read path of the cache degrades. [sessionExists] and [getTabs]
    never throw. When they have to query Zellij (no cached answer younger
    than the TTL) and the query fails, by timeout or otherwise, with whatever
    thrown value, [sessionExists] returns [false] and [getTabs] returns the
    empty list; the query was given the bounded timeout
    [ZELLIJ_COMMAND_TIMEOUT_MS]. *)
Theorem cache_reads_degrade (sessionName : string) (asUser : option string)
  (st : State) (e : Thrown) :
  let key := getCacheKey sessionName asUser in
  let now := w_now W (trace st) in
  (w_execAsync W (trace st) (fullCommandOf listSessionsCommand asUser)
     ZELLIJ_COMMAND_TIMEOUT_MS = Throw e ->
   freshEntry (existsCache st !! key) now = None ->
   exists st', sessionExists W sessionName asUser st = (Ok false, st')
     /\ trace st' = trace st
          ++ [EvExec (fullCommandOf listSessionsCommand asUser) ZELLIJ_COMMAND_TIMEOUT_MS])
  /\ (w_execAsync W (trace st) (fullCommandOf (tabNamesCommand sessionName) asUser)
        ZELLIJ_COMMAND_TIMEOUT_MS = Throw e ->
      freshEntry (tabsCache st !! key) now = None ->
      exists st', getTabs W sessionName asUser st = (Ok [], st')
        /\ trace st' = trace st
             ++ [EvExec (fullCommandOf (tabNamesCommand sessionName) asUser)
                   ZELLIJ_COMMAND_TIMEOUT_MS])
  /\ (exists v st', sessionExists W sessionName asUser st = (Ok v, st'))
  /\ (exists v st', getTabs W sessionName asUser st = (Ok v, st')).
Proof.
  intros key now.
  destruct (zellijSessionExistsAsync_total sessionName asUser st)
    as (v1 & s1 & H1 & T1 & F1).
  destruct (fetchTabs_total sessionName asUser st) as (v2 & s2 & H2 & T2 & F2).
  repeat split.
  - intros He Hmiss. unfold sessionExists, bind, gets.
    fold key. fold now. rewrite Hmiss, H1. rewrite (F1 e He).
    eexists. split; [reflexivity|]. exact T1.
  - intros He Hmiss. unfold getTabs, bind, gets.
    fold key. fold now. rewrite Hmiss, H2. rewrite (F2 e He).
    eexists. split; [reflexivity|]. exact T2.
  - unfold sessionExists, bind, gets. fold key. fold now.
    destruct (freshEntry (existsCache st !! key) now) as [ex|].
    + eexists _, _. reflexivity.
    + rewrite H1. eexists _, _. reflexivity.
  - unfold getTabs, bind, gets. fold key. fold now.
    destruct (freshEntry (tabsCache st !! key) now) as [ex|].
    + eexists _, _. reflexivity.
    + rewrite H2. eexists _, _. reflexivity.
Qed.

End Cache.

Lemma cache_reads_degrade_witness :
  (exists st', sessionExists Demo.stuck "agor-shared" None Demo.empty = (Ok false, st'))
  /\ (exists st', getTabs Demo.stuck "agor-shared" None Demo.empty = (Ok [], st')).
Proof.
  destruct (cache_reads_degrade Demo.stuck "agor-shared" None Demo.empty
              (newError "Command failed: spawnSync /bin/sh ETIMEDOUT"))
    as (H1 & H2 & _).
  split.
  - destruct (H1 eq_refl ltac:(vm_compute; reflexivity)) as (st' & H & _). eauto.
  - destruct (H2 eq_refl ltac:(vm_compute; reflexivity)) as (st' & H & _). eauto.
Defined.

(* ===================================================================== *)
(** * [cleanup] *)
(* ===================================================================== *)


Lemma killsOf_app (a b : list Event) : killsOf (a ++ b) = killsOf a ++ killsOf b.
Proof. unfold killsOf. apply flat_map_app. Qed.

Section Cleanup.

Variable W : World.

Hypothesis kill_returns : forall tr pty sig, w_ptyKill W tr pty sig = Ok tt.

Lemma teardown_spec (session : TerminalSession) (st : State) :
  is_Some (batchers st !! ts_batcher session) ->
  exists st', teardown W session st = (Ok tt, st')
    /\ released st' (ts_batcher session)
    /\ (forall r, released st r -> released st' r)
    /\ (forall r, is_Some (batchers st !! r) -> is_Some (batchers st' !! r))
    /\ killsOf (trace st') = killsOf (trace st) ++ [(ts_pty session, "SIGTERM")]
    /\ sameTables st st'.
Proof.
  intros [b Hb]. unfold teardown.
  destruct (flush_spec W _ st b Hb) as (s1 & h & Hf & Hb1 & _ & _ & Ho1 & Ht1 & Hs1).
  destruct (destroy_spec _ s1 _ Hb1) as (s2 & Hd & Hb2 & Ho2 & Ht2 & Hs2).
  rewrite (bind_ok _ _ _ _ _ Hf), (bind_ok _ _ _ _ _ Hd).
  unfold ptyKill, perform. rewrite kill_returns.
  eexists. split; [reflexivity|].
  assert (Hframe : forall r, r <> ts_batcher session ->
                     batchers s2 !! r = batchers st !! r).
  { intros r Hr. rewrite (Ho2 r Hr). now apply Ho1. }
  split; [exists h; exact Hb2|].
  split.
  { intros r [h' Hr]. destruct (decide (r = ts_batcher session)) as [->|Hne].
    - exists h. exact Hb2.
    - exists h'. cbn [batchers record]. now rewrite Hframe. }
  split.
  { intros r Hr. destruct (decide (r = ts_batcher session)) as [->|Hne].
    - cbn [batchers record]. rewrite Hb2. eauto.
    - cbn [batchers record]. now rewrite Hframe. }
  split.
  { cbn [trace record]. rewrite killsOf_app, Ht2, Ht1, killsOf_app.
    destruct (0 <? Js.length (buffer b)); cbn; now rewrite app_nil_r. }
  destruct Hs1 as (A1 & A2 & A3), Hs2 as (B1 & B2 & B3).
  repeat split; cbn; congruence.
Qed.

Lemma teardownAll_spec (l : list TerminalSession) :
  forall st : State,
  (forall session, In session l -> is_Some (batchers st !! ts_batcher session)) ->
  exists st', teardownAll W l st = (Ok tt, st')
    /\ (forall session, In session l -> released st' (ts_batcher session))
    /\ (forall r, released st r -> released st' r)
    /\ killsOf (trace st')
       = killsOf (trace st) ++ map (fun session => (ts_pty session, "SIGTERM")) l
    /\ sameTables st st'.
Proof.
  induction l as [|session rest IH]; intros st Hall.
  - exists st. cbn. split; [reflexivity|]. split; [tauto|]. split; [auto|].
    split; [now rewrite app_nil_r | apply sameTables_refl].
  - destruct (teardown_spec session st (Hall session (or_introl eq_refl)))
      as (s1 & Ht & Hrel & Hkeep & Halloc & Hk & Hs).
    destruct (IH s1) as (s2 & Hr & Hrel2 & Hkeep2 & Hk2 & Hs2).
    { intros s' Hin. apply Halloc, Hall. now right. }
    exists s2. cbn [teardownAll]. rewrite (bind_ok _ _ _ _ _ Ht), Hr.
    split; [reflexivity|].
    split.
    { intros s' [<-|Hin]; [now apply Hkeep2 | now apply Hrel2]. }
    split; [intros r Hrl; now apply Hkeep2, Hkeep|].
    split.
    { rewrite Hk2, Hk. cbn [map]. now rewrite <- app_assoc. }
    eapply sameTables_trans; eassumption.
Qed.

(** One teardown, event by event. *)
Lemma teardown_trace (session : TerminalSession) (st : State) (b : TerminalDataBatcher) :
  batchers st !! ts_batcher session = Some b ->
  exists st' h, teardown W session st = (Ok tt, st')
    /\ batchers st' !! ts_batcher session = Some (mkBatcher EmptyString false h)
    /\ (forall r, r <> ts_batcher session -> batchers st' !! r = batchers st !! r)
    /\ trace st' = trace st ++ flushEvents b ++ [EvPtyKill (ts_pty session) "SIGTERM"].
Proof.
  intros Hb. unfold teardown.
  destruct (flush_spec W _ st b Hb) as (s1 & h & Hf & Hb1 & _ & _ & Ho1 & Ht1 & _).
  destruct (destroy_spec _ s1 _ Hb1) as (s2 & Hd & Hb2 & Ho2 & Ht2 & _).
  rewrite (bind_ok _ _ _ _ _ Hf), (bind_ok _ _ _ _ _ Hd).
  unfold ptyKill, perform. rewrite kill_returns.
  exists (record (EvPtyKill (ts_pty session) "SIGTERM") s2), h.
  split; [reflexivity|]. cbn [batchers trace record].
  split; [exact Hb2|].
  split; [intros r Hr; rewrite (Ho2 r Hr); now apply Ho1|].
  rewrite Ht2, Ht1. unfold flushEvents. now rewrite <- app_assoc.
Qed.

Lemma teardownAll_trace (bs : gmap nat TerminalDataBatcher) (l : list TerminalSession) :
  forall (flushed : list nat) (st : State),
  (forall session, In session l -> is_Some (batchers st !! ts_batcher session)) ->
  (forall r b, batchers st !! r = Some b ->
     flushEvents b
     = if existsb (Nat.eqb r) flushed then []
       else match bs !! r with Some b0 => flushEvents b0 | None => [] end) ->
  exists st', teardownAll W l st = (Ok tt, st')
    /\ trace st' = trace st ++ teardownEvents bs flushed l.
Proof.
  induction l as [|session rest IH]; intros flushed st Hall Hinv.
  - exists st. cbn. now rewrite app_nil_r.
  - destruct (Hall session (or_introl eq_refl)) as [b Hb].
    destruct (teardown_trace session st b Hb) as (s1 & h & Ht & Hb1 & Ho1 & Tr1).
    destruct (IH (ts_batcher session :: flushed) s1) as (s2 & Hr & Tr2).
    { intros s' Hin. destruct (decide (ts_batcher s' = ts_batcher session)) as [E|Hne].
      - rewrite E, Hb1. eauto.
      - rewrite (Ho1 _ Hne). apply Hall. now right. }
    { intros r b' Hr. cbn [existsb].
      destruct (Nat.eqb r (ts_batcher session)) eqn:E.
      - apply Nat.eqb_eq in E. subst r. rewrite Hb1 in Hr. injection Hr as <-.
        reflexivity.
      - apply Nat.eqb_neq in E. rewrite (Ho1 _ E) in Hr. cbn [orb].
        exact (Hinv r b' Hr). }
    exists s2. cbn [teardownAll teardownEvents].
    rewrite (bind_ok _ _ _ _ _ Ht), Hr. split; [reflexivity|].
    rewrite Tr2, Tr1, <- (Hinv _ _ Hb), <- !app_assoc. reflexivity.
Qed.

(** C2, as amended. Whenever no [kill] of a PTY throws, [cleanup] completes
    without raising, also when emissions of buffered output fail inside the
    flushes (the emitter of each batcher catches them). The terminals of the
    table are torn down in the order of the table, and these are all the
    events of [cleanup]: for each terminal the output that its batcher holds
    is handed to the transport (the flush), then SIGTERM is sent to its PTY.
    On return every batcher is released and the table is empty. The
    hypothesis says that every session of the table holds a batcher object,
    as every session stored by [create] does. *)
Theorem cleanup_completes_when_kills_return (st : State) :
  (forall id session, In (id, session) (sessions st) ->
     is_Some (batchers st !! ts_batcher session)) ->
  exists st', cleanup W st = (Ok tt, st')
    /\ sessions st' = []
    /\ trace st' = trace st ++ teardownEvents (batchers st) [] (map snd (sessions st))
    /\ killsOf (trace st')
       = killsOf (trace st)
         ++ map (fun kv => (ts_pty (snd kv), "SIGTERM")) (sessions st)
    /\ (forall id session, In (id, session) (sessions st) ->
          released st' (ts_batcher session)).
Proof.
  intros Hwf. unfold cleanup, bind at 1, gets.
  assert (Hall : forall session, In session (map snd (sessions st)) ->
            is_Some (batchers st !! ts_batcher session)).
  { intros session Hin. apply in_map_iff in Hin as ([id s'] & <- & Hin).
    now apply (Hwf id). }
  destruct (teardownAll_spec (map snd (sessions st)) st Hall)
    as (s1 & Ht & Hrel & _ & Hk & Hs).
  destruct (teardownAll_trace (batchers st) (map snd (sessions st)) [] st Hall)
    as (s1' & Ht' & Tr).
  { intros r b Hb. cbn [existsb]. now rewrite Hb. }
  rewrite Ht in Ht'. injection Ht' as <-.
  rewrite (bind_ok _ _ _ _ _ Ht). unfold modify.
  eexists. split; [reflexivity|]. split; [reflexivity|].
  split; [exact Tr|].
  split.
  { cbn [trace set_sessions]. rewrite Hk. now rewrite map_map. }
  intros id session Hin. destruct (Hrel session) as [h Hh].
  { apply in_map_iff. now exists (id, session). }
  exists h. exact Hh.
Qed.

End Cleanup.

Lemma cleanup_completes_when_kills_return_witness :
  exists st', cleanup Demo.quiet Demo.twoTerminals = (Ok tt, st')
    /\ sessions st' = []
    /\ trace st'
       = [EvEmitData "term-1" "ls"; EvPtyKill 1 "SIGTERM"; EvPtyKill 2 "SIGTERM"]
    /\ killsOf (trace st') = [(1%nat, "SIGTERM"); (2%nat, "SIGTERM")].
Proof.
  destruct (cleanup_completes_when_kills_return Demo.quiet (fun _ _ _ => eq_refl)
              Demo.twoTerminals) as (st' & H1 & H2 & H3 & H4 & _).
  - intros id session [E|[E|[]]]; inversion E; subst; vm_compute; eauto.
  - exists st'. split; [exact H1|]. split; [exact H2|]. split; [exact H3|exact H4].
Defined.

(** C2, as stated, fails: when the kill of the first PTY throws, [cleanup]
    throws, the second terminal is never torn down, and the table is not
    cleared. *)
Lemma cleanup_throws_when_kill_throws :
  fst (cleanup Demo.killFails Demo.twoTerminals) = Throw (newError "kill ESRCH")
  /\ sessions (snd (cleanup Demo.killFails Demo.twoTerminals))
     = sessions Demo.twoTerminals
  /\ killsOf (trace (snd (cleanup Demo.killFails Demo.twoTerminals)))
     = [(1%nat, "SIGTERM")].
Proof. vm_compute. repeat split. Qed.

(* ===================================================================== *)
(** * [create] *)
(* ===================================================================== *)

Lemma grows_same P st st' : trace st' = trace st -> grows P st st'.
Proof. intros H. exists []. rewrite app_nil_r. split; [exact H | constructor]. Qed.

Lemma grows_refl P st : grows P st st.
Proof. now apply grows_same. Qed.

Lemma grows_trans P a b c : grows P a b -> grows P b c -> grows P a c.
Proof.
  intros (e1 & H1 & F1) (e2 & H2 & F2). exists (e1 ++ e2).
  split; [rewrite H2, H1; now rewrite app_assoc | now apply Forall_app].
Qed.

Lemma grows_one P st st' ev : trace st' = trace st ++ [ev] -> P ev -> grows P st st'.
Proof. intros H Hp. exists [ev]. split; [exact H | now repeat constructor]. Qed.

Lemma grows_log_r P st x l : grows P st x -> grows P st (log l x).
Proof. intros (evs & H & F). exists evs. split; [exact H | exact F]. Qed.

Lemma grows_record_r P st x ev : P ev -> grows P st x -> grows P st (record ev x).
Proof.
  intros Hp (evs & H & F). exists (evs ++ [ev]). split.
  - cbn. rewrite H. now rewrite app_assoc.
  - apply Forall_app. split; [exact F | now repeat constructor].
Qed.

Ltac grows_tac :=
  repeat first [ apply grows_refl
               | apply grows_log_r
               | apply grows_record_r; [cbn; auto |] ].

Section Create.

Variable W : World.


Lemma onlyLogged_refl st : onlyLogged st st.
Proof. repeat split. Qed.

Lemma onlyLogged_log l st : onlyLogged st (log l st).
Proof. repeat split. Qed.

Lemma onlyLogged_trans a b c : onlyLogged a b -> onlyLogged b c -> onlyLogged a c.
Proof. unfold onlyLogged. intuition congruence. Qed.

(** A Zellij action: the command is run once; a failure is logged, and
    thrown again only for a critical action. *)
Lemma runZellijActionAsync_spec (zs action : string) (asUser : option string)
  (throwOnError : bool) (st : State) :
  (runZellijActionAsync W zs action asUser throwOnError st
   = (Ok tt, record (actionEvent zs action asUser) st))
  \/ (exists e st', onlyLogged (record (actionEvent zs action asUser) st) st'
        /\ runZellijActionAsync W zs action asUser throwOnError st
           = (if throwOnError then Throw e else Ok tt, st')).
Proof.
  unfold runZellijActionAsync, tryCatch, bind, runAsUserAsync, perform, actionEvent.
  destruct (w_execAsync W (trace st) (fullCommandOf (actionCommand zs action) asUser)
              ZELLIJ_COMMAND_TIMEOUT_MS) as [out|e].
  - left. reflexivity.
  - right. exists e. unfold modify, throw, ret.
    destruct throwOnError; eexists; (split; [|reflexivity]); apply onlyLogged_log.
Qed.

Lemma runZellijActionAsync_lenient (zs action : string) (asUser : option string)
  (st : State) :
  exists st', runZellijActionAsync W zs action asUser false st = (Ok tt, st')
    /\ onlyLogged (record (actionEvent zs action asUser) st) st'.
Proof.
  destruct (runZellijActionAsync_spec zs action asUser false st) as [H|(e & st' & Hl & H)].
  - eexists. split; [exact H | apply onlyLogged_refl].
  - exists st'. split; [exact H | exact Hl].
Qed.

Lemma executeInitCommands_spec (zs : string) (cmds : list string)
  (asUser : option string) (st : State) :
  exists st', executeInitCommands W zs cmds asUser st = (Ok tt, st')
    /\ trace st' = trace st ++ initEventsOf zs cmds asUser
    /\ sessions st' = sessions st /\ tabsCache st' = tabsCache st
    /\ existsCache st' = existsCache st /\ batchers st' = batchers st.
Proof.
  destruct cmds as [|c cs].
  - exists st. cbn. rewrite app_nil_r. repeat split.
  - unfold executeInitCommands, initEventsOf.
    set (script := "write-chars " +:+ dquote (escapeDoubleQuoted (Js.join " && " (c :: cs)))).
    destruct (runZellijActionAsync_lenient zs script asUser st) as (s1 & H1 & L1).
    destruct (runZellijActionAsync_lenient zs "write 10" asUser s1) as (s2 & H2 & L2).
    exists s2. rewrite (bind_ok _ _ _ _ _ H1), H2. split; [reflexivity|].
    destruct L1 as (A1 & A2 & A3 & A4 & A5), L2 as (B1 & B2 & B3 & B4 & B5).
    cbn [record sessions tabsCache existsCache batchers trace] in *.
    repeat split; try congruence.
    rewrite B5, A5. now rewrite <- app_assoc.
Qed.

Lemma invalidate_spec (zs : string) (asUser : option string) (st : State) :
  exists st', invalidate zs asUser st = (Ok tt, st')
    /\ trace st' = trace st ++ [EvInvalidate (getCacheKey zs asUser)]
    /\ tabsCache st' !! getCacheKey zs asUser = None
    /\ existsCache st' !! getCacheKey zs asUser = None
    /\ sessions st' = sessions st /\ batchers st' = batchers st.
Proof.
  unfold invalidate, bind, modify. eexists. split; [reflexivity|].
  cbn. split; [reflexivity|].
  split; [apply lookup_delete_eq|]. split; [apply lookup_delete_eq|]. split; reflexivity.
Qed.

(** The three ways of the tab management, when it succeeds. *)
Lemma create_configureTab_ok (plan : TabPlan) (st st' : State) :
  create_configureTab W plan st = (Ok tt, st') ->
  let zs := tp_zellijSession plan in
  let asUser := tp_asUser plan in
  let key := getCacheKey zs asUser in
  let tab := dquote (escapeDoubleQuoted (tp_tabName plan)) in
  let dir := dquote (escapeDoubleQuoted (tp_cwd plan)) in
  let init alwaysCd :=
    initEventsOf zs (buildInitCommands W (tp_envFile plan) (tp_cwd plan) alwaysCd) asUser in
  sessions st' = sessions st /\ batchers st' = batchers st
  /\ ((tp_sessionExists plan = false
       /\ trace st' = trace st
            ++ [actionEvent zs ("rename-tab " +:+ tab) asUser; EvInvalidate key]
            ++ init false
       /\ tabsCache st' !! key = None /\ existsCache st' !! key = None)
      \/ (tp_sessionExists plan = true /\ tp_needsTabCreation plan = true
          /\ trace st' = trace st
               ++ [actionEvent zs ("new-tab --name " +:+ tab +:+ " --cwd " +:+ dir) asUser;
                   actionEvent zs ("go-to-tab-name " +:+ tab) asUser;
                   EvInvalidate key; EvSleep 50]
               ++ init true
          /\ tabsCache st' !! key = None /\ existsCache st' !! key = None)
      \/ (tp_sessionExists plan = true /\ tp_needsTabCreation plan = false
          /\ tp_needsTabSwitch plan = true
          /\ trace st' = trace st
               ++ [actionEvent zs ("go-to-tab-name " +:+ tab) asUser;
                   actionEvent zs "write 3" asUser; EvSleep 20]
               ++ init true
          /\ tabsCache st' = tabsCache st /\ existsCache st' = existsCache st)
      \/ (tp_sessionExists plan = true /\ tp_needsTabCreation plan = false
          /\ tp_needsTabSwitch plan = false /\ st' = st)).
Proof.
  intros H zs asUser key tab dir init.
  unfold create_configureTab, tryCatch in H.
  fold zs in H. fold asUser in H.
  destruct (tp_sessionExists plan) eqn:Hex; cbn [negb] in H.
  - destruct (tp_needsTabCreation plan) eqn:Hcr.
    + (* a new tab *)
      destruct (runZellijActionAsync_spec zs
                  ("new-tab --name " +:+ tab +:+ " --cwd " +:+ dir) asUser true st)
        as [R1|(e & s1 & L1 & R1)];
        fold tab in H; fold dir in H;
        [rewrite (bind_ok _ _ _ _ _ R1) in H
        | rewrite (bind_throw _ _ _ _ _ R1) in H; discriminate].
      destruct (runZellijActionAsync_spec zs ("go-to-tab-name " +:+ tab) asUser true
                  (record (actionEvent zs ("new-tab --name " +:+ tab +:+ " --cwd " +:+ dir)
                             asUser) st))
        as [R2|(e & s2 & L2 & R2)];
        [rewrite (bind_ok _ _ _ _ _ R2) in H
        | rewrite (bind_throw _ _ _ _ _ R2) in H; discriminate].
      match type of H with
      | context [bind (invalidate zs asUser) _ ?s] =>
          destruct (invalidate_spec zs asUser s) as (s3 & R3 & T3 & C3 & E3 & S3 & B3)
      end.
      rewrite (bind_ok _ _ _ _ _ R3) in H.
      unfold bind at 1, modify at 1 in H.
      match type of H with
      | context [executeInitCommands W zs ?c asUser ?s] =>
          destruct (executeInitCommands_spec zs c asUser s)
            as (s4 & R4 & T4 & S4 & C4 & E4 & B4)
      end.
      rewrite R4 in H. injection H as <-.
      cbn [record sessions tabsCache existsCache batchers trace] in *.
      split; [congruence|]. split; [congruence|].
      right; left. split; [reflexivity|]. split; [reflexivity|].
      split.
      { rewrite T4, T3. cbn. rewrite <- !app_assoc. reflexivity. }
      subst key. rewrite C4, E4. split; assumption.
    + destruct (tp_needsTabSwitch plan) eqn:Hsw.
      * (* switching to the tab *)
        destruct (runZellijActionAsync_spec zs ("go-to-tab-name " +:+ tab) asUser true st)
          as [R1|(e & s1 & L1 & R1)];
          fold tab in H;
          [rewrite (bind_ok _ _ _ _ _ R1) in H
          | rewrite (bind_throw _ _ _ _ _ R1) in H; discriminate].
        match type of H with
        | context [bind (runZellijActionAsync W zs "write 3" asUser false) _ ?s] =>
            destruct (runZellijActionAsync_lenient zs "write 3" asUser s) as (s2 & R2 & L2)
        end.
        rewrite (bind_ok _ _ _ _ _ R2) in H.
        unfold bind at 1, modify at 1 in H.
        match type of H with
        | context [executeInitCommands W zs ?c asUser ?s] =>
            destruct (executeInitCommands_spec zs c asUser s)
              as (s4 & R4 & T4 & S4 & C4 & E4 & B4)
        end.
        rewrite R4 in H. injection H as <-.
        destruct L2 as (A1 & A2 & A3 & A4 & A5).
        cbn [record sessions tabsCache existsCache batchers trace] in *.
        split; [congruence|]. split; [congruence|].
        right; right; left. repeat split; try congruence.
        rewrite T4, A5. cbn. rewrite <- !app_assoc. reflexivity.
      * injection H as <-. split; [reflexivity|]. split; [reflexivity|].
        right; right; right. repeat split.
  - (* the first tab of a new session *)
    destruct (runZellijActionAsync_spec zs ("rename-tab " +:+ tab) asUser true st)
      as [R1|(e & s1 & L1 & R1)];
      fold tab in H;
      [rewrite (bind_ok _ _ _ _ _ R1) in H
      | rewrite (bind_throw _ _ _ _ _ R1) in H; discriminate].
    match type of H with
    | context [bind (invalidate zs asUser) _ ?s] =>
        destruct (invalidate_spec zs asUser s) as (s3 & R3 & T3 & C3 & E3 & S3 & B3)
    end.
    rewrite (bind_ok _ _ _ _ _ R3) in H.
    match type of H with
    | context [executeInitCommands W zs ?c asUser ?s] =>
        destruct (executeInitCommands_spec zs c asUser s)
          as (s4 & R4 & T4 & S4 & C4 & E4 & B4)
    end.
    rewrite R4 in H. injection H as <-.
    cbn [record sessions tabsCache existsCache batchers trace] in *.
    split; [congruence|]. split; [congruence|].
    left. split; [reflexivity|].
    split.
    { rewrite T4, T3. cbn. rewrite <- !app_assoc. reflexivity. }
    subst key. rewrite C4, E4. split; assumption.
Qed.


Ltac bind_inv H :=
  let a := fresh "a" in
  let s := fresh "s" in
  let Hm := fresh "Hm" in
  apply bind_ok_inv in H; destruct H as (a & s & Hm & H); cbv beta zeta in H.

Lemma create_classify_cases (zs : string) (asUser : option string) (tab : string)
  (st st' : State) (cls : bool * bool * bool * bool) :
  create_classify W zs asUser tab st = (Ok cls, st') ->
  cls = (false, false, false, false)
  \/ cls = (true, false, true, false)
  \/ cls = (true, true, false, true).
Proof.
  intros H. unfold create_classify in H. bind_inv H.
  destruct a.
  - bind_inv H. destruct (Js.arrIncludes tab a); injection H as <- _; auto.
  - injection H as <- _; auto.
Qed.

(** What [create] has settled when the tab management starts. *)
Lemma create_setup_plan (data : CreateTerminalData) (params : option AuthenticatedParams)
  (st st1 : State) (plan : TabPlan) :
  create_setup W data params st = (Ok plan, st1) ->
  tp_zellijSession plan = zellijSessionOf W (resolvedUserIdOf data params)
  /\ ((tp_sessionExists plan = false /\ tp_needsTabCreation plan = false
       /\ tp_needsTabSwitch plan = false /\ tp_zellijReused plan = false)
      \/ (tp_sessionExists plan = true /\ tp_needsTabCreation plan = true
          /\ tp_needsTabSwitch plan = false /\ tp_zellijReused plan = false)
      \/ (tp_sessionExists plan = true /\ tp_needsTabCreation plan = false
          /\ tp_needsTabSwitch plan = true /\ tp_zellijReused plan = true)).
Proof.
  intros H. unfold create_setup in H.
  do 9 bind_inv H.
  injection H as <- _. cbn.
  split; [reflexivity|].
  match goal with
  | Hc : create_classify _ _ _ _ _ = _ |- _ =>
      destruct (create_classify_cases _ _ _ _ _ _ Hc) as [ -> | [ -> | -> ] ]
  end; cbn; tauto.
Qed.

Lemma create_ok_inv (data : CreateTerminalData) (params : option AuthenticatedParams)
  (st st' : State) (result : CreateResult) :
  create W data params st = (Ok result, st') ->
  exists plan st1,
    create_setup W data params st = (Ok plan, st1)
    /\ create_configureTab W plan st1 = (Ok tt, st')
    /\ result = mkCreateResult (tp_terminalId plan) (tp_cwd plan) (tp_zellijSession plan)
                  (tp_zellijReused plan) (tp_worktreeName plan).
Proof.
  intros H. unfold create in H. bind_inv H. bind_inv H.
  injection H as <- <-. destruct a0. eauto.
Qed.


(* ------------------------------------------------------------------- *)
(** The events of the first half of [create]. *)

Lemma sessionExists_grows zs asUser st v st' :
  sessionExists W zs asUser st = (Ok v, st') -> grows (setupEvent zs asUser) st st'.
Proof.
  unfold sessionExists, bind, gets.
  destruct (freshEntry _ _).
  - intros H; injection H as _ <-. apply grows_refl.
  - destruct (zellijSessionExistsAsync_total W zs asUser st) as (v1 & s1 & H1 & T1 & _).
    rewrite H1. unfold modify, ret. intros H; injection H as _ <-.
    eapply grows_one; [exact T1 | cbn; auto].
Qed.

Lemma getTabs_grows zs asUser st v st' :
  getTabs W zs asUser st = (Ok v, st') -> grows (setupEvent zs asUser) st st'.
Proof.
  unfold getTabs, bind, gets.
  destruct (freshEntry _ _).
  - intros H; injection H as _ <-. apply grows_refl.
  - destruct (fetchTabs_total W zs asUser st) as (v1 & s1 & H1 & T1 & _).
    rewrite H1. unfold modify, ret. intros H; injection H as _ <-.
    eapply grows_one; [exact T1 | cbn; auto].
Qed.

Lemma create_classify_grows zs asUser tab st cls st' :
  create_classify W zs asUser tab st = (Ok cls, st') ->
  grows (setupEvent zs asUser) st st'.
Proof.
  intros H. unfold create_classify in H. bind_inv H.
  apply sessionExists_grows in Hm.
  destruct a.
  - bind_inv H. apply getTabs_grows in Hm0.
    destruct (Js.arrIncludes tab a); injection H as _ <-;
      eapply grows_trans; eassumption.
  - injection H as _ <-. exact Hm.
Qed.

Lemma writeEnvFile_grows zs asUser userId env chownTo st v st' :
  writeEnvFile W userId env chownTo st = (Ok v, st') ->
  grows (setupEvent zs asUser) st st'.
Proof.
  unfold writeEnvFile.
  destruct (negb (Js.truthy userId)).
  { intros H; injection H as _ <-. apply grows_refl. }
  unfold tryCatch, bind at 1, perform at 1.
  destruct (w_writeFileSync W _ _ _ _) as [[]|e].
  - destruct (Js.truthy chownTo).
    + unfold bind, tryCatch, perform.
      destruct (w_execSync W _ _ _) as [[]|e'];
        intros H; injection H as _ <-; unfold modify; grows_tac.
    + unfold bind, ret. intros H; injection H as _ <-.
      eapply grows_one; [reflexivity | exact I].
  - unfold bind, modify, ret. intros H; injection H as _ <-.
    eapply grows_one; [reflexivity | exact I].
Qed.

Lemma create_environment_grows zs asUser resolvedUserId finalUnixUser st v st' :
  create_environment W resolvedUserId finalUnixUser st = (Ok v, st') ->
  grows (setupEvent zs asUser) st st'.
Proof.
  intros H. unfold create_environment in H.
  bind_inv H. bind_inv H. bind_inv H. injection H as _ <-.
  assert (s = st) as ->.
  { destruct (Js.truthy resolvedUserId).
    - unfold ask in Hm. now injection Hm as _ <-.
    - now injection Hm as _ <-. }
  assert (s0 = st) as ->. { unfold ask in Hm0. now injection Hm0 as _ <-. }
  destruct (Js.truthy resolvedUserId).
  - eapply writeEnvFile_grows; eassumption.
  - injection Hm1 as _ <-. apply grows_refl.
Qed.

Lemma create_spawn_grows zs asUser data zs' cwd finalUnixUser env st v st' :
  create_spawn W data zs' cwd finalUnixUser env st = (Ok v, st') ->
  grows (setupEvent zs asUser) st st'.
Proof.
  unfold create_spawn, tryCatch, bind at 1, bindOutcome.
  destruct (w_buildSpawnArgs W _ _ _ _) as [ca|e].
  - unfold perform. destruct (w_ptySpawn W _ _ _ _) as [h|e].
    + intros H; injection H as _ <-. eapply grows_one; [reflexivity | exact I].
    + unfold bind, modify, throw. discriminate.
  - unfold bind, modify, throw. discriminate.
Qed.

Lemma pushAll_grows r chunks :
  forall st b, batchers st !! r = Some b ->
  exists st' b', Batcher_pushAll W r chunks st = (Ok tt, st')
    /\ batchers st' !! r = Some b'
    /\ grows (fun ev => exists t d, ev = EvEmitData t d) st st'.
Proof.
  induction chunks as [|data rest IH]; intros st b Hb.
  - exists st, b. split; [reflexivity|]. split; [exact Hb | apply grows_refl].
  - destruct (push_spec W r data st b Hb) as (s1 & b1 & Hp & Hb1 & _ & _ & Hc & _).
    destruct (IH s1 b1 Hb1) as (st' & b' & Hq & Hb' & Hg).
    exists st', b'. cbn [Batcher_pushAll]. rewrite (bind_ok _ _ _ _ _ Hp).
    split; [exact Hq|]. split; [exact Hb'|].
    eapply grows_trans; [|exact Hg].
    destruct (MAX_BUFFER_SIZE <=? Js.length (buffer b +:+ data)).
    + destruct Hc as (_ & _ & Ht). eapply grows_one; [exact Ht | eauto].
    + destruct Hc as (_ & _ & _ & Ht). now apply grows_same.
Qed.

Lemma waitForReady_grows zs asUser terminalId r st v st' :
  waitForReady W terminalId r st = (Ok v, st') ->
  grows (setupEvent zs asUser) st st'.
Proof.
  intros H. unfold waitForReady in H.
  bind_inv H. bind_inv H. bind_inv H. bind_inv H. bind_inv H. bind_inv H. bind_inv H.
  assert (Hemit : forall a b, grows (fun ev => exists t d, ev = EvEmitData t d) a b ->
                    grows (setupEvent zs asUser) a b).
  { intros x y (evs & Ht & Hf). exists evs. split; [exact Ht|].
    eapply Forall_impl; [exact Hf|]. intros ev (t & d & ->). exact I. }
  assert (G1 : grows (setupEvent zs asUser) st s0).
  { unfold deref in Hm. destruct (batchers st !! r); [|discriminate].
    injection Hm as _ <-. unfold store, modify in Hm0. injection Hm0 as _ <-.
    now apply grows_same. }
  assert (G2 : grows (setupEvent zs asUser) s0 s2).
  { unfold gets in Hm1. injection Hm1 as <- <-.
    unfold deref in Hm. destruct (batchers st !! r) eqn:Hb; [|discriminate].
    injection Hm as <- <-. unfold store, modify in Hm0. injection Hm0 as _ <-.
    destruct (pushAll_grows r (w_ptyOutputBeforeReady W (trace st))
                (set_batchers (insert r (mkBatcher (buffer t) (timer t) (ReadyProbe terminalId))) st)
                (mkBatcher (buffer t) (timer t) (ReadyProbe terminalId)))
      as (x & b' & Hx & _ & Hg).
    { cbn. apply lookup_insert_eq. }
    cbn [trace set_batchers] in Hm2. rewrite Hx in Hm2. injection Hm2 as _ <-.
    now apply Hemit. }
  assert (G3 : grows (setupEvent zs asUser) s2 s4).
  { unfold deref in Hm3. destruct (batchers s2 !! r) eqn:Hb; [|discriminate].
    injection Hm3 as <- <-.
    destruct (timer t).
    - unfold Batcher_timerFires in Hm4.
      destruct (flush_spec W r s2 t Hb) as (x & h & Hf & _ & _ & _ & _ & Ht & _).
      rewrite Hf in Hm4. injection Hm4 as _ <-.
      destruct (0 <? Js.length (buffer t)).
      + eapply grows_one; [exact Ht | exact I].
      + apply grows_same. now rewrite Ht, app_nil_r.
    - injection Hm4 as _ <-. apply grows_refl. }
  assert (G4 : grows (setupEvent zs asUser) s4 st').
  { unfold deref in Hm5. destruct (batchers s4 !! r); [|discriminate].
    injection Hm5 as <- <-.
    destruct (onFlush t); injection H as _ <-; now apply grows_same. }
  eapply grows_trans; [exact G1|]. eapply grows_trans; [exact G2|].
  eapply grows_trans; eassumption.
Qed.

(** The identity step of [create]: it only reads, and logs. *)
Lemma create_resolveIdentity_spec (auth : option string) (st : State) :
  exists st', onlyLogged st st'
    /\ create_resolveIdentity W auth st
       = (match w_loadConfig W (trace st) with
          | Throw e => Throw e
          | Ok config =>
              let mode := match unix_user_mode config with Some m => m | None => "simple" end in
              match w_resolveUnixUserForImpersonation W mode
                      (mappedUnixUserOf W (trace st) auth) (executor_unix_user config) with
              | Throw e => Throw e
              | Ok finalUnixUser =>
                  match w_validateResolvedUnixUser W (trace st) mode finalUnixUser with
                  | Ok _ => Ok finalUnixUser
                  | Throw e => Throw (identityError e)
                  end
              end
          end, st').
Proof.
  unfold create_resolveIdentity, bind at 1, ask at 1.
  destruct (w_loadConfig W (trace st)) as [config|e].
  2:{ exists st. split; [apply onlyLogged_refl | reflexivity]. }
  cbv zeta.
  assert (Hload : exists s1, onlyLogged st s1
            /\ loadImpersonatedUser W auth st = (Ok (mappedUnixUserOf W (trace st) auth), s1)).
  { unfold loadImpersonatedUser, mappedUnixUserOf.
    destruct (Js.truthy auth).
    - unfold tryCatch, bind, ask.
      destruct (w_usersFindById W (trace st) (Js.orElse auth EmptyString)) as [[u|]|e].
      + destruct (Js.truthy (unix_username u));
          (eexists; split; [apply onlyLogged_refl | reflexivity]).
      + eexists; split; [apply onlyLogged_refl | reflexivity].
      + eexists; split; [apply onlyLogged_log | reflexivity].
    - eexists; split; [apply onlyLogged_refl | reflexivity]. }
  destruct Hload as (s1 & L1 & Hl).
  rewrite (bind_ok _ _ _ _ _ Hl).
  unfold bind at 1, bindOutcome.
  destruct (w_resolveUnixUserForImpersonation W _ _ _) as [fu|e].
  2:{ exists s1. split; [exact L1 | reflexivity]. }
  unfold bind, tryCatch, ask.
  assert (Htr : trace s1 = trace st) by apply L1.
  rewrite Htr.
  destruct (w_validateResolvedUnixUser W (trace st) _ fu) as [[]|e].
  - exists s1. split; [exact L1 | reflexivity].
  - exists s1. split; [exact L1|].
    destruct e as [[|] m|t]; reflexivity.
Qed.

Lemma create_resolveCwd_state data finalUnixUser st o st' :
  create_resolveCwd W data finalUnixUser st = (o, st') -> st' = st.
Proof.
  unfold create_resolveCwd.
  destruct (Js.truthy (d_worktreeId data)).
  - unfold bind, ask, gets, ret.
    destruct (w_worktreeFindById W _ _) as [[wt|]|e].
    + destruct (Js.truthy finalUnixUser && Js.truthy (Some (wt_name wt)));
        intros H; now injection H as _ <-.
    + intros H; now injection H as _ <-.
    + intros H; now injection H as _ <-.
  - intros H; now injection H as _ <-.
Qed.

Lemma create_register_trace data terminalId pty cwd resolvedUserId zs env st o st' :
  create_register W data terminalId pty cwd resolvedUserId zs env st = (o, st') ->
  trace st' = trace st.
Proof.
  unfold create_register, bind, newBatcher, gets, modify, ret.
  intros H; injection H as _ <-. reflexivity.
Qed.

(** Before the tab management [create] runs no Zellij action. *)
Lemma create_setup_grows (data : CreateTerminalData) (params : option AuthenticatedParams)
  (st st1 : State) (plan : TabPlan) :
  create_setup W data params st = (Ok plan, st1) ->
  grows (setupEvent (tp_zellijSession plan) (tp_asUser plan)) st st1.
Proof.
  intros H. unfold create_setup in H.
  do 9 bind_inv H.
  injection H as <- <-. cbn [tp_zellijSession tp_asUser].
  unfold gets in Hm, Hm0. injection Hm as _ <-. injection Hm0 as _ <-.
  destruct (create_resolveIdentity_spec (authenticatedUserIdOf params) st)
    as (x & Lx & Hx).
  rewrite Hm1 in Hx. injection Hx as _ <-.
  apply create_resolveCwd_state in Hm2. subst s2.
  eapply grows_trans; [apply grows_same; apply Lx|].
  eapply grows_trans; [eapply create_classify_grows; exact Hm3|].
  eapply grows_trans; [eapply create_environment_grows; exact Hm4|].
  eapply grows_trans; [eapply create_spawn_grows; exact Hm5|].
  eapply grows_trans; [|eapply waitForReady_grows; exact Hm7].
  apply grows_same. eapply create_register_trace; exact Hm6.
Qed.


Lemma getTabs_miss (zs : string) (asUser : option string) (st : State) :
  tabsCache st !! getCacheKey zs asUser = None ->
  exists tabs st', getTabs W zs asUser st = (Ok tabs, st')
    /\ trace st' = trace st
         ++ [EvExec (fullCommandOf (tabNamesCommand zs) asUser) ZELLIJ_COMMAND_TIMEOUT_MS].
Proof.
  intros Hmiss. unfold getTabs, bind, gets. rewrite Hmiss. cbn [freshEntry].
  destruct (fetchTabs_total W zs asUser st) as (tabs & s1 & H1 & T1 & _).
  rewrite H1. exists tabs. eexists. split; [reflexivity | exact T1].
Qed.

(** C3, as amended. In every run of [create] that returns normally: before
    the tab management [create] runs no Zellij action. Then, for a first session, it
    renames the tab and calls [invalidate] at once; for a new tab, it creates
    the tab, goes to it and calls [invalidate] at once; in both cases nothing
    fills the cache again before [create] returns, so that a [getTabs] issued
    right after [create] queries Zellij anew. For an existing tab nothing is
    created or renamed. *)
Theorem create_invalidates_after_tab_mutation (data : CreateTerminalData)
  (params : option AuthenticatedParams) (st st' : State) (result : CreateResult) :
  create W data params st = (Ok result, st') ->
  exists plan st1,
    create_setup W data params st = (Ok plan, st1)
    /\ let zs := cr_zellijSession result in
       let asUser := tp_asUser plan in
       let key := getCacheKey zs asUser in
       let tab := dquote (escapeDoubleQuoted (tp_tabName plan)) in
       let dir := dquote (escapeDoubleQuoted (tp_cwd plan)) in
       let init alwaysCd :=
         initEventsOf zs (buildInitCommands W (tp_envFile plan) (tp_cwd plan) alwaysCd)
           asUser in
       let readsAnew :=
         tabsCache st' !! key = None /\ existsCache st' !! key = None
         /\ exists tabs st2, getTabs W zs asUser st' = (Ok tabs, st2)
              /\ trace st2 = trace st'
                   ++ [EvExec (fullCommandOf (tabNamesCommand zs) asUser)
                         ZELLIJ_COMMAND_TIMEOUT_MS] in
       grows (setupEvent zs asUser) st st1
       /\ ((tp_sessionExists plan = false
            /\ trace st' = trace st1
                 ++ [actionEvent zs ("rename-tab " +:+ tab) asUser; EvInvalidate key]
                 ++ init false
            /\ readsAnew)
           \/ (tp_needsTabCreation plan = true
               /\ trace st' = trace st1
                    ++ [actionEvent zs ("new-tab --name " +:+ tab +:+ " --cwd " +:+ dir)
                          asUser;
                        actionEvent zs ("go-to-tab-name " +:+ tab) asUser;
                        EvInvalidate key; EvSleep 50]
                    ++ init true
               /\ readsAnew)
           \/ (tp_needsTabSwitch plan = true
               /\ trace st' = trace st1
                    ++ [actionEvent zs ("go-to-tab-name " +:+ tab) asUser;
                        actionEvent zs "write 3" asUser; EvSleep 20]
                    ++ init true)).
Proof.
  intros H. destruct (create_ok_inv _ _ _ _ _ H) as (plan & st1 & Hs & Hc & ->).
  exists plan, st1. split; [exact Hs|]. cbn [cr_zellijSession].
  split; [eapply create_setup_grows; exact Hs|].
  destruct (create_setup_plan _ _ _ _ _ Hs) as (_ & Hcls).
  destruct (create_configureTab_ok _ _ _ Hc) as (_ & _ & Hways).
  destruct Hways as [(E & T & C1 & C2)|[(E & N & T & C1 & C2)|[(E & N & S & T & _)|(E & N & S & _)]]].
  - left. split; [exact E|]. split; [exact T|]. split; [exact C1|]. split; [exact C2|].
    now apply getTabs_miss.
  - right; left. split; [exact N|]. split; [exact T|]. split; [exact C1|].
    split; [exact C2|]. now apply getTabs_miss.
  - right; right. split; [exact S | exact T].
  - exfalso. destruct Hcls as [(A & _)|[(_ & A & _)|(_ & _ & A & _)]]; congruence.
Qed.

(** C5, as amended. In every run of [create] that returns normally the init
    commands are the sourcing of the env file, when there is one, followed by
    [cd] to the resolved directory (always when the session existed, that is
    for a new or an existing tab; for a first session only when the directory
    is not the home directory), each dynamic value going through
    [escapeShellArg]. Before the tab management [create] runs no Zellij
    action; the tab management runs the actions of its case (rename-tab; or
    new-tab and go-to-tab-name; or go-to-tab-name and the Ctrl-C keystroke
    [write 3]) and then, when there is at least one init command, exactly
    two more actions, with which [create] ends: [write-chars] with the
    commands joined by [&&] and passed through [escapeDoubleQuoted] between
    double quotes, then [write 10], the line feed; when there is no init
    command, none of the two is run. The command line of [write-chars], as
    the shell reads it, hands Zellij the joined commands as one argument,
    character for character (for a session name that needs no escaping
    between double quotes, and under impersonation for a Unix user name of
    plain characters: the two are put on the command line as they are); and
    the shell of the tab reads the last command as [cd] and the resolved
    directory. *)
Theorem init_commands_end_with_line_feed (data : CreateTerminalData)
  (params : option AuthenticatedParams) (st st' : State) (result : CreateResult) :
  create W data params st = (Ok result, st') ->
  exists plan st1 tabEvents initCommands,
    create_setup W data params st = (Ok plan, st1)
    /\ let zs := cr_zellijSession result in
       let asUser := tp_asUser plan in
       let key := getCacheKey zs asUser in
       let tab := dquote (escapeDoubleQuoted (tp_tabName plan)) in
       let dir := dquote (escapeDoubleQuoted (cr_cwd result)) in
       let script := Js.join " && " initCommands in
       let typing :=
         actionCommand zs ("write-chars " +:+ dquote (escapeDoubleQuoted script)) in
       let changesDirectory :=
         tp_sessionExists plan || negb (String.eqb (cr_cwd result) (w_homedir W)) in
       initCommands
       = (if Js.truthy (tp_envFile plan)
          then [ "[ -f " +:+ escapeShellArg (Js.orElse (tp_envFile plan) EmptyString)
                 +:+ " ] && source "
                 +:+ escapeShellArg (Js.orElse (tp_envFile plan) EmptyString)
                 +:+ " 2>/dev/null || true" ]
          else [])
         ++ (if changesDirectory then [ "cd " +:+ escapeShellArg (cr_cwd result) ] else [])
       /\ grows (setupEvent zs asUser) st st1
       /\ ((tp_sessionExists plan = false
            /\ tabEvents = [actionEvent zs ("rename-tab " +:+ tab) asUser; EvInvalidate key])
           \/ (tp_sessionExists plan = true
               /\ tabEvents
                  = [actionEvent zs ("new-tab --name " +:+ tab +:+ " --cwd " +:+ dir) asUser;
                     actionEvent zs ("go-to-tab-name " +:+ tab) asUser;
                     EvInvalidate key; EvSleep 50])
           \/ (tp_sessionExists plan = true
               /\ tabEvents
                  = [actionEvent zs ("go-to-tab-name " +:+ tab) asUser;
                     actionEvent zs "write 3" asUser; EvSleep 20]))
       /\ trace st' = trace st1 ++ tabEvents
            ++ match initCommands with
               | [] => []
               | _ => [ EvExec (fullCommandOf typing asUser) ZELLIJ_COMMAND_TIMEOUT_MS;
                        actionEvent zs "write 10" asUser ]
               end
       /\ (literalInDouble zs = true ->
           Sh.fields typing
           = Some ["zellij"; "--session"; zs; "action"; "write-chars"; script])
       /\ match asUser with
          | None => fullCommandOf typing asUser = typing
          | Some unixUser =>
              isPlainWord unixUser = true ->
              Sh.fields (fullCommandOf typing asUser)
              = Some ["sudo"; "-n"; "su"; "-"; unixUser; "-c"; typing]
          end
       /\ (changesDirectory = true ->
           exists command,
             last initCommands = Some command
             /\ Sh.fields command = Some ["cd"; cr_cwd result]
             /\ (Js.truthy (tp_envFile plan) = false -> script = command)).
Proof.
  intros H. destruct (create_ok_inv _ _ _ _ _ H) as (plan & st1 & Hs & Hc & ->).
  destruct (create_setup_plan _ _ _ _ _ Hs) as (_ & Hcls).
  pose proof (create_setup_grows _ _ _ _ _ Hs) as Hg.
  destruct (create_configureTab_ok _ _ _ Hc) as (_ & _ & Hways).
  cbn [cr_zellijSession cr_cwd].
  assert (Hrest : forall alwaysCd,
            (alwaysCd = true -> tp_sessionExists plan = true) ->
            (alwaysCd = false -> tp_sessionExists plan = false) ->
            let cmds := buildInitCommands W (tp_envFile plan) (tp_cwd plan) alwaysCd in
            let script := Js.join " && " cmds in
            let typing :=
              actionCommand (tp_zellijSession plan)
                ("write-chars " +:+ dquote (escapeDoubleQuoted script)) in
            let changesDirectory :=
              tp_sessionExists plan || negb (String.eqb (tp_cwd plan) (w_homedir W)) in
            cmds
            = (if Js.truthy (tp_envFile plan)
               then [ "[ -f " +:+ escapeShellArg (Js.orElse (tp_envFile plan) EmptyString)
                      +:+ " ] && source "
                      +:+ escapeShellArg (Js.orElse (tp_envFile plan) EmptyString)
                      +:+ " 2>/dev/null || true" ]
               else [])
              ++ (if changesDirectory then [ "cd " +:+ escapeShellArg (tp_cwd plan) ] else [])
            /\ (literalInDouble (tp_zellijSession plan) = true ->
                Sh.fields typing
                = Some ["zellij"; "--session"; tp_zellijSession plan; "action";
                        "write-chars"; script])
            /\ match tp_asUser plan with
               | None => fullCommandOf typing (tp_asUser plan) = typing
               | Some unixUser =>
                   isPlainWord unixUser = true ->
                   Sh.fields (fullCommandOf typing (tp_asUser plan))
                   = Some ["sudo"; "-n"; "su"; "-"; unixUser; "-c"; typing]
               end
            /\ (changesDirectory = true ->
                exists command,
                  last cmds = Some command
                  /\ Sh.fields command = Some ["cd"; tp_cwd plan]
                  /\ (Js.truthy (tp_envFile plan) = false -> script = command))).
  { intros alwaysCd Ht Hf cmds script typing changesDirectory.
    assert (Hcmds : cmds
              = (if Js.truthy (tp_envFile plan)
                 then [ "[ -f " +:+ escapeShellArg (Js.orElse (tp_envFile plan) EmptyString)
                        +:+ " ] && source "
                        +:+ escapeShellArg (Js.orElse (tp_envFile plan) EmptyString)
                        +:+ " 2>/dev/null || true" ]
                 else [])
                ++ (if changesDirectory
                    then [ "cd " +:+ escapeShellArg (tp_cwd plan) ] else [])).
    { subst cmds changesDirectory. unfold buildInitCommands.
      destruct alwaysCd; [rewrite (Ht eq_refl)|rewrite (Hf eq_refl)]; reflexivity. }
    split; [exact Hcmds|].
    split.
    { intros Hz. subst typing. rewrite (actionCommand_fields _ _ Hz).
      change ("write-chars " +:+ dquote (escapeDoubleQuoted script))
        with ("write-chars" +:+ String Js.SPACE (dquote (escapeDoubleQuoted script))).
      now rewrite (lex_plain_word "write-chars" _ eq_refl), lex_last_dquote. }
    split.
    { destruct (tp_asUser plan) as [u|]; [|reflexivity].
      intros Hu. rewrite (fullCommandOf_impersonating _ _ Hu). now apply lex_sudo_line. }
    intros Hcd. exists ("cd " +:+ escapeShellArg (tp_cwd plan)).
    rewrite Hcmds, Hcd.
    split; [destruct (Js.truthy (tp_envFile plan)); reflexivity|].
    split; [apply lex_cd|].
    intros Hno. subst script. rewrite Hcmds, Hcd, Hno. reflexivity. }
  destruct Hways as [(E & T & _)|[(E & N & T & _)|[(E & N & S & T & _)|(E & N & S & _)]]].
  - destruct (Hrest false) as (R1 & R2 & R3 & R4); [discriminate|auto|].
    eexists plan, st1, _, (buildInitCommands W (tp_envFile plan) (tp_cwd plan) false).
    split; [exact Hs|]. cbv zeta.
    split; [exact R1|]. split; [exact Hg|].
    split; [left; split; [exact E|reflexivity]|].
    split; [rewrite T; unfold initEventsOf, actionEvent; reflexivity|].
    split; [exact R2|]. split; [exact R3|exact R4].
  - destruct (Hrest true) as (R1 & R2 & R3 & R4); [auto|discriminate|].
    eexists plan, st1, _, (buildInitCommands W (tp_envFile plan) (tp_cwd plan) true).
    split; [exact Hs|]. cbv zeta.
    split; [exact R1|]. split; [exact Hg|].
    split; [right; left; split; [exact E|reflexivity]|].
    split; [rewrite T; unfold initEventsOf, actionEvent; reflexivity|].
    split; [exact R2|]. split; [exact R3|exact R4].
  - destruct (Hrest true) as (R1 & R2 & R3 & R4); [auto|discriminate|].
    eexists plan, st1, _, (buildInitCommands W (tp_envFile plan) (tp_cwd plan) true).
    split; [exact Hs|]. cbv zeta.
    split; [exact R1|]. split; [exact Hg|].
    split; [right; right; split; [exact E|reflexivity]|].
    split; [rewrite T; unfold initEventsOf, actionEvent; reflexivity|].
    split; [exact R2|]. split; [exact R3|exact R4].
  - exfalso. destruct Hcls as [(A & _)|[(_ & A & _)|(_ & _ & A & _)]]; congruence.
Qed.

(** C7. A failing identity step is fatal and leaves no trace. When the
    validator of the resolved Unix user throws (the mode requires a user and
    none resolves, or the resolved user does not exist), [create] throws: for
    a [UnixUserNotFoundError] a new error whose message is the validator's
    message, which names the missing user, followed by the advice to create
    the user; any other thrown value as it is. Before that [create] has done
    nothing to the outside world (no PTY is spawned, no command run), and the
    table of terminals, the batchers and the cache are as before. *)
Theorem create_identity_failure_is_atomic (data : CreateTerminalData)
  (params : option AuthenticatedParams) (st : State) (config : Config)
  (finalUnixUser : option string) (e : Thrown) :
  let mode := match unix_user_mode config with Some m => m | None => "simple" end in
  w_loadConfig W (trace st) = Ok config ->
  w_resolveUnixUserForImpersonation W mode
    (mappedUnixUserOf W (trace st) (authenticatedUserIdOf params))
    (executor_unix_user config) = Ok finalUnixUser ->
  w_validateResolvedUnixUser W (trace st) mode finalUnixUser = Throw e ->
  exists st',
    create W data params st = (Throw (identityError e), st')
    /\ (forall message, e = ErrorObj UnixUserNotFoundError message ->
          identityError e
          = newError (message +:+
              ". Ensure the Unix user is created before attempting terminal access."))
    /\ trace st' = trace st
    /\ sessions st' = sessions st
    /\ batchers st' = batchers st
    /\ tabsCache st' = tabsCache st
    /\ existsCache st' = existsCache st.
Proof.
  intros mode Hcfg Hres Hval.
  destruct (create_resolveIdentity_spec (authenticatedUserIdOf params) st)
    as (st' & (L1 & L2 & L3 & L4 & L5) & Hrun).
  rewrite Hcfg in Hrun. cbv zeta in Hrun. fold mode in Hrun.
  rewrite Hres, Hval in Hrun.
  exists st'. split.
  - unfold create, create_setup.
    unfold bind at 1. unfold bind at 1, gets at 1. unfold bind at 1, gets at 1.
    cbv zeta. unfold bind at 1. rewrite Hrun. reflexivity.
  - split; [intros message ->; reflexivity|]. repeat split; assumption.
Qed.

(** C8, as amended. The name of the Zellij session that [create] computes
    and returns is a function of the resolved user id alone ([data.userId],
    else the id of the authenticated user): [agor-] followed by the short id
    of the user, or [agor-shared] when there is no user. Two calls with the
    same resolved user id return the same name, whatever their worktree,
    working directory, shell and dimensions, whatever the state of the
    service, and whatever Unix user they run as. *)
Theorem session_name_is_per_user (data1 data2 : CreateTerminalData)
  (params1 params2 : option AuthenticatedParams) (st1 st1' st2 st2' : State)
  (result1 result2 : CreateResult) :
  resolvedUserIdOf data1 params1 = resolvedUserIdOf data2 params2 ->
  create W data1 params1 st1 = (Ok result1, st1') ->
  create W data2 params2 st2 = (Ok result2, st2') ->
  cr_zellijSession result1 = cr_zellijSession result2
  /\ cr_zellijSession result1
     = "agor-" +:+ (if Js.truthy (resolvedUserIdOf data1 params1)
                    then w_formatShortId W
                           (Js.orElse (resolvedUserIdOf data1 params1) EmptyString)
                    else "shared").
Proof.
  intros Hsame H1 H2.
  destruct (create_ok_inv _ _ _ _ _ H1) as (p1 & s1 & Hs1 & _ & ->).
  destruct (create_ok_inv _ _ _ _ _ H2) as (p2 & s2 & Hs2 & _ & ->).
  destruct (create_setup_plan _ _ _ _ _ Hs1) as (N1 & _).
  destruct (create_setup_plan _ _ _ _ _ Hs2) as (N2 & _).
  cbn [cr_zellijSession]. rewrite N1, N2, Hsame. split; [reflexivity|].
  unfold zellijSessionOf, userSessionSuffixOf.
  destruct (Js.truthy (resolvedUserIdOf data2 params2)); reflexivity.
Qed.

End Create.

Lemma create_invalidates_after_tab_mutation_witness :
  exists result st' plan st1,
    create Demo.quiet Demo.noData None Demo.empty = (Ok result, st')
    /\ create_setup Demo.quiet Demo.noData None Demo.empty = (Ok plan, st1)
    /\ grows (setupEvent (cr_zellijSession result) (tp_asUser plan)) Demo.empty st1.
Proof.
  destruct (create Demo.quiet Demo.noData None Demo.empty) as [[result|e] st'] eqn:H.
  - destruct (create_invalidates_after_tab_mutation Demo.quiet _ _ _ _ _ H)
      as (plan & st1 & Hs & Hg & _).
    exists result, st', plan, st1. auto.
  - vm_compute in H. discriminate H.
Defined.

(** C3, as stated, fails: the session exists, the new tab is created, and
    going to it fails. [create] throws without having called [invalidate];
    the cached tab list, which lacks the new tab, stays, and a [getTabs]
    issued right after answers from it without asking Zellij. *)
Lemma create_keeps_stale_cache_when_navigation_fails :
  let run := create Demo.gotoFails Demo.noData None Demo.empty in
  let after := getTabs Demo.gotoFails "agor-shared" None (snd run) in
  fst run = Throw (newError "Zellij tab configuration failed: Command failed")
  /\ execsOf (trace (snd run))
     = [ listSessionsCommand; tabNamesCommand "agor-shared";
         actionCommand "agor-shared"
           ("new-tab --name " +:+ dquote "terminal" +:+ " --cwd " +:+ dquote "/home/agor");
         actionCommand "agor-shared" ("go-to-tab-name " +:+ dquote "terminal") ]
  /\ invalidationsOf (trace (snd run)) = []
  /\ fst after = Ok ["other"]
  /\ trace (snd after) = trace (snd run).
Proof. vm_compute. repeat split. Qed.

Lemma init_commands_end_with_line_feed_witness :
  exists result st' plan st1,
    create Demo.quiet (Demo.dataOfUser "7f3a9c1e-52b4-4d1c-9a77-0c2e5d8f1b36") None
      Demo.empty = (Ok result, st')
    /\ create_setup Demo.quiet (Demo.dataOfUser "7f3a9c1e-52b4-4d1c-9a77-0c2e5d8f1b36")
         None Demo.empty = (Ok plan, st1)
    /\ trace st'
       = trace st1
         ++ [ actionEvent "agor-7f3a9c1e" ("rename-tab " +:+ dquote "terminal") None;
              EvInvalidate "agor-7f3a9c1e:daemon";
              actionEvent "agor-7f3a9c1e"
                ("write-chars "
                 +:+ dquote ("[ -f '/tmp/agor-env-7f3a9c1e.sh' ] && source "
                             +:+ "'/tmp/agor-env-7f3a9c1e.sh' 2>/dev/null || true")) None;
              actionEvent "agor-7f3a9c1e" "write 10" None ].
Proof.
  destruct (create Demo.quiet (Demo.dataOfUser "7f3a9c1e-52b4-4d1c-9a77-0c2e5d8f1b36")
              None Demo.empty) as [[result|e] st'] eqn:H.
  2:{ vm_compute in H. discriminate H. }
  destruct (init_commands_end_with_line_feed Demo.quiet _ _ _ _ _ H)
    as (plan & st1 & tabEvents & cmds & Hs & Hc & _ & Hw & T & _).
  exists result, st', plan, st1. split; [reflexivity|]. split; [exact Hs|].
  assert (Hr : result = mkCreateResult "term-1700000000000-k3x9q2m1z" "/home/agor"
                          "agor-7f3a9c1e" false None /\ tp_sessionExists plan = false
               /\ tp_asUser plan = None /\ tp_tabName plan = "terminal"
               /\ tp_envFile plan = Some "/tmp/agor-env-7f3a9c1e.sh").
  { vm_compute in H. injection H as <- _. vm_compute in Hs. injection Hs as <- _.
    repeat split. }
  destruct Hr as (-> & E & U & N & F).
  cbn [cr_zellijSession cr_cwd] in *. rewrite E, U, N, F in *.
  destruct Hw as [(_ & ->)|[(A & _)|(A & _)]]; try discriminate A.
  rewrite T. subst cmds. reflexivity.
Defined.

(** C5, as stated, fails: the keystrokes are ended by [write 10], the line
    feed; no [write 13] is sent. *)
Lemma init_commands_are_not_ended_by_carriage_return :
  let run :=
    create Demo.quiet (Demo.dataOfUser "7f3a9c1e-52b4-4d1c-9a77-0c2e5d8f1b36") None
      Demo.empty in
  Demo.sessionNameOf run = Some "agor-7f3a9c1e"
  /\ last (execsOf (trace (snd run))) = Some (actionCommand "agor-7f3a9c1e" "write 10")
  /\ existsb (Js.includes "write 13") (execsOf (trace (snd run))) = false.
Proof. vm_compute. repeat split. Qed.

Lemma create_identity_failure_is_atomic_witness :
  exists st',
    create Demo.strict Demo.noData None Demo.empty
    = (Throw (newError
         ("No Unix user resolved for mode always-impersonate-with-fallback"
          +:+ ". Ensure the Unix user is created before attempting terminal access.")),
       st')
    /\ trace st' = [] /\ sessions st' = [].
Proof.
  destruct (create_identity_failure_is_atomic Demo.strict Demo.noData None Demo.empty
              (mkConfig (Some "always-impersonate-with-fallback") None) None
              (ErrorObj UnixUserNotFoundError
                 "No Unix user resolved for mode always-impersonate-with-fallback")
              eq_refl eq_refl eq_refl)
    as (st' & H & _ & Ht & Hs & _).
  exists st'. auto.
Defined.

(** The other failure of the identity step: the user is mapped to a Unix
    user that does not exist. *)
Example create_fails_for_unknown_unix_user :
  fst (create Demo.unknownUser Demo.noData (Demo.userParams "7f3a9c1e") Demo.empty)
  = Throw (newError
      "Unix user not found: alice. Ensure the Unix user is created before attempting terminal access.")
  /\ trace (snd (create Demo.unknownUser Demo.noData (Demo.userParams "7f3a9c1e")
                   Demo.empty)) = [].
Proof. vm_compute. split; reflexivity. Qed.

Lemma session_name_is_per_user_witness :
  exists result1 result2 st1 st2,
    create Demo.quiet
      (Demo.dataOfWorktree "7f3a9c1e-52b4-4d1c-9a77-0c2e5d8f1b36" "feature-a") None
      Demo.empty = (Ok result1, st1)
    /\ create Demo.quiet Demo.noData
         (Demo.userParams "7f3a9c1e-52b4-4d1c-9a77-0c2e5d8f1b36") Demo.twoTerminals
       = (Ok result2, st2)
    /\ cr_zellijSession result1 = cr_zellijSession result2
    /\ cr_zellijSession result1 = "agor-7f3a9c1e".
Proof.
  destruct (create Demo.quiet
              (Demo.dataOfWorktree "7f3a9c1e-52b4-4d1c-9a77-0c2e5d8f1b36" "feature-a")
              None Demo.empty) as [[result1|e] st1] eqn:H1.
  2:{ vm_compute in H1. discriminate H1. }
  destruct (create Demo.quiet Demo.noData
              (Demo.userParams "7f3a9c1e-52b4-4d1c-9a77-0c2e5d8f1b36")
              Demo.twoTerminals) as [[result2|e] st2] eqn:H2.
  2:{ vm_compute in H2. discriminate H2. }
  destruct (session_name_is_per_user Demo.quiet
              (Demo.dataOfWorktree "7f3a9c1e-52b4-4d1c-9a77-0c2e5d8f1b36" "feature-a")
              Demo.noData None (Demo.userParams "7f3a9c1e-52b4-4d1c-9a77-0c2e5d8f1b36")
              _ _ _ _ _ _ eq_refl H1 H2)
    as (Hsame & Hname).
  exists result1, result2, st1, st2. auto.
Defined.

(** C8, as stated, fails: two users whose terminals run as the same Unix
    user get two sessions. *)
Lemma session_name_differs_under_one_acting_identity :
  Demo.actingIdentityOf
    (create_setup Demo.insulated (Demo.dataOfUser "a11ce000-0000-4000-8000-000000000001")
       None Demo.empty) = Some (Some "agor_executor")
  /\ Demo.actingIdentityOf
       (create_setup Demo.insulated (Demo.dataOfUser "b0b00000-0000-4000-8000-000000000002")
          None Demo.empty) = Some (Some "agor_executor")
  /\ Demo.sessionNameOf
       (create Demo.insulated (Demo.dataOfUser "a11ce000-0000-4000-8000-000000000001")
          None Demo.empty) = Some "agor-a11ce000"
  /\ Demo.sessionNameOf
       (create Demo.insulated (Demo.dataOfUser "b0b00000-0000-4000-8000-000000000002")
          None Demo.empty) = Some "agor-b0b00000".
Proof. vm_compute. repeat split. Qed.

(* ===================================================================== *)
(** * The table of terminals: [get], [patch], [remove], the exit handler *)
(* ===================================================================== *)

Lemma map_get_delete_eq {A} (k : string) (m : list (string * A)) :
  map_get k (map_delete k m) = None.
Proof.
  induction m as [|[k' v] m IH]; [reflexivity|]. cbn.
  destruct (String.eqb k k') eqn:E; [exact IH|]. cbn. now rewrite E.
Qed.

Lemma map_get_delete_ne {A} (k k' : string) (m : list (string * A)) :
  k <> k' -> map_get k' (map_delete k m) = map_get k' m.
Proof.
  intros Hne. induction m as [|[k0 v] m IH]; [reflexivity|]. cbn.
  destruct (String.eqb k k0) eqn:E.
  - apply String.eqb_eq in E. subst k0.
    destruct (String.eqb k' k) eqn:E'; [apply String.eqb_eq in E'; congruence | exact IH].
  - cbn. now rewrite IH.
Qed.

Lemma map_get_set_eq {A} (k : string) (v : A) (m : list (string * A)) :
  map_get k (map_set k v m) = Some v.
Proof.
  induction m as [|[k' v'] m IH]; cbn.
  - now rewrite String.eqb_refl.
  - destruct (String.eqb k k') eqn:E; cbn.
    + now rewrite String.eqb_refl.
    + now rewrite E.
Qed.

Lemma map_get_set_ne {A} (k k' : string) (v : A) (m : list (string * A)) :
  k <> k' -> map_get k' (map_set k v m) = map_get k' m.
Proof.
  intros Hne. induction m as [|[k0 v0] m IH]; cbn.
  - destruct (String.eqb k' k) eqn:E; [apply String.eqb_eq in E; congruence | reflexivity].
  - destruct (String.eqb k k0) eqn:E; cbn.
    + apply String.eqb_eq in E. subst k0.
      destruct (String.eqb k' k) eqn:E'; [apply String.eqb_eq in E'; congruence | reflexivity].
    + now rewrite IH.
Qed.

(** The keys of the table keep their order under an update of a present
    key. *)
Lemma map_set_keys {A} (k : string) (v v0 : A) (m : list (string * A)) :
  map_get k m = Some v0 -> map fst (map_set k v m) = map fst m.
Proof.
  induction m as [|[k' v'] m IH]; cbn; [discriminate|].
  destruct (String.eqb k k') eqn:E.
  - apply String.eqb_eq in E. now subst.
  - intros H. cbn. now rewrite IH.
Qed.

Section Table.

Variable W : World.

(** X1. [remove] of a registered terminal whose PTY lets itself be killed:
    the buffered output is emitted first, then SIGTERM is sent, and nothing
    else is done to the outside world; the id is returned; the terminal is
    gone from the table (a [get] right after fails with not-found) and every
    other terminal is as before; the batcher is left empty with no timer. *)
Theorem remove_releases_the_terminal (id : string) (st : State)
  (session : TerminalSession) (b : TerminalDataBatcher) :
  map_get id (sessions st) = Some session ->
  batchers st !! ts_batcher session = Some b ->
  (forall tr, w_ptyKill W tr (ts_pty session) "SIGTERM" = Ok tt) ->
  exists st',
    remove W id st = (Ok id, st')
    /\ trace st' = trace st ++ flushEvents b ++ [EvPtyKill (ts_pty session) "SIGTERM"]
    /\ map_get id (sessions st') = None
    /\ (forall id', id' <> id -> map_get id' (sessions st') = map_get id' (sessions st))
    /\ released st' (ts_batcher session)
    /\ get id st' = (Throw (notFound id), st').
Proof.
  intros Hs Hb Hk. unfold remove, bind at 1, gets at 1. rewrite Hs.
  destruct (flush_spec W _ st b Hb) as (s1 & h & Hf & Hb1 & _ & _ & _ & Ht1 & (S1 & _)).
  destruct (destroy_spec _ s1 _ Hb1) as (s2 & Hd & Hb2 & _ & Ht2 & (S2 & _)).
  rewrite (bind_ok _ _ _ _ _ Hf), (bind_ok _ _ _ _ _ Hd).
  unfold bind, ptyKill, perform, modify, ret. rewrite Hk.
  eexists. split; [reflexivity|].
  cbn [trace sessions batchers record set_sessions].
  split; [rewrite Ht2, Ht1; unfold flushEvents; now rewrite <- app_assoc|].
  split; [apply map_get_delete_eq|].
  split; [intros id' Hne; rewrite S2, S1; now apply map_get_delete_ne|].
  split; [exists h; exact Hb2|].
  unfold get, bind, gets. cbn [sessions set_sessions record].
  now rewrite map_get_delete_eq.
Qed.

(** X2. [remove] is not undone when the kill fails: the exception of [kill]
    leaves [remove], the terminal stays in the table, and its batcher has
    already been flushed and emptied. *)
Theorem remove_keeps_the_terminal_when_kill_throws (id : string) (st : State)
  (session : TerminalSession) (b : TerminalDataBatcher) (e : Thrown) :
  map_get id (sessions st) = Some session ->
  batchers st !! ts_batcher session = Some b ->
  (forall tr, w_ptyKill W tr (ts_pty session) "SIGTERM" = Throw e) ->
  exists st',
    remove W id st = (Throw e, st')
    /\ trace st' = trace st ++ flushEvents b ++ [EvPtyKill (ts_pty session) "SIGTERM"]
    /\ sessions st' = sessions st
    /\ released st' (ts_batcher session).
Proof.
  intros Hs Hb Hk. unfold remove, bind at 1, gets at 1. rewrite Hs.
  destruct (flush_spec W _ st b Hb) as (s1 & h & Hf & Hb1 & _ & _ & _ & Ht1 & (S1 & _)).
  destruct (destroy_spec _ s1 _ Hb1) as (s2 & Hd & Hb2 & _ & Ht2 & (S2 & _)).
  rewrite (bind_ok _ _ _ _ _ Hf), (bind_ok _ _ _ _ _ Hd).
  unfold bind, ptyKill, perform. rewrite Hk.
  eexists. split; [reflexivity|].
  cbn [trace sessions batchers record].
  split; [rewrite Ht2, Ht1; unfold flushEvents; now rewrite <- app_assoc|].
  split; [congruence|]. exists h. exact Hb2.
Qed.

(** X3. [patch] of a registered terminal. The input, when given, is written
    to the PTY as it is; if that write throws, nothing else happens. The
    resize, when given, is stored in the session before the PTY is told, so
    the stored dimensions are the new ones whether or not the resize of the
    PTY throws, and the PTY is told exactly once, with those values. No
    other terminal changes, and the order of the table stays. *)
Theorem patch_writes_then_resizes (id : string) (data : PatchData) (st : State)
  (session : TerminalSession) :
  map_get id (sessions st) = Some session ->
  let pty := ts_pty session in
  let written :=
    match p_input data with Some input => [EvPtyWrite pty input] | None => [] end in
  let writeOutcome :=
    match p_input data with
    | Some input => w_ptyWrite W (trace st) pty input
    | None => Ok tt
    end in
  exists st',
    match writeOutcome with
    | Throw e =>
        patch W id data st = (Throw e, st')
        /\ trace st' = trace st ++ written
        /\ sessions st' = sessions st
    | Ok _ =>
        match p_resize data with
        | None =>
            patch W id data st = (Ok tt, st')
            /\ trace st' = trace st ++ written
            /\ sessions st' = sessions st
        | Some rs =>
            patch W id data st
            = (w_ptyResize W (trace st ++ written) pty (r_cols rs) (r_rows rs), st')
            /\ trace st' = trace st ++ written ++ [EvPtyResize pty (r_cols rs) (r_rows rs)]
            /\ map_get id (sessions st')
               = Some (resized session (r_cols rs) (r_rows rs))
            /\ (forall id', id' <> id ->
                  map_get id' (sessions st') = map_get id' (sessions st))
            /\ map fst (sessions st') = map fst (sessions st)
        end
    end.
Proof.
  intros Hs pty written writeOutcome. subst written writeOutcome pty.
  destruct data as [[input|] [rs|]]; cbn [p_input p_resize];
    unfold patch, bind, gets, perform, modify, ret; cbn [p_input p_resize];
    rewrite Hs; try destruct (w_ptyWrite W (trace st) (ts_pty session) input) as [[]|e];
    eexists; rewrite ?app_nil_r;
    repeat (cbn [trace sessions record set_sessions]; match goal with
           | |- _ /\ _ => split
           | |- map_get ?k (map_set ?k _ _) = _ => apply map_get_set_eq
           | |- forall id', _ -> _ => intros id' Hne; now apply map_get_set_ne
           | |- map fst (map_set _ _ _) = _ => eapply map_set_keys; exact Hs
           | |- _ = _ => first [reflexivity | now rewrite <- app_assoc]
           end).
Qed.

(** X4. An unknown id: [get], [patch] and [remove] throw the error
    [Terminal <id> not found] and leave the state as it is; no PTY is written
    to, resized or killed, whatever the patch asks for. *)
Theorem unknown_terminal_is_not_found (id : string) (data : PatchData) (st : State) :
  map_get id (sessions st) = None ->
  get id st = (Throw (newError ("Terminal " +:+ id +:+ " not found")), st)
  /\ patch W id data st = (Throw (newError ("Terminal " +:+ id +:+ " not found")), st)
  /\ remove W id st = (Throw (newError ("Terminal " +:+ id +:+ " not found")), st).
Proof.
  intros H. unfold get, patch, remove, bind, gets. rewrite H. repeat split.
Qed.

(** X5. The exit handler of a PTY never throws and always lets the terminal
    go: the buffered output is emitted, then the exit event with the exit
    code; the terminal is removed from the table and its batcher is left
    empty with no timer, also when emitting the exit event fails. *)
Theorem exit_handler_always_removes_the_terminal (terminalId : string) (r : nat)
  (exitCode : Z) (st : State) (b : TerminalDataBatcher) :
  batchers st !! r = Some b ->
  exists st',
    ptyOnExit W terminalId r exitCode st = (Ok tt, st')
    /\ trace st' = trace st ++ flushEvents b ++ [EvEmitExit terminalId exitCode]
    /\ map_get terminalId (sessions st') = None
    /\ (forall id', id' <> terminalId ->
          map_get id' (sessions st') = map_get id' (sessions st))
    /\ released st' r.
Proof.
  intros Hb. unfold ptyOnExit, tryCatch.
  destruct (flush_spec W _ st b Hb) as (s1 & h & Hf & Hb1 & _ & _ & _ & Ht1 & (S1 & _)).
  destruct (destroy_spec _ s1 _ Hb1) as (s2 & Hd & Hb2 & _ & Ht2 & (S2 & _)).
  rewrite (bind_ok _ _ _ _ _ Hf), (bind_ok _ _ _ _ _ Hd).
  unfold bind at 1, modify at 1. unfold bind at 1, modify at 1. unfold perform.
  cbn [trace log set_sessions].
  destruct (w_emitExit W (trace s2) terminalId exitCode) as [[]|e].
  - eexists. split; [reflexivity|].
    cbn [trace sessions batchers record set_sessions log].
    split; [rewrite Ht2, Ht1; unfold flushEvents; now rewrite <- app_assoc|].
    split; [apply map_get_delete_eq|].
    split; [intros id' Hne; rewrite S2, S1; now apply map_get_delete_ne|].
    exists h. exact Hb2.
  - unfold bind at 1, modify at 1.
    match goal with
    | |- context [bind (Batcher_destroy r) _ ?s] =>
        destruct (destroy_spec r s (mkBatcher EmptyString false h))
          as (s3 & Hd3 & Hb3 & _ & Ht3 & (S3 & _)); [exact Hb2|]
    end.
    rewrite (bind_ok _ _ _ _ _ Hd3). unfold modify.
    eexists. split; [reflexivity|].
    cbn [trace sessions batchers record set_sessions log onFlush] in *.
    split; [rewrite Ht3, Ht2, Ht1; unfold flushEvents; now rewrite <- app_assoc|].
    split; [apply map_get_delete_eq|].
    split.
    { intros id' Hne. rewrite map_get_delete_ne by congruence.
      rewrite S3. rewrite map_get_delete_ne by congruence. now rewrite S2, S1. }
    exists h. exact Hb3.
Qed.

End Table.


Lemma remove_releases_the_terminal_witness :
  exists st',
    remove Demo.quiet "term-1" Demo.twoTerminals = (Ok "term-1", st')
    /\ trace st' = [EvEmitData "term-1" "ls"; EvPtyKill 1 "SIGTERM"]
    /\ map_get "term-1" (sessions st') = None
    /\ get "term-1" st' = (Throw (notFound "term-1"), st').
Proof.
  destruct (remove_releases_the_terminal Demo.quiet "term-1" Demo.twoTerminals
              (Demo.session "term-1" 1 0) (mkBatcher "ls" true (EmitData "term-1"))
              eq_refl ltac:(vm_compute; reflexivity) (fun _ => eq_refl))
    as (st' & H1 & H2 & H3 & _ & _ & H6).
  exists st'. auto.
Defined.

Lemma remove_keeps_the_terminal_when_kill_throws_witness :
  exists st',
    remove Demo.killFails "term-1" Demo.twoTerminals = (Throw (newError "kill ESRCH"), st')
    /\ sessions st' = sessions Demo.twoTerminals.
Proof.
  destruct (remove_keeps_the_terminal_when_kill_throws Demo.killFails "term-1"
              Demo.twoTerminals (Demo.session "term-1" 1 0)
              (mkBatcher "ls" true (EmitData "term-1")) (newError "kill ESRCH")
              eq_refl ltac:(vm_compute; reflexivity) (fun _ => eq_refl))
    as (st' & H1 & _ & H3 & _).
  exists st'. auto.
Defined.

Lemma patch_writes_then_resizes_witness :
  exists st',
    patch Demo.quiet "term-2" (mkPatch (Some "ls") (Some (mkResize 40 120)))
      Demo.twoTerminals = (Ok tt, st')
    /\ trace st' = [EvPtyWrite 2 "ls"; EvPtyResize 2 120 40]
    /\ map_get "term-2" (sessions st')
       = Some (resized (Demo.session "term-2" 2 1) 120 40).
Proof.
  destruct (patch_writes_then_resizes Demo.quiet "term-2"
              (mkPatch (Some "ls") (Some (mkResize 40 120))) Demo.twoTerminals
              (Demo.session "term-2" 2 1) eq_refl) as (st' & H).
  hnf in H. destruct H as (H1 & H2 & H3 & _).
  exists st'. auto.
Defined.

Lemma unknown_terminal_is_not_found_witness :
  get "term-9" Demo.twoTerminals
  = (Throw (newError "Terminal term-9 not found"), Demo.twoTerminals)
  /\ remove Demo.quiet "term-9" Demo.twoTerminals
     = (Throw (newError "Terminal term-9 not found"), Demo.twoTerminals).
Proof.
  destruct (unknown_terminal_is_not_found Demo.quiet "term-9" (mkPatch None None)
              Demo.twoTerminals eq_refl) as (H1 & _ & H3).
  split; assumption.
Defined.

Lemma exit_handler_always_removes_the_terminal_witness :
  exists st',
    ptyOnExit Demo.quiet "term-1" 0 0 Demo.twoTerminals = (Ok tt, st')
    /\ trace st' = [EvEmitData "term-1" "ls"; EvEmitExit "term-1" 0]
    /\ map_get "term-1" (sessions st') = None.
Proof.
  destruct (exit_handler_always_removes_the_terminal Demo.quiet "term-1" 0 0
              Demo.twoTerminals (mkBatcher "ls" true (EmitData "term-1"))
              ltac:(vm_compute; reflexivity))
    as (st' & H1 & H2 & H3 & _).
  exists st'. auto.
Defined.

(* ===================================================================== *)
(** * The Zellij session cache: hits, refreshes, invalidation, keys *)
(* ===================================================================== *)

Section CacheReads.

Variable W : World.

(** The query for the sessions touches neither the table nor the cache. *)
Lemma zellijSessionExistsAsync_frame (zs : string) (asUser : option string)
  (st : State) :
  exists v st', zellijSessionExistsAsync W zs asUser st = (Ok v, st')
    /\ trace st' = trace st
         ++ [EvExec (fullCommandOf listSessionsCommand asUser) ZELLIJ_COMMAND_TIMEOUT_MS]
    /\ sessions st' = sessions st /\ batchers st' = batchers st
    /\ tabsCache st' = tabsCache st /\ existsCache st' = existsCache st.
Proof.
  unfold zellijSessionExistsAsync, tryCatch, bind, runAsUserAsync, perform.
  destruct (w_execAsync W (trace st) (fullCommandOf listSessionsCommand asUser)
              ZELLIJ_COMMAND_TIMEOUT_MS) as [output|e].
  - eexists _, _. repeat split.
  - destruct e as [cls m|t].
    + destruct (Js.includes "ETIMEDOUT" m); eexists _, _; repeat split.
    + eexists _, _. repeat split.
Qed.

Lemma fetchTabs_frame (zs : string) (asUser : option string) (st : State) :
  exists v st', fetchTabs W zs asUser st = (Ok v, st')
    /\ trace st' = trace st
         ++ [EvExec (fullCommandOf (tabNamesCommand zs) asUser) ZELLIJ_COMMAND_TIMEOUT_MS]
    /\ sessions st' = sessions st /\ batchers st' = batchers st
    /\ tabsCache st' = tabsCache st /\ existsCache st' = existsCache st.
Proof.
  unfold fetchTabs, tryCatch, bind, runAsUserAsync, perform.
  destruct (w_execAsync W (trace st) (fullCommandOf (tabNamesCommand zs) asUser)
              ZELLIJ_COMMAND_TIMEOUT_MS) as [output|e].
  - eexists _, _. repeat split.
  - destruct (Js.includes "ETIMEDOUT" (messageOf e)); eexists _, _; repeat split.
Qed.

(** X6. Reads within the TTL. In every state whose cache holds, for the
    session and identity asked for, an entry younger than
    [TAB_CACHE_TTL_MS] by the clock of that state, [sessionExists] (and
    [getTabs]) return the cached value, run no command and leave the state
    as it is, whatever has happened since the entry was stored. And every
    read, served from the cache or not, leaves for its key an entry that
    holds its answer and is younger than the TTL at the time of the read;
    this holds as well when the answer is the default of a failed query,
    which is cached like any other. *)
Theorem cache_answers_repeated_reads (zs : string) (asUser : option string)
  (st : State) :
  let key := getCacheKey zs asUser in
  let now := w_now W (trace st) in
  (forall v timestamp,
     existsCache st !! key = Some (v, timestamp) -> now - timestamp < TAB_CACHE_TTL_MS ->
     sessionExists W zs asUser st = (Ok v, st))
  /\ (forall tabs timestamp,
        tabsCache st !! key = Some (tabs, timestamp) -> now - timestamp < TAB_CACHE_TTL_MS ->
        getTabs W zs asUser st = (Ok tabs, st))
  /\ (forall v st1,
        sessionExists W zs asUser st = (Ok v, st1) ->
        exists timestamp,
          existsCache st1 !! key = Some (v, timestamp)
          /\ now - timestamp < TAB_CACHE_TTL_MS)
  /\ (forall tabs st1,
        getTabs W zs asUser st = (Ok tabs, st1) ->
        exists timestamp,
          tabsCache st1 !! key = Some (tabs, timestamp)
          /\ now - timestamp < TAB_CACHE_TTL_MS).
Proof.
  intros key now. split; [|split; [|split]].
  - intros v t Hc Hy. unfold sessionExists, bind, gets. fold key. fold now.
    rewrite Hc. cbn [freshEntry]. apply Z.ltb_lt in Hy. now rewrite Hy.
  - intros tabs t Hc Hy. unfold getTabs, bind, gets. fold key. fold now.
    rewrite Hc. cbn [freshEntry]. apply Z.ltb_lt in Hy. now rewrite Hy.
  - intros v st1 H. unfold sessionExists, bind, gets in H. fold key in H. fold now in H.
    destruct (existsCache st !! key) as [[v0 t]|] eqn:Hc; cbn [freshEntry] in H.
    + destruct (now - t <? TAB_CACHE_TTL_MS) eqn:Hy.
      * injection H as <- <-. exists t. split; [exact Hc|now apply Z.ltb_lt].
      * destruct (zellijSessionExistsAsync_frame zs asUser st) as (v1 & s1 & H1 & _).
        rewrite H1 in H. unfold modify, ret in H. injection H as <- <-.
        exists now. cbn [existsCache set_existsCache].
        split; [apply lookup_insert_eq|]. rewrite Z.sub_diag. reflexivity.
    + destruct (zellijSessionExistsAsync_frame zs asUser st) as (v1 & s1 & H1 & _).
      rewrite H1 in H. unfold modify, ret in H. injection H as <- <-.
      exists now. cbn [existsCache set_existsCache].
      split; [apply lookup_insert_eq|]. rewrite Z.sub_diag. reflexivity.
  - intros tabs st1 H. unfold getTabs, bind, gets in H. fold key in H. fold now in H.
    destruct (tabsCache st !! key) as [[v0 t]|] eqn:Hc; cbn [freshEntry] in H.
    + destruct (now - t <? TAB_CACHE_TTL_MS) eqn:Hy.
      * injection H as <- <-. exists t. split; [exact Hc|now apply Z.ltb_lt].
      * destruct (fetchTabs_frame zs asUser st) as (v1 & s1 & H1 & _).
        rewrite H1 in H. unfold modify, ret in H. injection H as <- <-.
        exists now. cbn [tabsCache set_tabsCache].
        split; [apply lookup_insert_eq|]. rewrite Z.sub_diag. reflexivity.
    + destruct (fetchTabs_frame zs asUser st) as (v1 & s1 & H1 & _).
      rewrite H1 in H. unfold modify, ret in H. injection H as <- <-.
      exists now. cbn [tabsCache set_tabsCache].
      split; [apply lookup_insert_eq|]. rewrite Z.sub_diag. reflexivity.
Qed.

(** X7. Refreshing the cache. An entry is served only while it is strictly
    younger than [TAB_CACHE_TTL_MS]. When there is none, or it is that old
    or older, [sessionExists] runs the query exactly once, with the timeout
    [ZELLIJ_COMMAND_TIMEOUT_MS], and stores the answer under the key of the
    session and identity with the time read before the query; the entries of
    other keys, the cache of tab lists, the table and the batchers are as
    before. *)
Theorem sessionExists_refreshes_a_stale_entry (zs : string) (asUser : option string)
  (st : State) :
  let key := getCacheKey zs asUser in
  let now := w_now W (trace st) in
  (existsCache st !! key = None
   \/ exists v0 timestamp, existsCache st !! key = Some (v0, timestamp)
        /\ TAB_CACHE_TTL_MS <= now - timestamp) ->
  exists v st',
    sessionExists W zs asUser st = (Ok v, st')
    /\ trace st' = trace st
         ++ [EvExec (fullCommandOf listSessionsCommand asUser) ZELLIJ_COMMAND_TIMEOUT_MS]
    /\ existsCache st' = <[key := (v, now)]> (existsCache st)
    /\ (forall k, k <> key -> existsCache st' !! k = existsCache st !! k)
    /\ tabsCache st' = tabsCache st
    /\ sessions st' = sessions st
    /\ batchers st' = batchers st.
Proof.
  intros key now Hstale.
  assert (Hf : freshEntry (existsCache st !! key) now = None).
  { destruct Hstale as [->|(v0 & ts & -> & Hold)]; [reflexivity|].
    cbn [freshEntry]. apply Z.ltb_ge in Hold. now rewrite Hold. }
  destruct (zellijSessionExistsAsync_frame zs asUser st)
    as (v & s1 & H1 & T1 & S1 & B1 & C1 & E1).
  exists v. unfold sessionExists, bind, gets. fold key. fold now.
  rewrite Hf, H1. unfold modify, ret. eexists. split; [reflexivity|].
  cbn [trace existsCache tabsCache sessions batchers set_existsCache].
  rewrite E1. split; [exact T1|]. split; [reflexivity|].
  split; [intros k Hk; now apply lookup_insert_ne|].
  split; [exact C1|]. split; [exact S1|exact B1].
Qed.

(** X8. [invalidate] drops the two entries of its key and nothing else: the
    entries of every other key, the table and the batchers are as before;
    and the next [sessionExists] and the next [getTabs] for that session and
    identity each query Zellij. *)
Theorem invalidate_drops_only_its_key (zs : string) (asUser : option string)
  (st : State) :
  let key := getCacheKey zs asUser in
  exists st',
    invalidate zs asUser st = (Ok tt, st')
    /\ tabsCache st' = delete key (tabsCache st)
    /\ existsCache st' = delete key (existsCache st)
    /\ (forall k, k <> key ->
          tabsCache st' !! k = tabsCache st !! k
          /\ existsCache st' !! k = existsCache st !! k)
    /\ sessions st' = sessions st /\ batchers st' = batchers st
    /\ (exists v st2, sessionExists W zs asUser st' = (Ok v, st2)
          /\ execsOf (trace st2)
             = execsOf (trace st) ++ [fullCommandOf listSessionsCommand asUser])
    /\ (exists tabs st2, getTabs W zs asUser st' = (Ok tabs, st2)
          /\ execsOf (trace st2)
             = execsOf (trace st) ++ [fullCommandOf (tabNamesCommand zs) asUser]).
Proof.
  intros key. unfold invalidate, bind, modify. fold key.
  eexists. split; [reflexivity|].
  cbn [tabsCache existsCache sessions batchers set_tabsCache set_existsCache record].
  split; [reflexivity|]. split; [reflexivity|].
  split; [intros k Hne; split; now apply lookup_delete_ne|].
  split; [reflexivity|]. split; [reflexivity|].
  split.
  - unfold sessionExists, bind, gets. fold key.
    cbn [existsCache set_existsCache set_tabsCache record].
    rewrite lookup_delete_eq. cbn [freshEntry].
    match goal with
    | |- context [zellijSessionExistsAsync W zs asUser ?s] =>
        destruct (zellijSessionExistsAsync_frame zs asUser s) as (v & s1 & H1 & T1 & _)
    end.
    rewrite H1. unfold modify, ret. eexists _, _. split; [reflexivity|].
    cbn [trace set_existsCache set_tabsCache record] in *. rewrite T1.
    unfold execsOf. rewrite !flat_map_app. cbn. now rewrite app_nil_r.
  - unfold getTabs, bind, gets. fold key.
    cbn [tabsCache set_existsCache set_tabsCache record].
    rewrite lookup_delete_eq. cbn [freshEntry].
    match goal with
    | |- context [fetchTabs W zs asUser ?s] =>
        destruct (fetchTabs_frame zs asUser s) as (v & s1 & H1 & T1 & _)
    end.
    rewrite H1. unfold modify, ret. eexists _, _. split; [reflexivity|].
    cbn [trace set_existsCache set_tabsCache record] in *. rewrite T1.
    unfold execsOf. rewrite !flat_map_app. cbn. now rewrite app_nil_r.
Qed.

End CacheReads.

Lemma noColon_key_split (s1 s2 e1 e2 : string) :
  noColon s1 = true -> noColon s2 = true ->
  s1 +:+ ":" +:+ e1 = s2 +:+ ":" +:+ e2 -> s1 = s2 /\ e1 = e2.
Proof.
  revert s2. induction s1 as [|c s1 IH]; intros [|d s2] H1 H2 H.
  - now injection H.
  - exfalso. injection H as Hc _. subst d. cbn in H2. discriminate.
  - exfalso. injection H as Hc _. subst c. cbn in H1. discriminate.
  - cbn in H1, H2. apply andb_prop in H1 as (_ & H1). apply andb_prop in H2 as (_ & H2).
    injection H as -> H. destruct (IH s2 H1 H2 H) as (-> & ->). split; reflexivity.
Qed.

(** X9. The keys of the cache. For session names without a colon (those of
    [create] are [agor-] and a short id) two keys are equal only for the
    same session and the same identity, where no identity, the empty name
    and the Unix user [daemon] count as one identity: the key cannot tell a
    Unix user called [daemon] from the service's own identity. *)
Theorem cache_key_separates_sessions_and_identities (s1 s2 : string)
  (u1 u2 : option string) :
  noColon s1 = true -> noColon s2 = true ->
  (getCacheKey s1 u1 = getCacheKey s2 u2
   <-> s1 = s2 /\ Js.orElse u1 "daemon" = Js.orElse u2 "daemon")
  /\ getCacheKey s1 None = getCacheKey s1 (Some "daemon")
  /\ getCacheKey s1 None = getCacheKey s1 (Some EmptyString).
Proof.
  intros H1 H2. split; [|split; reflexivity].
  unfold getCacheKey. split.
  - now apply noColon_key_split.
  - intros (-> & ->). reflexivity.
Qed.

Lemma cache_answers_repeated_reads_witness :
  exists st1 tabs st2,
    sessionExists Demo.stuck "agor-shared" None Demo.empty = (Ok false, st1)
    /\ getTabs Demo.stuck "agor-shared" None st1 = (Ok tabs, st2)
    /\ execsOf (trace st2)
       = [fullCommandOf listSessionsCommand None;
          fullCommandOf (tabNamesCommand "agor-shared") None]
    /\ sessionExists Demo.stuck "agor-shared" None st2 = (Ok false, st2).
Proof.
  destruct (sessionExists Demo.stuck "agor-shared" None Demo.empty)
    as [[v|e] st1] eqn:H1.
  2:{ vm_compute in H1. discriminate H1. }
  destruct (getTabs Demo.stuck "agor-shared" None st1) as [[tabs|e] st2] eqn:H2.
  2:{ vm_compute in H1. injection H1 as _ <-. vm_compute in H2. discriminate H2. }
  assert (Hst : v = false
                /\ existsCache st2 !! getCacheKey "agor-shared" None
                   = Some (false, 1700000000000)
                /\ w_now Demo.stuck (trace st2) = 1700000000002
                /\ execsOf (trace st2)
                   = [fullCommandOf listSessionsCommand None;
                      fullCommandOf (tabNamesCommand "agor-shared") None]).
  { vm_compute in H1. injection H1 as <- <-. vm_compute in H2. injection H2 as _ <-.
    split; [reflexivity|]. split; [vm_compute; reflexivity|]. split; reflexivity. }
  destruct Hst as (-> & Hc & Hn & He).
  exists st1, tabs, st2. split; [reflexivity|]. split; [exact H2|].
  split; [exact He|].
  refine (proj1 (cache_answers_repeated_reads Demo.stuck "agor-shared" None st2)
            false 1700000000000 Hc _).
  rewrite Hn. reflexivity.
Defined.

Lemma sessionExists_refreshes_a_stale_entry_witness :
  exists v st',
    sessionExists Demo.sessionExists "agor-shared" None Demo.empty = (Ok v, st')
    /\ existsCache st' !! "agor-shared:daemon" = Some (v, 1700000000000).
Proof.
  destruct (sessionExists_refreshes_a_stale_entry Demo.sessionExists "agor-shared" None
              Demo.empty (or_introl eq_refl)) as (v & st' & H1 & _ & H3 & _).
  exists v, st'. split; [exact H1|]. rewrite H3. apply lookup_insert_eq.
Defined.

Lemma cache_key_separates_sessions_and_identities_witness :
  getCacheKey "agor-7f3a9c1e" (Some "alice") = getCacheKey "agor-7f3a9c1e" (Some "bob")
  <-> "agor-7f3a9c1e" = "agor-7f3a9c1e"
      /\ Js.orElse (Some "alice") "daemon" = Js.orElse (Some "bob") "daemon".
Proof.
  exact (proj1 (cache_key_separates_sessions_and_identities "agor-7f3a9c1e"
                  "agor-7f3a9c1e" (Some "alice") (Some "bob") eq_refl eq_refl)).
Defined.

(* ===================================================================== *)
(** * The output batcher: nothing is lost, [destroy] discards *)
(* ===================================================================== *)

Lemma emittedTo_app (t : string) (a b : list Event) :
  emittedTo t (a ++ b) = emittedTo t a +:+ emittedTo t b.
Proof.
  induction a as [|ev a IH]; [reflexivity|].
  cbn [app emittedTo]. destruct ev; try exact IH.
  destruct (String.eqb terminalId t); [|exact IH].
  now rewrite IH, append_assoc.
Qed.

Lemma emittedTo_one (t d : string) : emittedTo t [EvEmitData t d] = d.
Proof. cbn. now rewrite String.eqb_refl, append_nil_r. Qed.

Section BatcherOutput.

Variable W : World.

Lemma pushAll_conserves (r : nat) (chunks : list string) :
  forall (st : State) (b : TerminalDataBatcher),
  batchers st !! r = Some b ->
  exists st' b', Batcher_pushAll W r chunks st = (Ok tt, st')
    /\ batchers st' !! r = Some b'
    /\ handlerId (onFlush b') = handlerId (onFlush b)
    /\ emittedTo (handlerId (onFlush b)) (trace st') +:+ buffer b'
       = emittedTo (handlerId (onFlush b)) (trace st) +:+ buffer b +:+ concatChunks chunks.
Proof.
  induction chunks as [|data rest IH]; intros st b Hb.
  - exists st, b. cbn. rewrite append_nil_r. auto.
  - destruct (push_spec W r data st b Hb) as (s1 & b1 & Hp & Hb1 & Hid1 & _ & Hc & _).
    destruct (IH s1 b1 Hb1) as (st' & b' & Hq & Hb' & Hid & Heq).
    exists st', b'. cbn [Batcher_pushAll concatChunks].
    rewrite (bind_ok _ _ _ _ _ Hp). split; [exact Hq|]. split; [exact Hb'|].
    split; [congruence|]. rewrite Hid1 in Heq. rewrite Heq.
    destruct (MAX_BUFFER_SIZE <=? Js.length (buffer b +:+ data)).
    + destruct Hc as (-> & _ & ->).
      rewrite emittedTo_app, emittedTo_one, append_nil_l.
      now rewrite !append_assoc.
    + destruct Hc as (-> & _ & _ & ->). now rewrite !append_assoc.
Qed.

(** X10. The batcher loses nothing and keeps the order. After any sequence
    of pushes, what has been handed to the transport for the terminal,
    followed by what is still buffered, is what had been handed over and
    buffered before followed by the pushed chunks in order; and once the
    timer has fired, all of it has been handed over and the buffer is empty.
    This holds whether or not the transport accepts the emissions. *)
Theorem batcher_hands_over_every_byte_in_order (r : nat) (chunks : list string)
  (st : State) (b : TerminalDataBatcher) :
  batchers st !! r = Some b ->
  let t := handlerId (onFlush b) in
  exists st1 b1 st2,
    Batcher_pushAll W r chunks st = (Ok tt, st1)
    /\ batchers st1 !! r = Some b1
    /\ emittedTo t (trace st1) +:+ buffer b1
       = emittedTo t (trace st) +:+ buffer b +:+ concatChunks chunks
    /\ Batcher_timerFires W r st1 = (Ok tt, st2)
    /\ emittedTo t (trace st2)
       = emittedTo t (trace st) +:+ buffer b +:+ concatChunks chunks
    /\ released st2 r.
Proof.
  intros Hb t.
  destruct (pushAll_conserves r chunks st b Hb) as (st1 & b1 & Hp & Hb1 & Hid & Heq).
  destruct (flush_spec W r st1 b1 Hb1) as (st2 & h & Hf & Hb2 & _ & _ & _ & Ht & _).
  exists st1, b1, st2. split; [exact Hp|]. split; [exact Hb1|]. split; [exact Heq|].
  split; [exact Hf|]. split; [|exists h; exact Hb2].
  rewrite Ht, emittedTo_app. fold t in Heq. rewrite <- Heq. f_equal.
  destruct (0 <? Js.length (buffer b1)) eqn:Hlen.
  - rewrite Hid. apply emittedTo_one.
  - cbn. symmetry. apply length_zero_empty.
    pose proof (length_nonneg (buffer b1)). apply Z.ltb_ge in Hlen. lia.
Qed.

(** X11. [destroy] discards: whatever is buffered is dropped without being
    handed to the transport, the pending timer is cancelled, and a flush
    that comes afterwards emits nothing and changes nothing. *)
Theorem destroy_discards_buffered_output (r : nat) (st : State)
  (b : TerminalDataBatcher) :
  batchers st !! r = Some b ->
  exists st',
    Batcher_destroy r st = (Ok tt, st')
    /\ trace st' = trace st
    /\ batchers st' !! r = Some (mkBatcher EmptyString false (onFlush b))
    /\ Batcher_flush W r st' = (Ok tt, st').
Proof.
  intros Hb. destruct (destroy_spec r st b Hb) as (st' & Hd & Hb' & _ & Ht & _).
  exists st'. split; [exact Hd|]. split; [exact Ht|]. split; [exact Hb'|].
  now apply (flush_idle W r st' _ Hb').
Qed.

End BatcherOutput.

Lemma batcher_hands_over_every_byte_in_order_witness :
  exists st1 st2,
    Batcher_pushAll Demo.quiet 0 [" -la"; " /srv"] Demo.twoTerminals = (Ok tt, st1)
    /\ Batcher_timerFires Demo.quiet 0 st1 = (Ok tt, st2)
    /\ emittedTo "term-1" (trace st2) = "ls -la /srv".
Proof.
  destruct (batcher_hands_over_every_byte_in_order Demo.quiet 0 [" -la"; " /srv"]
              Demo.twoTerminals (mkBatcher "ls" true (EmitData "term-1"))
              ltac:(vm_compute; reflexivity))
    as (st1 & b1 & st2 & H1 & _ & _ & H4 & H5 & _).
  exists st1, st2. auto.
Defined.

Lemma destroy_discards_buffered_output_witness :
  exists st',
    Batcher_destroy 0 Demo.twoTerminals = (Ok tt, st')
    /\ trace st' = []
    /\ Batcher_flush Demo.quiet 0 st' = (Ok tt, st').
Proof.
  destruct (destroy_discards_buffered_output Demo.quiet 0 Demo.twoTerminals
              (mkBatcher "ls" true (EmitData "term-1")) ltac:(vm_compute; reflexivity))
    as (st' & H1 & H2 & _ & H4).
  exists st'. auto.
Defined.

(* ===================================================================== *)
(** * [create]: frames of its steps *)
(* ===================================================================== *)

Lemma bind_inv_any {A B} (m : M A) (f : A -> M B) (st : State) (o : Outcome B)
  (st' : State) :
  bind m f st = (o, st') ->
  (exists e, m st = (Throw e, st') /\ o = Throw e)
  \/ (exists a s, m st = (Ok a, s) /\ f a s = (o, st')).
Proof.
  unfold bind. destruct (m st) as [[a|e] s]; intros H.
  - right. eauto.
  - left. exists e. now inversion H.
Qed.

Lemma sameObjects_refl st : sameObjects st st.
Proof. repeat split. Qed.

Lemma sameObjects_trans a b c : sameObjects a b -> sameObjects b c -> sameObjects a c.
Proof. intros (A1 & A2 & A3) (B1 & B2 & B3). repeat split; congruence. Qed.

Section Preservation.

Context {A B : Type}.

Lemma pres_ret (a : A) : preserves sameObjects (ret a).
Proof. intros st o st' H. inversion H. apply sameObjects_refl. Qed.

Lemma pres_throw (e : Thrown) : preserves sameObjects (@throw A e).
Proof. intros st o st' H. inversion H. apply sameObjects_refl. Qed.

Lemma pres_gets (f : State -> A) : preserves sameObjects (gets f).
Proof. intros st o st' H. inversion H. apply sameObjects_refl. Qed.

Lemma pres_ask (q : list Event -> Outcome A) : preserves sameObjects (ask q).
Proof. intros st o st' H. inversion H. apply sameObjects_refl. Qed.

Lemma pres_bindOutcome (o : Outcome A) : preserves sameObjects (bindOutcome o).
Proof. intros st o' st' H. inversion H. apply sameObjects_refl. Qed.

Lemma pres_perform (ev : Event) (q : list Event -> Outcome A) :
  killsOf [ev] = [] -> preserves sameObjects (perform ev q).
Proof.
  intros Hev st o st' H. inversion H. repeat split.
  cbn [trace record]. rewrite killsOf_app, Hev. apply app_nil_r.
Qed.

Lemma pres_bind (m : M A) (f : A -> M B) :
  preserves sameObjects m -> (forall a, preserves sameObjects (f a)) ->
  preserves sameObjects (bind m f).
Proof.
  intros Hm Hf st o st' H.
  destruct (bind_inv_any _ _ _ _ _ H) as [(e & H1 & _)|(a & s & H1 & H2)].
  - exact (Hm _ _ _ H1).
  - exact (sameObjects_trans _ _ _ (Hm _ _ _ H1) (Hf _ _ _ _ H2)).
Qed.

Lemma pres_tryCatch (m : M A) (h : Thrown -> M A) :
  preserves sameObjects m -> (forall e, preserves sameObjects (h e)) ->
  preserves sameObjects (tryCatch m h).
Proof.
  intros Hm Hh st o st' H. unfold tryCatch in H.
  destruct (m st) as [[a|e] s] eqn:E.
  - inversion H; subst. exact (Hm _ _ _ E).
  - exact (sameObjects_trans _ _ _ (Hm _ _ _ E) (Hh _ _ _ _ H)).
Qed.

End Preservation.

Lemma pres_log (l : LogEntry) : preserves sameObjects (modify (log l)).
Proof. intros st o st' H. inversion H. repeat split. Qed.

Lemma pres_record (ev : Event) :
  killsOf [ev] = [] -> preserves sameObjects (modify (record ev)).
Proof.
  intros Hev st o st' H. inversion H. repeat split.
  cbn [trace record]. rewrite killsOf_app, Hev. apply app_nil_r.
Qed.

Lemma pres_tabsCache f : preserves sameObjects (modify (set_tabsCache f)).
Proof. intros st o st' H. inversion H. repeat split. Qed.

Lemma pres_existsCache f : preserves sameObjects (modify (set_existsCache f)).
Proof. intros st o st' H. inversion H. repeat split. Qed.

(** Takes a computation apart down to its primitives, none of which touches
    the terminals or the batchers or signals a PTY. *)
Ltac pres :=
  repeat match goal with
  | |- preserves _ (bind _ _) => apply pres_bind; [|intros ?]
  | |- preserves _ (tryCatch _ _) => apply pres_tryCatch; [|intros ?]
  | |- preserves _ (if ?c then _ else _) => destruct c
  | |- preserves _ (match ?x with _ => _ end) => destruct x
  | |- preserves _ _ =>
      first [ apply pres_ret | apply pres_throw | apply pres_gets | apply pres_ask
            | apply pres_bindOutcome | apply pres_perform; reflexivity | apply pres_log
            | apply pres_record; reflexivity | apply pres_tabsCache
            | apply pres_existsCache
            | solve [auto with pres] ]
  end.

Create HintDb pres.

Section CreateObjects.

Variable W : World.

Lemma pres_runAsUserAsync cmd asUser t :
  preserves sameObjects (runAsUserAsync W cmd asUser t).
Proof. unfold runAsUserAsync. pres. Qed.
Hint Resolve pres_runAsUserAsync : pres.

Lemma pres_runZellijActionAsync zs action asUser b :
  preserves sameObjects (runZellijActionAsync W zs action asUser b).
Proof. unfold runZellijActionAsync. pres. Qed.
Hint Resolve pres_runZellijActionAsync : pres.

Lemma pres_sessionExists zs asUser : preserves sameObjects (sessionExists W zs asUser).
Proof. unfold sessionExists, zellijSessionExistsAsync. pres. Qed.
Hint Resolve pres_sessionExists : pres.

Lemma pres_getTabs zs asUser : preserves sameObjects (getTabs W zs asUser).
Proof. unfold getTabs, fetchTabs. pres. Qed.
Hint Resolve pres_getTabs : pres.

Lemma pres_invalidate zs asUser : preserves sameObjects (invalidate zs asUser).
Proof. unfold invalidate. pres. Qed.
Hint Resolve pres_invalidate : pres.

Lemma pres_executeInitCommands zs cmds asUser :
  preserves sameObjects (executeInitCommands W zs cmds asUser).
Proof. unfold executeInitCommands. pres. Qed.
Hint Resolve pres_executeInitCommands : pres.

Lemma pres_writeEnvFile userId env chownTo :
  preserves sameObjects (writeEnvFile W userId env chownTo).
Proof. unfold writeEnvFile. pres. Qed.
Hint Resolve pres_writeEnvFile : pres.

Lemma pres_create_resolveIdentity auth :
  preserves sameObjects (create_resolveIdentity W auth).
Proof. unfold create_resolveIdentity, loadImpersonatedUser. pres. Qed.

Lemma pres_create_resolveCwd data u : preserves sameObjects (create_resolveCwd W data u).
Proof. unfold create_resolveCwd. pres. Qed.

Lemma pres_create_classify zs asUser tab :
  preserves sameObjects (create_classify W zs asUser tab).
Proof. unfold create_classify. pres. Qed.

Lemma pres_create_environment uid u : preserves sameObjects (create_environment W uid u).
Proof. unfold create_environment. pres. Qed.

Lemma pres_create_spawn data zs cwd u env :
  preserves sameObjects (create_spawn W data zs cwd u env).
Proof. unfold create_spawn. pres. Qed.

Lemma pres_create_configureTab plan : preserves sameObjects (create_configureTab W plan).
Proof. unfold create_configureTab. pres. Qed.

End CreateObjects.

Section CreateRegisters.

Variable W : World.

Lemma create_register_spec data terminalId pty cwd resolvedUserId zs env st :
  let r := fresh (dom (batchers st)) in
  let session :=
    mkSession terminalId pty "zellij" cwd resolvedUserId (d_worktreeId data) zs
      (Js.numOrElse (d_cols data) 80) (Js.numOrElse (d_rows data) 30)
      (w_now W (trace st)) env r in
  create_register W data terminalId pty cwd resolvedUserId zs env st
  = (Ok r,
     set_sessions (map_set terminalId session)
       (set_batchers (insert r (mkBatcher EmptyString false (EmitData terminalId))) st)).
Proof. reflexivity. Qed.

Lemma waitForReady_objects (terminalId : string) (r : nat) (st : State)
  (b : TerminalDataBatcher) :
  batchers st !! r = Some b ->
  exists st', waitForReady W terminalId r st = (Ok tt, st')
    /\ sessions st' = sessions st
    /\ is_Some (batchers st' !! r)
    /\ (forall r', r' <> r -> batchers st' !! r' = batchers st !! r').
Proof.
  intros Hb. unfold waitForReady.
  unfold bind at 1, deref at 1. rewrite Hb.
  unfold bind at 1, store at 1, modify at 1.
  unfold bind at 1, gets at 1.
  set (s0 := set_batchers _ st).
  assert (H0 : batchers s0 !! r = Some (mkBatcher (buffer b) (timer b) (ReadyProbe terminalId)))
    by (subst s0; cbn; apply lookup_insert_eq).
  assert (O0 : forall r', r' <> r -> batchers s0 !! r' = batchers st !! r')
    by (intros r' Hr; subst s0; cbn; now apply lookup_insert_ne).
  assert (S0 : sessions s0 = sessions st) by reflexivity.
  destruct (pushAll_spec W r (w_ptyOutputBeforeReady W (trace s0)) s0 _ H0)
    as (s1 & b1 & Hp & Hb1 & _ & O1 & _ & (S1 & _)).
  rewrite (bind_ok _ _ _ _ _ Hp).
  unfold bind at 1, deref at 1. rewrite Hb1.
  assert (exists s2 b2, (if timer b1 then Batcher_timerFires W r else ret tt) s1 = (Ok tt, s2)
            /\ batchers s2 !! r = Some b2 /\ sessions s2 = sessions s1
            /\ (forall r', r' <> r -> batchers s2 !! r' = batchers s1 !! r'))
    as (s2 & b2 & Hf & Hb2 & S2 & O2).
  { destruct (timer b1).
    - destruct (flush_spec W r s1 b1 Hb1) as (s2 & h & Hf & Hb2 & _ & _ & O2 & _ & (S2 & _)).
      exists s2, (mkBatcher EmptyString false h). auto.
    - exists s1, b1. auto. }
  rewrite (bind_ok _ _ _ _ _ Hf).
  unfold bind at 1, deref at 1. rewrite Hb2.
  destruct (onFlush b2); eexists; (split; [reflexivity|]); cbn [sessions batchers log].
  all: split; [congruence|]; split; [rewrite Hb2; eauto|].
  all: intros r' Hr; rewrite (O2 r' Hr), (O1 r' Hr); now apply O0.
Qed.

End CreateRegisters.

(* ===================================================================== *)
(** * [create] while its PTY is alive: what stays registered *)
(* ===================================================================== *)

(** Preservation of a reflexive and transitive relation. *)
Section Steps.

Context {A B : Type}.
Variable R : State -> State -> Prop.
Hypothesis R_refl : forall st, R st st.
Hypothesis R_trans : forall a b c, R a b -> R b c -> R a c.

Lemma steps_ret (a : A) : preserves R (ret a).
Proof. intros st o st' H. inversion H. apply R_refl. Qed.

Lemma steps_throw (e : Thrown) : preserves R (@throw A e).
Proof. intros st o st' H. inversion H. apply R_refl. Qed.

Lemma steps_gets (f : State -> A) : preserves R (gets f).
Proof. intros st o st' H. inversion H. apply R_refl. Qed.

Lemma steps_bindOutcome (o : Outcome A) : preserves R (bindOutcome o).
Proof. intros st o' st' H. inversion H. apply R_refl. Qed.

Lemma steps_bind (m : M A) (f : A -> M B) :
  preserves R m -> (forall a, preserves R (f a)) -> preserves R (bind m f).
Proof.
  intros Hm Hf st o st' H.
  destruct (bind_inv_any _ _ _ _ _ H) as [(e & H1 & _)|(a & s & H1 & H2)].
  - exact (Hm _ _ _ H1).
  - exact (R_trans _ _ _ (Hm _ _ _ H1) (Hf _ _ _ _ H2)).
Qed.

Lemma steps_tryCatch (m : M A) (h : Thrown -> M A) :
  preserves R m -> (forall e, preserves R (h e)) -> preserves R (tryCatch m h).
Proof.
  intros Hm Hh st o st' H. unfold tryCatch in H.
  destruct (m st) as [[a|e] s] eqn:E.
  - inversion H; subst. exact (Hm _ _ _ E).
  - exact (R_trans _ _ _ (Hm _ _ _ E) (Hh _ _ _ _ H)).
Qed.

End Steps.

Lemma exitsOf_app (t : string) (a b : list Event) :
  exitsOf t (a ++ b) = exitsOf t a ++ exitsOf t b.
Proof. apply flat_map_app. Qed.

Lemma exitsOf_flushEvents (t : string) (b : TerminalDataBatcher) :
  exitsOf t (flushEvents b) = [].
Proof. unfold flushEvents. destruct (0 <? Js.length (buffer b)); reflexivity. Qed.

Lemma killsOf_flushEvents (b : TerminalDataBatcher) : killsOf (flushEvents b) = [].
Proof. unfold flushEvents. destruct (0 <? Js.length (buffer b)); reflexivity. Qed.

Lemma exitsOf_grows (t zs : string) (asUser : option string) (st st' : State) :
  grows (setupEvent zs asUser) st st' -> exitsOf t (trace st') = exitsOf t (trace st).
Proof.
  intros (evs & -> & Hall). rewrite exitsOf_app.
  assert (E : exitsOf t evs = []); [|now rewrite E, app_nil_r].
  induction Hall as [|ev evs Hev _ IH]; [reflexivity|].
  change (ev :: evs) with ([ev] ++ evs). rewrite exitsOf_app, IH, app_nil_r.
  destruct ev; try reflexivity; destruct Hev.
Qed.

Lemma map_delete_absent {A} (k : string) (m : list (string * A)) :
  map_get k m = None -> map_delete k m = m.
Proof.
  induction m as [|[k0 v0] m IH]; [reflexivity|]. cbn [map_get map_delete].
  destruct (String.eqb k k0); [discriminate|]. intros H. now rewrite IH.
Qed.

Lemma map_delete_set {A} (k : string) (v : A) (m : list (string * A)) :
  map_get k m = None -> map_delete k (map_set k v m) = m.
Proof.
  induction m as [|[k0 v0] m IH]; cbn [map_get map_set map_delete].
  - now rewrite String.eqb_refl.
  - destruct (String.eqb k k0) eqn:E; [discriminate|]. intros H.
    cbn [map_delete]. now rewrite E, IH.
Qed.

Lemma map_delete_idem {A} (k : string) (m : list (string * A)) :
  map_delete k (map_delete k m) = map_delete k m.
Proof.
  induction m as [|[k0 v] m IH]; [reflexivity|]. cbn [map_delete].
  destruct (String.eqb k k0) eqn:E; [exact IH|]. cbn [map_delete]. now rewrite E, IH.
Qed.

Lemma map_delete_after_set {A} (k : string) (v : A) (m : list (string * A)) :
  map_delete k (map_set k v m) = map_delete k m.
Proof.
  induction m as [|[k0 v0] m IH]; cbn [map_set map_delete].
  - now rewrite String.eqb_refl.
  - destruct (String.eqb k k0) eqn:E; cbn [map_delete].
    + now rewrite String.eqb_refl.
    + now rewrite E, IH.
Qed.

Section OwnSteps.

Variable terminalId : string.
Variable batcher : nat.

Lemma ownSteps_refl st : ownSteps terminalId batcher st st.
Proof.
  split; [exists []; split; [now rewrite app_nil_r|reflexivity]|]. repeat split; auto.
Qed.

Lemma ownSteps_trans a b c :
  ownSteps terminalId batcher a b -> ownSteps terminalId batcher b c ->
  ownSteps terminalId batcher a c.
Proof.
  intros ((e1 & X1 & S1) & O1 & I1 & K1) ((e2 & X2 & S2) & O2 & I2 & K2).
  split.
  { exists (e1 ++ e2). split; [now rewrite X2, X1, app_assoc|].
    destruct e1 as [|x e1], e2 as [|y e2]; cbn [app]; rewrite S2, ?S1;
      try reflexivity. apply map_delete_idem. }
  split; [intros r Hr; rewrite (O2 r Hr); now apply O1|].
  split; [auto|congruence].
Qed.

(** A step that touches neither the table nor the batchers of others, and
    adds neither an exit of the terminal nor a signal to a PTY. *)
Lemma ownSteps_quiet st st' :
  sessions st' = sessions st ->
  (forall r, r <> batcher -> batchers st' !! r = batchers st !! r) ->
  (is_Some (batchers st !! batcher) -> is_Some (batchers st' !! batcher)) ->
  exitsOf terminalId (trace st') = exitsOf terminalId (trace st) ->
  killsOf (trace st') = killsOf (trace st) ->
  ownSteps terminalId batcher st st'.
Proof.
  intros S O I X K. split; [exists []; split; [now rewrite app_nil_r|exact S]|].
  repeat split; assumption.
Qed.

Section Combinators.

Context {A B : Type}.

Lemma own_ret (a : A) : preserves (ownSteps terminalId batcher) (ret a).
Proof. apply steps_ret, ownSteps_refl. Qed.

Lemma own_throw (e : Thrown) : preserves (ownSteps terminalId batcher) (@throw A e).
Proof. apply steps_throw, ownSteps_refl. Qed.

Lemma own_gets (f : State -> A) : preserves (ownSteps terminalId batcher) (gets f).
Proof. apply steps_gets, ownSteps_refl. Qed.

Lemma own_bindOutcome (o : Outcome A) :
  preserves (ownSteps terminalId batcher) (bindOutcome o).
Proof. apply steps_bindOutcome, ownSteps_refl. Qed.

Lemma own_bind (m : M A) (f : A -> M B) :
  preserves (ownSteps terminalId batcher) m ->
  (forall a, preserves (ownSteps terminalId batcher) (f a)) ->
  preserves (ownSteps terminalId batcher) (bind m f).
Proof. apply steps_bind, ownSteps_trans. Qed.

Lemma own_tryCatch (m : M A) (h : Thrown -> M A) :
  preserves (ownSteps terminalId batcher) m ->
  (forall e, preserves (ownSteps terminalId batcher) (h e)) ->
  preserves (ownSteps terminalId batcher) (tryCatch m h).
Proof. apply steps_tryCatch, ownSteps_trans. Qed.

Lemma own_perform (ev : Event) (q : list Event -> Outcome A) :
  exitsOf terminalId [ev] = [] ->
  killsOf [ev] = [] ->
  preserves (ownSteps terminalId batcher) (perform ev q).
Proof.
  intros X K st o st' H. inversion H. apply ownSteps_quiet; cbn [sessions batchers trace record];
    auto; [rewrite exitsOf_app, X|rewrite killsOf_app, K]; apply app_nil_r.
Qed.

End Combinators.

Lemma own_log (l : LogEntry) : preserves (ownSteps terminalId batcher) (modify (log l)).
Proof. intros st o st' H. inversion H. now apply ownSteps_quiet. Qed.

Lemma own_record (ev : Event) :
  exitsOf terminalId [ev] = [] ->
  killsOf [ev] = [] ->
  preserves (ownSteps terminalId batcher) (modify (record ev)).
Proof.
  intros X K st o st' H. inversion H. apply ownSteps_quiet; cbn [sessions batchers trace record];
    auto; [rewrite exitsOf_app, X|rewrite killsOf_app, K]; apply app_nil_r.
Qed.

Lemma own_tabsCache f : preserves (ownSteps terminalId batcher) (modify (set_tabsCache f)).
Proof. intros st o st' H. inversion H. now apply ownSteps_quiet. Qed.

Lemma own_existsCache f :
  preserves (ownSteps terminalId batcher) (modify (set_existsCache f)).
Proof. intros st o st' H. inversion H. now apply ownSteps_quiet. Qed.

Lemma own_deref : preserves (ownSteps terminalId batcher) (deref batcher).
Proof.
  intros st o st' H. unfold deref in H.
  destruct (batchers st !! batcher); inversion H; apply ownSteps_refl.
Qed.

Lemma own_store (b : TerminalDataBatcher) :
  preserves (ownSteps terminalId batcher) (store batcher b).
Proof.
  intros st o st' H. inversion H. apply ownSteps_quiet; cbn [sessions batchers trace set_batchers];
    auto.
  - intros r Hr. now apply lookup_insert_ne.
  - intros _. rewrite lookup_insert_eq. eauto.
Qed.

End OwnSteps.

Create HintDb own.

(** Takes a computation apart down to its primitives: each is a step of the
    terminal's own. *)
Ltac own_tac :=
  repeat match goal with
  | |- preserves _ (bind _ _) => apply own_bind; [|intros ?]
  | |- preserves _ (tryCatch _ _) => apply own_tryCatch; [|intros ?]
  | |- preserves _ (if ?c then _ else _) => destruct c
  | |- preserves _ (match ?x with _ => _ end) => destruct x
  | |- preserves _ _ =>
      first [ apply own_ret | apply own_throw | apply own_gets | apply own_bindOutcome
            | apply own_log | apply own_record; reflexivity
            | apply own_perform; reflexivity | apply own_deref | apply own_store
            | apply own_tabsCache | apply own_existsCache | solve [auto with own] ]
  end.

Section InterleavedSteps.

Variable W : World.
Variable arriving : list Event -> list PtySignal.
Variable terminalId : string.
Variable batcher : nat.

Lemma own_flush : preserves (ownSteps terminalId batcher) (Batcher_flush W batcher).
Proof. unfold Batcher_flush, callOnFlush, emitData. own_tac. Qed.
Hint Resolve own_flush : own.

Lemma own_destroy : preserves (ownSteps terminalId batcher) (Batcher_destroy batcher).
Proof. unfold Batcher_destroy. own_tac. Qed.
Hint Resolve own_destroy : own.

Lemma own_push data : preserves (ownSteps terminalId batcher) (Batcher_push W batcher data).
Proof. unfold Batcher_push. own_tac. Qed.
Hint Resolve own_push : own.

Lemma own_pushAll chunks :
  preserves (ownSteps terminalId batcher) (Batcher_pushAll W batcher chunks).
Proof. induction chunks; cbn [Batcher_pushAll]; own_tac. Qed.
Hint Resolve own_pushAll : own.

(** The exit handler, on a batcher that exists: every step of it. *)
Lemma ptyOnExit_spec (exitCode : Z) (st : State) (b : TerminalDataBatcher) :
  batchers st !! batcher = Some b ->
  exists st' h,
    ptyOnExit W terminalId batcher exitCode st = (Ok tt, st')
    /\ trace st' = trace st ++ flushEvents b ++ [EvEmitExit terminalId exitCode]
    /\ sessions st' = map_delete terminalId (sessions st)
    /\ batchers st' !! batcher = Some (mkBatcher EmptyString false h)
    /\ (forall r, r <> batcher -> batchers st' !! r = batchers st !! r).
Proof.
  intros Hb. unfold ptyOnExit, tryCatch.
  destruct (flush_spec W _ st b Hb) as (s1 & h & Hf & Hb1 & _ & _ & O1 & Ht1 & (S1 & _)).
  destruct (destroy_spec _ s1 _ Hb1) as (s2 & Hd & Hb2 & O2 & Ht2 & (S2 & _)).
  rewrite (bind_ok _ _ _ _ _ Hf), (bind_ok _ _ _ _ _ Hd).
  unfold bind at 1, modify at 1. unfold bind at 1, modify at 1. unfold perform.
  cbn [trace log set_sessions].
  assert (T : trace s2 ++ [EvEmitExit terminalId exitCode]
              = trace st ++ flushEvents b ++ [EvEmitExit terminalId exitCode]).
  { rewrite Ht2, Ht1. unfold flushEvents. now rewrite <- app_assoc. }
  destruct (w_emitExit W (trace s2) terminalId exitCode) as [[]|e].
  - eexists _, h. split; [reflexivity|].
    cbn [trace sessions batchers record set_sessions log].
    split; [exact T|]. split; [now rewrite S2, S1|]. split; [exact Hb2|].
    intros r Hr. rewrite (O2 r Hr). now apply O1.
  - unfold bind at 1, modify at 1.
    match goal with
    | |- context [bind (Batcher_destroy batcher) _ ?s] =>
        destruct (destroy_spec batcher s (mkBatcher EmptyString false h))
          as (s3 & Hd3 & Hb3 & O3 & Ht3 & (S3 & _)); [exact Hb2|]
    end.
    rewrite (bind_ok _ _ _ _ _ Hd3). unfold modify.
    eexists _, h. split; [reflexivity|].
    cbn [trace sessions batchers record set_sessions log onFlush] in *.
    split; [rewrite Ht3; exact T|].
    split; [rewrite S3, map_delete_idem; now rewrite S2, S1|]. split; [exact Hb3|].
    intros r Hr. rewrite (O3 r Hr). rewrite (O2 r Hr). now apply O1.
Qed.

Lemma own_ptyOnExit exitCode :
  preserves (ownSteps terminalId batcher) (ptyOnExit W terminalId batcher exitCode).
Proof.
  intros st o st' H. destruct (batchers st !! batcher) as [b|] eqn:Hb.
  - destruct (ptyOnExit_spec exitCode st b Hb) as (s & h & E & T & S & B & O).
    rewrite E in H. injection H as _ <-.
    split.
    { exists [exitCode]. split; [|exact S].
      rewrite T, !exitsOf_app, exitsOf_flushEvents. cbn. now rewrite String.eqb_refl. }
    split; [exact O|]. split; [intros _; rewrite B; eauto|].
    rewrite T, !killsOf_app, killsOf_flushEvents. cbn. now rewrite app_nil_r.
  - unfold ptyOnExit, tryCatch, Batcher_flush, Batcher_destroy in H.
    unfold bind, deref, modify in H. rewrite Hb in H. cbn [batchers log] in H.
    rewrite Hb in H. injection H as _ <-. now apply ownSteps_quiet.
Qed.
Hint Resolve own_ptyOnExit : own.

Lemma own_deliver signal :
  preserves (ownSteps terminalId batcher) (deliver W terminalId batcher signal).
Proof.
  destruct signal; unfold deliver, ptyOnData, Batcher_timerFires; own_tac.
Qed.
Hint Resolve own_deliver : own.

Lemma own_deliverAll signals :
  preserves (ownSteps terminalId batcher) (deliverAll W terminalId batcher signals).
Proof. induction signals; cbn [deliverAll]; own_tac. Qed.
Hint Resolve own_deliverAll : own.

Lemma own_suspended :
  preserves (ownSteps terminalId batcher) (suspended W arriving terminalId batcher).
Proof. unfold suspended. own_tac. Qed.
Hint Resolve own_suspended : own.

Lemma own_runZellijActionAsync zs action asUser throwOnError :
  preserves (ownSteps terminalId batcher)
    (runZellijActionAsync_interleaved W arriving terminalId batcher zs action asUser
       throwOnError).
Proof. unfold runZellijActionAsync_interleaved, runAsUserAsync_interleaved. own_tac. Qed.
Hint Resolve own_runZellijActionAsync : own.

Lemma own_executeInitCommands zs cmds asUser :
  preserves (ownSteps terminalId batcher)
    (executeInitCommands_interleaved W arriving terminalId batcher zs cmds asUser).
Proof. unfold executeInitCommands_interleaved. own_tac. Qed.
Hint Resolve own_executeInitCommands : own.

Lemma own_sleep ms :
  preserves (ownSteps terminalId batcher)
    (sleep_interleaved W arriving terminalId batcher ms).
Proof. unfold sleep_interleaved. own_tac. Qed.
Hint Resolve own_sleep : own.

Lemma own_invalidate zs asUser :
  preserves (ownSteps terminalId batcher) (invalidate zs asUser).
Proof. unfold invalidate. own_tac. Qed.
Hint Resolve own_invalidate : own.

Lemma own_waitForReady :
  preserves (ownSteps terminalId batcher) (waitForReady_interleaved W arriving terminalId batcher).
Proof. unfold waitForReady_interleaved, Batcher_timerFires. own_tac. Qed.

(** The callbacks return when the batcher exists, as it does once the
    terminal is registered. *)
Lemma deliver_ok signal st :
  is_Some (batchers st !! batcher) ->
  exists st', deliver W terminalId batcher signal st = (Ok tt, st').
Proof.
  intros [b Hb]. destruct signal as [chunk| |exitCode]; unfold deliver.
  - destruct (push_spec W batcher chunk st b Hb) as (s & b' & H & _). eauto.
  - unfold bind, deref. rewrite Hb. destruct (timer b); [|unfold ret; eauto].
    destruct (flush_spec W batcher st b Hb) as (s & h & H & _). eauto.
  - destruct (ptyOnExit_spec exitCode st b Hb) as (s & h & H & _). eauto.
Qed.

Lemma deliverAll_ok signals :
  forall st, is_Some (batchers st !! batcher) ->
  exists st', deliverAll W terminalId batcher signals st = (Ok tt, st').
Proof.
  induction signals as [|signal rest IH]; intros st Hb; cbn [deliverAll].
  - unfold ret. eauto.
  - destruct (deliver_ok signal st Hb) as (s & H).
    destruct (IH s) as (s' & H').
    { exact (proj1 (proj2 (proj2 (own_deliver signal _ _ _ H))) Hb). }
    exists s'. now rewrite (bind_ok _ _ _ _ _ H).
Qed.

Lemma waitForReady_interleaved_ok st :
  is_Some (batchers st !! batcher) ->
  exists st', waitForReady_interleaved W arriving terminalId batcher st = (Ok tt, st').
Proof.
  intros [b Hb]. unfold waitForReady_interleaved.
  unfold bind at 1, deref at 1. rewrite Hb.
  unfold bind at 1, store at 1, modify at 1.
  unfold bind at 1, gets at 1.
  set (s0 := set_batchers _ st).
  assert (H0 : batchers s0 !! batcher
               = Some (mkBatcher (buffer b) (timer b) (ReadyProbe terminalId)))
    by (subst s0; cbn; apply lookup_insert_eq).
  destruct (pushAll_spec W batcher (w_ptyOutputBeforeReady W (trace s0)) s0 _ H0)
    as (s1 & b1 & Hp & Hb1 & _).
  rewrite (bind_ok _ _ _ _ _ Hp).
  destruct (deliverAll_ok (arriving (trace s1)) s1) as (s2 & Hd); [rewrite Hb1; eauto|].
  assert (Hs : suspended W arriving terminalId batcher s1 = (Ok tt, s2))
    by (unfold suspended, bind, gets; exact Hd).
  rewrite (bind_ok _ _ _ _ _ Hs).
  destruct (proj1 (proj2 (proj2 (own_suspended _ _ _ Hs)))) as [b2 Hb2];
    [rewrite Hb1; eauto|].
  unfold bind at 1, deref at 1. rewrite Hb2.
  assert (exists s3 b3, (if timer b2 then Batcher_timerFires W batcher else ret tt) s2
                        = (Ok tt, s3) /\ batchers s3 !! batcher = Some b3)
    as (s3 & b3 & Hf & Hb3).
  { destruct (timer b2).
    - destruct (flush_spec W batcher s2 b2 Hb2) as (s3 & h & Hf & Hb3 & _). eauto.
    - unfold ret. eauto. }
  rewrite (bind_ok _ _ _ _ _ Hf).
  unfold bind at 1, deref at 1. rewrite Hb3.
  destruct (onFlush b3); unfold modify, ret; eauto.
Qed.

End InterleavedSteps.

Section CreateInterleaved.

Variable W : World.
Variable arriving : list Event -> list PtySignal.

Lemma own_create_configureTab (r : nat) (plan : TabPlan) :
  preserves (ownSteps (tp_terminalId plan) r)
    (create_configureTab_interleaved W arriving r plan).
Proof.
  unfold create_configureTab_interleaved.
  pose proof (own_runZellijActionAsync W arriving (tp_terminalId plan) r) as Ha.
  pose proof (own_executeInitCommands W arriving (tp_terminalId plan) r) as Hi.
  pose proof (own_sleep W arriving (tp_terminalId plan) r) as Hs.
  pose proof (own_invalidate (tp_terminalId plan) r) as Hv.
  own_tac.
Qed.

Lemma create_configureTab_interleaved_throws (r : nat) (plan : TabPlan)
  (st st' : State) (e : Thrown) :
  create_configureTab_interleaved W arriving r plan st = (Throw e, st') ->
  exists cause, e = newError ("Zellij tab configuration failed: " +:+ messageOf cause).
Proof.
  intros H. unfold create_configureTab_interleaved, tryCatch in H.
  match type of H with context [match ?m st with _ => _ end] =>
    destruct (m st) as [[[]|cause] s] eqn:Hm end; [discriminate H|].
  exists cause. unfold bind, modify, throw in H. now injection H as <- _.
Qed.

(** [create] up to the registration: a failure leaves the terminals and the
    batchers as they were; a success has stored one session, under the id of
    the plan, with a batcher object that is new; no exit has been emitted
    and no PTY signalled. *)
Lemma create_prepare_outcome (data : CreateTerminalData)
  (params : option AuthenticatedParams) (st s6 : State) (o : Outcome (TabPlan * nat)) :
  create_prepare W data params st = (o, s6) ->
  match o with
  | Throw _ => sameObjects st s6
  | Ok prepared =>
      let plan := fst prepared in
      exists session,
        sessions s6 = map_set (tp_terminalId plan) session (sessions st)
        /\ tp_terminalId plan
           = "term-" +:+ Js.showZ (w_now W (trace st)) +:+ "-" +:+ w_random W (trace st)
        /\ ts_terminalId session = tp_terminalId plan
        /\ ts_cwd session = tp_cwd plan
        /\ ts_zellijSession session = tp_zellijSession plan
        /\ ts_shell session = "zellij"
        /\ ts_cols session = Js.numOrElse (d_cols data) 80
        /\ ts_rows session = Js.numOrElse (d_rows data) 30
        /\ ts_userId session = resolvedUserIdOf data params
        /\ ts_batcher session = snd prepared
        /\ batchers st !! snd prepared = None
        /\ is_Some (batchers s6 !! snd prepared)
        /\ (forall r, r <> snd prepared -> batchers s6 !! r = batchers st !! r)
        /\ killsOf (trace s6) = killsOf (trace st)
        /\ (forall t, exitsOf t (trace s6) = exitsOf t (trace st))
  end.
Proof.
  intros H. unfold create_prepare in H.
  unfold bind at 1, gets at 1 in H. unfold bind at 1, gets at 1 in H.
  cbv zeta in H.
  apply bind_inv_any in H. destruct H as [(e & H & ->)|(u & s1 & H1 & H)].
  { exact (pres_create_resolveIdentity W _ _ _ _ H). }
  pose proof (pres_create_resolveIdentity W _ _ _ _ H1) as P1.
  apply bind_inv_any in H. destruct H as [(e & H & ->)|(cw & s2 & H2 & H)].
  { apply pres_create_resolveCwd in H. eapply sameObjects_trans; eauto. }
  pose proof (pres_create_resolveCwd W _ _ _ _ _ H2) as P2.
  apply bind_inv_any in H. destruct H as [(e & H & ->)|(cls & s3 & H3 & H)].
  { apply pres_create_classify in H. repeat (eapply sameObjects_trans; eauto). }
  pose proof (pres_create_classify W _ _ _ _ _ _ H3) as P3.
  apply bind_inv_any in H. destruct H as [(e & H & ->)|(ee & s4 & H4 & H)].
  { apply pres_create_environment in H. repeat (eapply sameObjects_trans; eauto). }
  pose proof (pres_create_environment W _ _ _ _ _ H4) as P4.
  apply bind_inv_any in H. destruct H as [(e & H & ->)|(pty & s5 & H5 & H)].
  { apply pres_create_spawn in H. repeat (eapply sameObjects_trans; eauto). }
  pose proof (pres_create_spawn W _ _ _ _ _ _ _ _ H5) as P5.
  assert (S5 : sameObjects st s5) by (repeat (eapply sameObjects_trans; eauto)).
  assert (X5 : forall t, exitsOf t (trace s5) = exitsOf t (trace st)).
  { intros t.
    destruct (create_resolveIdentity_spec W (authenticatedUserIdOf params) st)
      as (x & Lx & Hx).
    rewrite H1 in Hx. injection Hx as _ <-.
    apply create_resolveCwd_state in H2. subst s2.
    rewrite (exitsOf_grows t _ _ _ _ (create_spawn_grows W EmptyString None _ _ _ _ _ _ _ _ H5)).
    rewrite (exitsOf_grows t _ _ _ _
               (create_environment_grows W EmptyString None _ _ _ _ _ H4)).
    rewrite (exitsOf_grows t _ _ _ _ (create_classify_grows W _ _ _ _ _ _ H3)).
    destruct Lx as (_ & _ & _ & _ & ->). reflexivity. }
  clear H1 H2 H3 H4 H5 P1 P2 P3 P4 P5. destruct S5 as (Ss & Sb & Sk).
  unfold bind at 1 in H. rewrite create_register_spec in H. cbv zeta in H.
  unfold ret in H. injection H as <- <-. cbv zeta.
  assert (Hfresh : batchers s5 !! fresh (dom (batchers s5)) = None).
  { apply not_elem_of_dom. apply is_fresh. }
  eexists. cbn [fst snd tp_terminalId tp_cwd tp_zellijSession].
  split; [cbn [sessions set_sessions set_batchers]; rewrite Ss; reflexivity|].
  cbn [ts_terminalId ts_cwd ts_zellijSession ts_shell ts_cols ts_rows ts_userId
       ts_batcher].
  repeat (split; [reflexivity|]).
  split; [now rewrite <- Sb|].
  cbn [batchers trace set_sessions set_batchers].
  split; [rewrite lookup_insert_eq; eauto|].
  split; [intros r Hr; rewrite lookup_insert_ne by congruence; now rewrite Sb|].
  split; [exact Sk|exact X5].
Qed.

(** With a PTY that keeps still the interleaved run is the run of [create]. *)
Lemma create_interleaved_still (data : CreateTerminalData)
  (params : option AuthenticatedParams) (st : State) :
  create_interleaved W Pty.still data params st = create W data params st.
Proof.
  unfold create_interleaved, create, create_prepare, create_setup, bind, gets.
  cbv beta iota zeta.
  destruct (create_resolveIdentity W _ st) as [[u|e] s1]; [|reflexivity].
  destruct (create_resolveCwd W _ _ s1) as [[cw|e] s2]; [|reflexivity].
  destruct (create_classify W _ _ _ s2) as [[cls|e] s3]; [|reflexivity].
  destruct (create_environment W _ _ s3) as [[ee|e] s4]; [|reflexivity].
  destruct (create_spawn W _ _ _ _ _ s4) as [[pty|e] s5]; [|reflexivity].
  destruct (create_register W _ _ _ _ _ _ _ s5) as [[r|e] s6]; [|reflexivity].
  cbn [fst snd ret tp_terminalId].
  change (waitForReady_interleaved W Pty.still ?t r s6) with (waitForReady W t r s6).
  destruct (waitForReady W _ r s6) as [[[]|e] s7]; [|reflexivity].
  reflexivity.
Qed.

End CreateInterleaved.

Section CreateAlive.

Variable W : World.
Variable arriving : list Event -> list PtySignal.

(** What [create] has done to the table and the batchers when the tab
    management ends, whatever its outcome. *)
Lemma create_interleaved_after_registration (data : CreateTerminalData)
  (params : option AuthenticatedParams) (st s6 s7 st' : State) (plan : TabPlan) (r : nat)
  (o : Outcome unit) :
  create_prepare W data params st = (Ok (plan, r), s6) ->
  waitForReady_interleaved W arriving (tp_terminalId plan) r s6 = (Ok tt, s7) ->
  create_configureTab_interleaved W arriving r plan s7 = (o, st') ->
  exists session exits,
    tp_terminalId plan
    = "term-" +:+ Js.showZ (w_now W (trace st)) +:+ "-" +:+ w_random W (trace st)
    /\ ts_terminalId session = tp_terminalId plan
    /\ ts_cwd session = tp_cwd plan
    /\ ts_zellijSession session = tp_zellijSession plan
    /\ ts_shell session = "zellij"
    /\ ts_cols session = Js.numOrElse (d_cols data) 80
    /\ ts_rows session = Js.numOrElse (d_rows data) 30
    /\ ts_userId session = resolvedUserIdOf data params
    /\ ts_batcher session = r
    /\ batchers st !! r = None
    /\ is_Some (batchers st' !! r)
    /\ (forall r', r' <> r -> batchers st' !! r' = batchers st !! r')
    /\ killsOf (trace st') = killsOf (trace st)
    /\ exitsOf (tp_terminalId plan) (trace st')
       = exitsOf (tp_terminalId plan) (trace st) ++ exits
    /\ sessions st' = match exits with
                      | [] => map_set (tp_terminalId plan) session (sessions st)
                      | _ => map_delete (tp_terminalId plan) (sessions st)
                      end.
Proof.
  intros Hp Hw Hc.
  pose proof (create_prepare_outcome W _ _ _ _ _ Hp) as Ho. cbv zeta in Ho.
  cbn [fst snd] in Ho.
  destruct Ho as (session & S & Hid & T1 & T2 & T3 & T4 & T5 & T6 & T7 & T8 & B0 & B1 & O
                  & K & X).
  pose proof (ownSteps_trans _ _ _ _ _
                (own_waitForReady W arriving _ _ _ _ _ Hw)
                (own_create_configureTab W arriving _ _ _ _ _ Hc))
    as ((exits & Xe & Se) & Oo & Io & Ko).
  exists session, exits.
  repeat (split; [assumption|]).
  split; [now apply Io|].
  split; [intros r' Hr; rewrite (Oo r' Hr); now apply O|].
  split; [congruence|].
  split; [now rewrite Xe, X|].
  rewrite Se, S. destruct exits; [reflexivity|apply map_delete_after_set].
Qed.

(** X12. A [create] that returns has registered the terminal (under the id
    it returns, with the directory and the Zellij session it returns, the
    shell [zellij] whatever shell was asked for, the asked size or 80 by 30,
    and a batcher object that did not exist before), and has touched no
    other terminal and no other batcher. Whether the terminal is still in
    the table when [create] returns depends on its PTY: when no exit was
    emitted for it in the meantime, the table holds the session and [get] on
    the returned id answers with the returned directory; when the PTY has
    exited while [create] was suspended, the exit handler has removed the
    terminal, and [create] returns an id that [get] rejects. *)
Theorem create_registers_the_terminal (data : CreateTerminalData)
  (params : option AuthenticatedParams) (st st' : State) (result : CreateResult) :
  create_interleaved W arriving data params st = (Ok result, st') ->
  let terminalId := cr_terminalId result in
  exists session exits,
    terminalId
    = "term-" +:+ Js.showZ (w_now W (trace st)) +:+ "-" +:+ w_random W (trace st)
    /\ ts_terminalId session = terminalId
    /\ ts_cwd session = cr_cwd result
    /\ ts_zellijSession session = cr_zellijSession result
    /\ ts_shell session = "zellij"
    /\ ts_cols session = Js.numOrElse (d_cols data) 80
    /\ ts_rows session = Js.numOrElse (d_rows data) 30
    /\ ts_userId session = resolvedUserIdOf data params
    /\ batchers st !! ts_batcher session = None
    /\ is_Some (batchers st' !! ts_batcher session)
    /\ (forall r, r <> ts_batcher session -> batchers st' !! r = batchers st !! r)
    /\ (forall id, id <> terminalId ->
          map_get id (sessions st') = map_get id (sessions st))
    /\ exitsOf terminalId (trace st') = exitsOf terminalId (trace st) ++ exits
    /\ match exits with
       | [] =>
           sessions st' = map_set terminalId session (sessions st)
           /\ get terminalId st' = (Ok (mkGetResult terminalId (cr_cwd result) true), st')
       | _ =>
           sessions st' = map_delete terminalId (sessions st)
           /\ get terminalId st' = (Throw (notFound terminalId), st')
       end.
Proof.
  intros H terminalId. subst terminalId. unfold create_interleaved in H.
  apply bind_ok_inv in H. destruct H as ([plan r] & s6 & Hp & H). cbn [fst snd] in H.
  apply bind_ok_inv in H. destruct H as ([] & s7 & Hw & H).
  apply bind_ok_inv in H. destruct H as ([] & s8 & Hc & H).
  unfold ret in H. injection H as <- <-.
  cbn [cr_terminalId cr_cwd cr_zellijSession].
  destruct (create_interleaved_after_registration _ _ _ _ _ _ _ _ _ Hp Hw Hc)
    as (session & exits & Hid & T1 & T2 & T3 & T4 & T5 & T6 & T7 & T8 & B0 & B1 & O & _
        & X & S).
  exists session, exits. rewrite T8.
  repeat (split; [assumption|]).
  split.
  { intros id Hne. rewrite S.
    destruct exits; [now apply map_get_set_ne|now apply map_get_delete_ne]. }
  split; [exact X|].
  destruct exits as [|code exits]; split; try exact S; unfold get, bind, gets; rewrite S.
  - rewrite map_get_set_eq. cbn. now rewrite T1, T2.
  - now rewrite map_get_delete_eq.
Qed.

(** X13. A [create] that throws has either failed before the registration,
    and then it has left the terminals and the batchers exactly as they were
    and signalled no PTY; or it has failed in the tab management: then the
    error reads [Zellij tab configuration failed: ] followed by the message
    of the cause, [create] has not killed the PTY and has taken nothing out
    of the table, so that the terminal stays registered with its batcher,
    unless its PTY has exited in the meantime and the exit handler has
    removed it. *)
Theorem create_fails_before_or_after_registration (data : CreateTerminalData)
  (params : option AuthenticatedParams) (st st' : State) (e : Thrown) :
  create_interleaved W arriving data params st = (Throw e, st') ->
  sameObjects st st'
  \/ exists plan r s6 cause session exits,
       create_prepare W data params st = (Ok (plan, r), s6)
       /\ e = newError ("Zellij tab configuration failed: " +:+ messageOf cause)
       /\ ts_terminalId session = tp_terminalId plan
       /\ ts_batcher session = r
       /\ is_Some (batchers st' !! r)
       /\ killsOf (trace st') = killsOf (trace st)
       /\ exitsOf (tp_terminalId plan) (trace st')
          = exitsOf (tp_terminalId plan) (trace st) ++ exits
       /\ match exits with
          | [] =>
              sessions st' = map_set (tp_terminalId plan) session (sessions st)
              /\ map_get (tp_terminalId plan) (sessions st') = Some session
          | _ =>
              sessions st' = map_delete (tp_terminalId plan) (sessions st)
              /\ map_get (tp_terminalId plan) (sessions st') = None
          end.
Proof.
  intros H. unfold create_interleaved in H.
  apply bind_inv_any in H. destruct H as [(e' & H & E)|([plan r] & s6 & Hp & H)].
  { left. exact (create_prepare_outcome W _ _ _ _ _ H). }
  cbn [fst snd] in H. right.
  pose proof (create_prepare_outcome W _ _ _ _ _ Hp) as Ho. cbv zeta in Ho.
  cbn [fst snd] in Ho.
  destruct Ho as (_ & _ & _ & _ & _ & _ & _ & _ & _ & _ & _ & _ & B6 & _).
  destruct (waitForReady_interleaved_ok W arriving (tp_terminalId plan) r s6 B6)
    as (s7 & Hw).
  rewrite (bind_ok _ _ _ _ _ Hw) in H.
  apply bind_inv_any in H. destruct H as [(e' & Hc & E)|(u & s & _ & H)]; [|discriminate H].
  injection E as <-.
  destruct (create_configureTab_interleaved_throws W arriving _ _ _ _ _ Hc) as (cause & ->).
  destruct (create_interleaved_after_registration _ _ _ _ _ _ _ _ _ Hp Hw Hc)
    as (session & exits & _ & T1 & _ & _ & _ & _ & _ & _ & T8 & _ & B1 & _ & K & X & S).
  exists plan, r, s6, cause, session, exits.
  split; [exact Hp|]. split; [reflexivity|]. split; [exact T1|]. split; [exact T8|].
  split; [exact B1|]. split; [exact K|]. split; [exact X|].
  destruct exits; (split; [exact S|]); rewrite S;
    [apply map_get_set_eq|apply map_get_delete_eq].
Qed.

(** X21. [remove] undoes the registration of [create]. When [create] has
    returned an id that was not in the table before and no [kill] throws:
    if no exit was emitted for the terminal while [create] ran, [remove] of
    that id returns it, emits what the batcher still holds, sends SIGTERM
    once, and leaves the table of terminals exactly as it was before
    [create], the id being unknown again; if the PTY has exited in the
    meantime, the table is already as it was before [create], and [remove]
    throws not-found without sending a signal. *)
Theorem create_then_remove_restores_the_table (data : CreateTerminalData)
  (params : option AuthenticatedParams) (st st' : State) (result : CreateResult) :
  create_interleaved W arriving data params st = (Ok result, st') ->
  map_get (cr_terminalId result) (sessions st) = None ->
  (forall tr pty, w_ptyKill W tr pty "SIGTERM" = Ok tt) ->
  let terminalId := cr_terminalId result in
  exists exits,
    exitsOf terminalId (trace st') = exitsOf terminalId (trace st) ++ exits
    /\ match exits with
       | [] =>
           exists st'' session b,
             map_get terminalId (sessions st') = Some session
             /\ batchers st' !! ts_batcher session = Some b
             /\ remove W terminalId st' = (Ok terminalId, st'')
             /\ sessions st'' = sessions st
             /\ trace st''
                = trace st' ++ flushEvents b ++ [EvPtyKill (ts_pty session) "SIGTERM"]
             /\ get terminalId st'' = (Throw (notFound terminalId), st'')
       | _ =>
           sessions st' = sessions st
           /\ remove W terminalId st' = (Throw (notFound terminalId), st')
       end.
Proof.
  intros H Hnew Hk terminalId. subst terminalId. unfold create_interleaved in H.
  apply bind_ok_inv in H. destruct H as ([plan r] & s6 & Hp & H). cbn [fst snd] in H.
  apply bind_ok_inv in H. destruct H as ([] & s7 & Hw & H).
  apply bind_ok_inv in H. destruct H as ([] & s8 & Hc & H).
  unfold ret in H. injection H as <- <-. cbn [cr_terminalId] in *.
  destruct (create_interleaved_after_registration _ _ _ _ _ _ _ _ _ Hp Hw Hc)
    as (session & exits & _ & _ & _ & _ & _ & _ & _ & _ & T8 & _ & [b Hb] & _ & _ & X & S).
  exists exits. split; [exact X|].
  destruct exits as [|code exits].
  - assert (G : map_get (tp_terminalId plan) (sessions s8) = Some session)
      by (rewrite S; apply map_get_set_eq).
    rewrite <- T8 in Hb.
    destruct (flush_spec W _ s8 b Hb) as (s1 & h & Hf & Hb1 & _ & _ & _ & Ht1 & (S1 & _)).
    destruct (destroy_spec _ s1 _ Hb1) as (s2 & Hd & Hb2 & _ & Ht2 & (S2 & _)).
    eexists _, session, b. split; [exact G|]. split; [exact Hb|].
    unfold remove, bind at 1, gets at 1. rewrite G.
    rewrite (bind_ok _ _ _ _ _ Hf), (bind_ok _ _ _ _ _ Hd).
    unfold bind, ptyKill, perform, modify, ret. rewrite Hk.
    split; [reflexivity|]. cbn [trace sessions record set_sessions].
    assert (R : map_delete (tp_terminalId plan) (sessions s2) = sessions st)
      by (rewrite S2, S1, S; now apply map_delete_set).
    split; [exact R|].
    split; [rewrite Ht2, Ht1; unfold flushEvents; now rewrite <- app_assoc|].
    unfold get, bind, gets. cbn [sessions set_sessions record]. now rewrite R, Hnew.
  - assert (R : sessions s8 = sessions st) by (rewrite S; now apply map_delete_absent).
    split; [exact R|]. unfold remove, bind, gets. now rewrite R, Hnew.
Qed.

End CreateAlive.

Lemma create_registers_the_terminal_witness :
  exists result st',
    create_interleaved Demo.quiet Pty.exitsAtOnce Demo.noData None Demo.twoTerminals
    = (Ok result, st')
    /\ exitsOf (cr_terminalId result) (trace st') = [1]
    /\ sessions st' = sessions Demo.twoTerminals
    /\ get (cr_terminalId result) st' = (Throw (notFound (cr_terminalId result)), st').
Proof.
  destruct (create_interleaved Demo.quiet Pty.exitsAtOnce Demo.noData None
              Demo.twoTerminals) as [[result|e] st'] eqn:H.
  2:{ vm_compute in H. discriminate H. }
  destruct (create_registers_the_terminal Demo.quiet _ _ _ _ _ _ H)
    as (session & exits & _ & _ & _ & _ & _ & _ & _ & _ & _ & _ & _ & _ & X & G).
  assert (Hx : exitsOf (cr_terminalId result) (trace st') = [1]
               /\ map_delete (cr_terminalId result) (sessions Demo.twoTerminals)
                  = sessions Demo.twoTerminals).
  { vm_compute in H. injection H as <- <-. split; reflexivity. }
  destruct Hx as (Hx & Hd). rewrite Hx in X. cbn in X. subst exits.
  destruct G as (S & G). exists result, st'. split; [reflexivity|].
  split; [exact Hx|]. split; [now rewrite S|exact G].
Defined.

Lemma create_fails_before_or_after_registration_witness :
  exists e st' plan r s6 session,
    create_interleaved Demo.gotoFails Pty.still Demo.noData None Demo.empty
    = (Throw e, st')
    /\ create_prepare Demo.gotoFails Demo.noData None Demo.empty = (Ok (plan, r), s6)
    /\ e = newError "Zellij tab configuration failed: Command failed"
    /\ map_get (tp_terminalId plan) (sessions st') = Some session
    /\ killsOf (trace st') = [].
Proof.
  destruct (create_interleaved Demo.gotoFails Pty.still Demo.noData None Demo.empty)
    as [[result|e] st'] eqn:H.
  { vm_compute in H. discriminate H. }
  destruct (create_fails_before_or_after_registration Demo.gotoFails _ _ _ _ _ _ H)
    as [(Hs & _)|(plan & r & s6 & cause & session & exits & Hp & He & _ & _ & _ & Hk & X & G)].
  - vm_compute in H. injection H as _ <-. discriminate Hs.
  - assert (Hx : exitsOf (tp_terminalId plan) (trace st') = []).
    { vm_compute in H. injection H as _ <-. vm_compute in Hp. injection Hp as <- _ _.
      reflexivity. }
    rewrite Hx in X. cbn in X. subst exits. destruct G as (_ & G).
    exists e, st', plan, r, s6, session. split; [reflexivity|]. split; [exact Hp|].
    split; [|split; [exact G|exact Hk]].
    vm_compute in H. now injection H as <- _.
Defined.

Lemma create_then_remove_restores_the_table_witness :
  exists result st' st'',
    create_interleaved Demo.quiet Pty.still Demo.noData None Demo.twoTerminals
    = (Ok result, st')
    /\ remove Demo.quiet (cr_terminalId result) st' = (Ok (cr_terminalId result), st'')
    /\ sessions st'' = sessions Demo.twoTerminals.
Proof.
  destruct (create_interleaved Demo.quiet Pty.still Demo.noData None Demo.twoTerminals)
    as [[result|e] st'] eqn:H.
  2:{ vm_compute in H. discriminate H. }
  assert (Hnew : map_get (cr_terminalId result) (sessions Demo.twoTerminals) = None
                 /\ exitsOf (cr_terminalId result) (trace st') = []).
  { vm_compute in H. injection H as <- <-. split; reflexivity. }
  destruct Hnew as (Hnew & Hx).
  destruct (create_then_remove_restores_the_table Demo.quiet _ _ _ _ _ _ H Hnew
              (fun _ _ => eq_refl)) as (exits & X & G).
  rewrite Hx in X. cbn in X. subst exits.
  destruct G as (st'' & session & b & _ & _ & Hr & Hs & _).
  exists result, st', st''. auto.
Defined.

(* ===================================================================== *)
(** * [create]: the errors it can throw *)
(* ===================================================================== *)

Section Throws.

Context {A B : Type}.
Variable P : Thrown -> Prop.

Lemma to_ret (a : A) : throwsOnly P (ret a).
Proof. intros st e st' H. discriminate H. Qed.

Lemma to_gets (f : State -> A) : throwsOnly P (gets f).
Proof. intros st e st' H. discriminate H. Qed.

Lemma to_modify (f : State -> State) : throwsOnly P (modify f).
Proof. intros st e st' H. discriminate H. Qed.

Lemma to_throw (e : Thrown) : P e -> throwsOnly P (@throw A e).
Proof. intros He st e' st' H. now inversion H; subst. Qed.

Lemma to_ask (q : list Event -> Outcome A) :
  (forall tr e, q tr = Throw e -> P e) -> throwsOnly P (ask q).
Proof. intros Hq st e st' H. inversion H. eauto. Qed.

Lemma to_perform (ev : Event) (q : list Event -> Outcome A) :
  (forall tr e, q tr = Throw e -> P e) -> throwsOnly P (perform ev q).
Proof. intros Hq st e st' H. inversion H. eauto. Qed.

Lemma to_bindOutcome (o : Outcome A) :
  (forall e, o = Throw e -> P e) -> throwsOnly P (bindOutcome o).
Proof. intros Ho st e st' H. inversion H. eauto. Qed.

Lemma to_bind (m : M A) (f : A -> M B) :
  throwsOnly P m -> (forall a, throwsOnly P (f a)) -> throwsOnly P (bind m f).
Proof.
  intros Hm Hf st e st' H.
  destruct (bind_inv_any _ _ _ _ _ H) as [(e' & H1 & E)|(a & s & H1 & H2)].
  - injection E as <-. exact (Hm _ _ _ H1).
  - exact (Hf _ _ _ _ H2).
Qed.

Lemma to_tryCatch (Q : Thrown -> Prop) (m : M A) (h : Thrown -> M A) :
  throwsOnly Q m -> (forall e, Q e -> throwsOnly P (h e)) ->
  throwsOnly P (tryCatch m h).
Proof.
  intros Hm Hh st e st' H. unfold tryCatch in H.
  destruct (m st) as [[a|c] s] eqn:E; [discriminate H|].
  exact (Hh c (Hm _ _ _ E) _ _ _ H).
Qed.

Lemma to_catchAll (m : M A) (h : Thrown -> M A) :
  (forall e, throwsOnly P (h e)) -> throwsOnly P (tryCatch m h).
Proof.
  intros Hh. apply (to_tryCatch (fun _ => True)); [|auto].
  intros st e st' _. exact I.
Qed.

End Throws.

Lemma to_weaken {A} (P Q : Thrown -> Prop) (m : M A) :
  throwsOnly P m -> (forall e, P e -> Q e) -> throwsOnly Q m.
Proof. intros Hm HPQ st e st' H. exact (HPQ _ (Hm _ _ _ H)). Qed.

(** Takes apart a computation whose handlers swallow what is thrown. *)
Ltac quiet_tac :=
  repeat match goal with
  | |- throwsOnly _ (bind _ _) => apply to_bind; [|intros ?]
  | |- throwsOnly _ (tryCatch _ _) => apply to_catchAll; intros ?
  | |- throwsOnly _ (if ?c then _ else _) => destruct c
  | |- throwsOnly _ (match ?x with _ => _ end) => destruct x
  | |- throwsOnly _ _ =>
      first [ apply to_ret | apply to_gets | apply to_modify | solve [auto with quiet] ]
  end.

Create HintDb quiet.

Section CreateThrows.

Variable W : World.

Lemma sessionExists_quiet P zs asUser : throwsOnly P (sessionExists W zs asUser).
Proof. unfold sessionExists, zellijSessionExistsAsync. quiet_tac. Qed.

Lemma getTabs_quiet P zs asUser : throwsOnly P (getTabs W zs asUser).
Proof. unfold getTabs, fetchTabs. quiet_tac. Qed.

Lemma create_classify_quiet P zs asUser tab :
  throwsOnly P (create_classify W zs asUser tab).
Proof.
  unfold create_classify. apply to_bind; [apply sessionExists_quiet|intros []].
  - apply to_bind; [apply getTabs_quiet|intros tabs].
    destruct (Js.arrIncludes tab tabs); apply to_ret.
  - apply to_ret.
Qed.

Lemma writeEnvFile_quiet P userId env chownTo :
  throwsOnly P (writeEnvFile W userId env chownTo).
Proof. unfold writeEnvFile. quiet_tac. Qed.

Lemma loadImpersonatedUser_quiet P auth : throwsOnly P (loadImpersonatedUser W auth).
Proof. unfold loadImpersonatedUser. quiet_tac. Qed.

Lemma runZellijActionAsync_lenient_quiet P zs action asUser :
  throwsOnly P (runZellijActionAsync W zs action asUser false).
Proof. unfold runZellijActionAsync. quiet_tac. Qed.

Lemma executeInitCommands_quiet P zs cmds asUser :
  throwsOnly P (executeInitCommands W zs cmds asUser).
Proof.
  unfold executeInitCommands. destruct cmds; [apply to_ret|].
  apply to_bind; [|intros ?]; apply runZellijActionAsync_lenient_quiet.
Qed.

Lemma invalidate_quiet P zs asUser : throwsOnly P (invalidate zs asUser).
Proof. unfold invalidate. quiet_tac. Qed.

Lemma runZellijActionAsync_critical zs action asUser :
  throwsOnly
    (fun e => exists tr,
       w_execAsync W tr (fullCommandOf (actionCommand zs action) asUser)
         ZELLIJ_COMMAND_TIMEOUT_MS = Throw e)
    (runZellijActionAsync W zs action asUser true).
Proof.
  unfold runZellijActionAsync.
  eapply to_tryCatch.
  - apply to_bind; [|intros ?; apply to_ret].
    unfold runAsUserAsync. apply to_perform. intros tr e H. exact (ex_intro _ tr H).
  - intros e He. apply to_bind; [apply to_modify|intros _]. now apply to_throw.
Qed.

Lemma create_resolveIdentity_throws auth :
  throwsOnly (CreateFailure W) (create_resolveIdentity W auth).
Proof.
  unfold create_resolveIdentity.
  apply to_bind; [apply to_ask; intros tr e H; exact (ConfigUnreadable W tr e H)|].
  intros config.
  apply to_bind; [apply loadImpersonatedUser_quiet|intros mapped].
  apply to_bind; [apply to_bindOutcome; intros e H; exact (ResolverRefused W _ _ _ e H)|].
  intros unixUser.
  apply to_bind; [|intros ?; apply to_ret].
  eapply (to_tryCatch _ (fun e => CreateFailure W (identityError e))).
  - apply to_ask. intros tr e H. exact (ValidatorRefused W tr _ _ e H).
  - intros e He. destruct e as [[] m|v]; now apply to_throw.
Qed.

Lemma create_resolveCwd_throws data u :
  throwsOnly (CreateFailure W) (create_resolveCwd W data u).
Proof.
  unfold create_resolveCwd. destruct (Js.truthy (d_worktreeId data)); [|apply to_ret].
  apply to_bind; [apply to_ask; intros tr e H; exact (WorktreeLookupFailed W tr _ e H)|].
  intros [wt|]; [|apply to_ret].
  destruct (Js.truthy u && Js.truthy (Some (wt_name wt))); [|apply to_ret].
  apply to_bind; [apply to_gets|intros ?; apply to_ret].
Qed.

Lemma create_environment_throws uid u :
  throwsOnly (CreateFailure W) (create_environment W uid u).
Proof.
  unfold create_environment.
  apply to_bind.
  { destruct (Js.truthy uid); [|apply to_ret].
    apply to_ask. intros tr e H. exact (UserEnvironmentFailed W tr _ e H). }
  intros userEnv.
  apply to_bind; [apply to_ask; intros tr e H; exact (ProcessEnvironmentFailed W tr _ _ e H)|].
  intros baseEnv.
  apply to_bind; [|intros ?; apply to_ret].
  destruct (Js.truthy uid); [apply writeEnvFile_quiet|apply to_ret].
Qed.

Lemma create_spawn_throws data zs cwd u env :
  throwsOnly (CreateFailure W) (create_spawn W data zs cwd u env).
Proof.
  unfold create_spawn.
  eapply (to_tryCatch _
            (fun c => CreateFailure W
                        (newError ("Failed to create terminal session: " +:+ messageOf c)))).
  - apply to_bind; [apply to_bindOutcome; intros e H; exact (SpawnArgsFailed W _ _ _ _ e H)|].
    intros ca. apply to_perform. intros tr e H. exact (SpawnFailed W tr _ _ _ e H).
  - intros c Hc. apply to_bind; [apply to_modify|intros _]. now apply to_throw.
Qed.

Lemma create_configureTab_throws plan :
  throwsOnly (CreateFailure W) (create_configureTab W plan).
Proof.
  unfold create_configureTab.
  eapply (to_tryCatch _
            (fun c => CreateFailure W
                        (newError ("Zellij tab configuration failed: " +:+ messageOf c)))).
  - assert (Hcrit : forall action,
              (Js.startsWith "rename-tab " action || Js.startsWith "new-tab " action
               || Js.startsWith "go-to-tab-name " action = true) ->
              throwsOnly
                (fun c => CreateFailure W
                   (newError ("Zellij tab configuration failed: " +:+ messageOf c)))
                (runZellijActionAsync W (tp_zellijSession plan) action (tp_asUser plan) true)).
    { intros action Ha. eapply to_weaken; [apply runZellijActionAsync_critical|].
      intros e (tr & H). exact (TabConfigurationFailed W tr _ _ _ e H Ha). }
    destruct (negb (tp_sessionExists plan)).
    { apply to_bind; [apply Hcrit; reflexivity|intros _].
      apply to_bind; [apply invalidate_quiet|intros _].
      apply executeInitCommands_quiet. }
    destruct (tp_needsTabCreation plan).
    { apply to_bind; [apply Hcrit; reflexivity|intros _].
      apply to_bind; [apply Hcrit; reflexivity|intros _].
      apply to_bind; [apply invalidate_quiet|intros _].
      apply to_bind; [apply to_modify|intros _].
      apply executeInitCommands_quiet. }
    destruct (tp_needsTabSwitch plan); [|apply to_ret].
    apply to_bind; [apply Hcrit; reflexivity|intros _].
    apply to_bind; [apply runZellijActionAsync_lenient_quiet|intros _].
    apply to_bind; [apply to_modify|intros _].
    apply executeInitCommands_quiet.
  - intros c Hc. apply to_bind; [apply to_modify|intros _]. now apply to_throw.
Qed.

(** X14. The errors of [create]. Whatever [create] throws was thrown by one
    of: reading the configuration, the resolver of the Unix user, the
    validator of the Unix user (its error passed through, or reworded for an
    unknown user), the lookup of the worktree, the two builders of the
    environment, the spawn (reworded [Failed to create terminal session: ]),
    or one of the tab actions rename-tab, new-tab and go-to-tab-name
    (reworded [Zellij tab configuration failed: ]). Nothing else makes
    [create] fail: not the lookup of the user, the queries of the cache, the
    env file and its ownership, the wait for the PTY, the emissions, the
    Ctrl-C keystroke or the init commands. (The helpers that only compute,
    [formatShortId], [os.homedir] and [path.join], are total functions of
    the host here.) *)
Theorem create_throws_only_these (data : CreateTerminalData)
  (params : option AuthenticatedParams) (st st' : State) (e : Thrown) :
  create W data params st = (Throw e, st') -> CreateFailure W e.
Proof.
  intros H. unfold create in H.
  apply bind_inv_any in H. destruct H as [(e' & H & E)|(plan & st1 & Hs & H)].
  2:{ apply bind_inv_any in H. destruct H as [(e' & H & E)|(u & s & _ & H)];
        [|discriminate H].
      injection E as <-. exact (create_configureTab_throws plan _ _ _ H). }
  injection E as <-. unfold create_setup in H.
  unfold bind at 1, gets at 1 in H. unfold bind at 1, gets at 1 in H. cbv zeta in H.
  apply bind_inv_any in H. destruct H as [(c & H & E)|(u & s1 & _ & H)].
  { injection E as <-. exact (create_resolveIdentity_throws _ _ _ _ H). }
  apply bind_inv_any in H. destruct H as [(c & H & E)|(cw & s2 & _ & H)].
  { injection E as <-. exact (create_resolveCwd_throws _ _ _ _ _ H). }
  apply bind_inv_any in H. destruct H as [(c & H & E)|(cls & s3 & _ & H)].
  { exfalso. exact (create_classify_quiet (fun _ => False) _ _ _ _ _ _ H). }
  apply bind_inv_any in H. destruct H as [(c & H & E)|(ee & s4 & _ & H)].
  { injection E as <-. exact (create_environment_throws _ _ _ _ _ H). }
  apply bind_inv_any in H. destruct H as [(c & H & E)|(pty & s5 & _ & H)].
  { injection E as <-. exact (create_spawn_throws _ _ _ _ _ _ _ _ H). }
  exfalso. unfold bind at 1 in H. rewrite create_register_spec in H. cbv zeta in H.
  match type of H with bind (waitForReady W ?t ?r) _ ?s = _ =>
    destruct (waitForReady_objects W t r s (mkBatcher EmptyString false (EmitData t)))
      as (s7 & Hw & _); [cbn; apply lookup_insert_eq|] end.
  rewrite (bind_ok _ _ _ _ _ Hw) in H. discriminate H.
Qed.

End CreateThrows.

Lemma create_throws_only_these_witness :
  exists st',
    create Demo.gotoFails Demo.noData None Demo.empty
    = (Throw (newError "Zellij tab configuration failed: Command failed"), st')
    /\ CreateFailure Demo.gotoFails
         (newError "Zellij tab configuration failed: Command failed").
Proof.
  destruct (create Demo.gotoFails Demo.noData None Demo.empty) as [[result|e] st'] eqn:H.
  { vm_compute in H. discriminate H. }
  pose proof (create_throws_only_these Demo.gotoFails _ _ _ _ _ H) as F.
  vm_compute in H. injection H as <- _. exists st'. split; [reflexivity|exact F].
Defined.

(* ===================================================================== *)
(** * The environment of the terminal *)
(* ===================================================================== *)

Lemma env_get_delete_eq (k : string) (e : Env) : env_get k (env_delete k e) = None.
Proof.
  induction e as [|[k' v] e IH]; [reflexivity|]. cbn [env_delete].
  destruct (String.eqb k k') eqn:E; [exact IH|]. cbn [env_get]. now rewrite E.
Qed.

Lemma env_get_delete_ne (k k' : string) (e : Env) :
  k <> k' -> env_get k (env_delete k' e) = env_get k e.
Proof.
  intros Hne. induction e as [|[k2 v] e IH]; [reflexivity|]. cbn [env_delete env_get].
  destruct (String.eqb k' k2) eqn:E.
  - apply String.eqb_eq in E. subst k2.
    apply String.eqb_neq in Hne. now rewrite Hne.
  - cbn [env_get]. now rewrite IH.
Qed.

Lemma env_get_set_eq (k v : string) (e : Env) : env_get k (env_set k v e) = Some v.
Proof.
  induction e as [|[k' v'] e IH]; cbn [env_set env_get].
  - now rewrite String.eqb_refl.
  - destruct (String.eqb k k') eqn:E; cbn [env_get].
    + now rewrite String.eqb_refl.
    + now rewrite E.
Qed.

Lemma env_get_set_ne (k k' v : string) (e : Env) :
  k <> k' -> env_get k (env_set k' v e) = env_get k e.
Proof.
  intros Hne. apply String.eqb_neq in Hne.
  induction e as [|[k2 v2] e IH]; cbn [env_set env_get].
  - now rewrite Hne.
  - destruct (String.eqb k' k2) eqn:E; cbn [env_get].
    + apply String.eqb_eq in E. subst k2. now rewrite Hne.
    + now rewrite IH.
Qed.

Lemma defaultLocale_other (k k' : string) (e : Env) :
  k' <> k -> env_get k' (defaultLocale k e) = env_get k' e.
Proof.
  intros Hne. unfold defaultLocale.
  destruct (negb (Js.truthy (env_get k e))); [|reflexivity].
  destruct (env_get "LANG" e);
    [now apply env_get_set_ne | now apply env_get_delete_ne].
Qed.

Lemma defaultLocale_set (k : string) (e : Env) :
  k <> "LANG" ->
  Js.truthy (env_get "LANG" e) = true -> Js.truthy (env_get k (defaultLocale k e)) = true.
Proof.
  intros Hne Hlang. unfold defaultLocale.
  destruct (Js.truthy (env_get k e)) eqn:Hk; cbn [negb]; [exact Hk|].
  destruct (env_get "LANG" e) as [lang|] eqn:El; [|discriminate Hlang].
  now rewrite env_get_set_eq.
Qed.

Section Environment.

Variable W : World.

(** X15. The environment that [create] builds for the terminal never holds
    [ZELLIJ] or [ZELLIJ_SESSION_NAME], so that the attach does not nest;
    where [LANG] is set, [LC_ALL] and [LC_CTYPE] are set too, and a value
    they already had is kept; every other variable is as
    [createUserProcessEnvironment] gave it. Without a user id no env file is
    written. *)
Theorem terminal_environment_is_unnested_and_localised
  (resolvedUserId finalUnixUser : option string) (st st' : State)
  (env : Env) (envFile : option string) :
  create_environment W resolvedUserId finalUnixUser st = (Ok (env, envFile), st') ->
  env_get "ZELLIJ" env = None
  /\ env_get "ZELLIJ_SESSION_NAME" env = None
  /\ (Js.truthy (env_get "LANG" env) = true ->
      Js.truthy (env_get "LC_ALL" env) = true /\ Js.truthy (env_get "LC_CTYPE" env) = true)
  /\ (exists base,
        w_createUserProcessEnvironment W (trace st) resolvedUserId
          [("TERM", "xterm-256color"); ("COLORTERM", "truecolor"); ("LANG", "C.UTF-8")]
        = Ok base
        /\ (forall k, ~ In k ["ZELLIJ"; "ZELLIJ_SESSION_NAME"; "LC_ALL"; "LC_CTYPE"] ->
              env_get k env = env_get k base)
        /\ (Js.truthy (env_get "LC_ALL" base) = true ->
              env_get "LC_ALL" env = env_get "LC_ALL" base)
        /\ (Js.truthy (env_get "LC_CTYPE" base) = true ->
              env_get "LC_CTYPE" env = env_get "LC_CTYPE" base))
  /\ (Js.truthy resolvedUserId = false -> envFile = None /\ trace st' = trace st).
Proof.
  intros H. unfold create_environment in H.
  apply bind_ok_inv in H. destruct H as (userEnv & s1 & H1 & H).
  assert (T1 : trace s1 = trace st).
  { destruct (Js.truthy resolvedUserId); unfold ask, ret in H1; now inversion H1. }
  apply bind_ok_inv in H. destruct H as (base & s2 & H2 & H).
  unfold ask in H2.
  assert (Hb : w_createUserProcessEnvironment W (trace st) resolvedUserId
                 [("TERM", "xterm-256color"); ("COLORTERM", "truecolor");
                  ("LANG", "C.UTF-8")] = Ok base /\ s2 = s1).
  { rewrite <- T1. now inversion H2. }
  destruct Hb as (Hb & ->). clear H2.
  apply bind_ok_inv in H. destruct H as (ef & s3 & H3 & H).
  unfold ret in H. injection H as <- <- <-.
  set (clean := env_delete "ZELLIJ_SESSION_NAME" (env_delete "ZELLIJ" base)).
  assert (Hlang : env_get "LANG" (defaultLocale "LC_CTYPE" (defaultLocale "LC_ALL" clean))
                  = env_get "LANG" clean)
    by (rewrite !defaultLocale_other by discriminate; reflexivity).
  split.
  { rewrite !defaultLocale_other by discriminate. subst clean.
    rewrite env_get_delete_ne by discriminate. apply env_get_delete_eq. }
  split.
  { rewrite !defaultLocale_other by discriminate. apply env_get_delete_eq. }
  split.
  { rewrite Hlang. intros L. split.
    - rewrite defaultLocale_other by discriminate.
      now apply defaultLocale_set; [discriminate|].
    - apply defaultLocale_set; [discriminate|].
      now rewrite defaultLocale_other by discriminate. }
  split.
  { exists base. split; [exact Hb|].
    assert (Hclean : forall k, k <> "ZELLIJ" -> k <> "ZELLIJ_SESSION_NAME" ->
                       env_get k clean = env_get k base).
    { intros k K1 K2. subst clean. now rewrite !env_get_delete_ne. }
    split; [|split].
    - intros k Hk. cbn [In] in Hk.
      assert (K : k <> "ZELLIJ" /\ k <> "ZELLIJ_SESSION_NAME" /\ k <> "LC_ALL"
                  /\ k <> "LC_CTYPE") by (repeat split; intros ->; tauto).
      destruct K as (K1 & K2 & K3 & K4).
      rewrite !defaultLocale_other by assumption. now apply Hclean.
    - intros L. rewrite defaultLocale_other by discriminate.
      unfold defaultLocale. rewrite Hclean by discriminate. rewrite L. cbn [negb].
      apply Hclean; discriminate.
    - intros L. unfold defaultLocale at 1.
      rewrite defaultLocale_other by discriminate.
      rewrite Hclean by discriminate. rewrite L. cbn [negb].
      rewrite defaultLocale_other by discriminate. apply Hclean; discriminate. }
  intros Hu. rewrite Hu in H3. unfold ret in H3. injection H3 as <- <-.
  split; [reflexivity|exact T1].
Qed.

End Environment.

Lemma terminal_environment_is_unnested_and_localised_witness :
  exists env st',
    create_environment Demo.quiet None None Demo.empty = (Ok (env, None), st')
    /\ env_get "ZELLIJ" env = None
    /\ Js.truthy (env_get "LC_ALL" env) = true
    /\ Js.truthy (env_get "LC_CTYPE" env) = true.
Proof.
  destruct (create_environment Demo.quiet None None Demo.empty) as [[[env f]|e] st'] eqn:H.
  2:{ vm_compute in H. discriminate H. }
  destruct (terminal_environment_is_unnested_and_localised Demo.quiet _ _ _ _ _ _ H)
    as (Z1 & _ & L & _ & F).
  destruct (F eq_refl) as (-> & _).
  assert (Hl : Js.truthy (env_get "LANG" env) = true).
  { vm_compute in H. injection H as <- _. reflexivity. }
  exists env, st'. split; [reflexivity|]. split; [exact Z1|]. exact (L Hl).
Defined.

(* ===================================================================== *)
(** * The command lines, as the shell reads them *)
(* ===================================================================== *)

(** X16. Impersonation hands the command over in one piece. For a Unix user
    name made of plain characters, the command line of [runAsUserAsync] is
    read by the shell as [sudo -n su - <user> -c <command>] with the command,
    whatever characters it holds, as the single last argument. *)
Theorem impersonated_command_is_one_argument (unixUser command : string) :
  isPlainWord unixUser = true ->
  Sh.fields (fullCommandOf command (Some unixUser))
  = Some ["sudo"; "-n"; "su"; "-"; unixUser; "-c"; command].
Proof.
  intros Hu. unfold fullCommandOf.
  assert (Ht : Js.truthy (Some unixUser) = true /\ Js.orElse (Some unixUser) EmptyString = unixUser).
  { unfold isPlainWord in Hu. apply andb_true_iff in Hu. destruct Hu as [Hn _].
    unfold Js.truthy, Js.orElse. rewrite Hn.
    apply negb_true_iff in Hn. now rewrite Hn. }
  destruct Ht as (-> & ->). unfold Sh.fields.
  change (Sh.lex Sh.Plain false EmptyString
            ("sudo -n su - " +:+ unixUser +:+ " -c " +:+ escapeShellArg command))
    with (cons "sudo" <$> (cons "-n" <$> (cons "su" <$> (cons "-" <$>
            Sh.lex Sh.Plain false EmptyString
              (unixUser +:+ String Js.SPACE ("-c " +:+ escapeShellArg command)))))).
  rewrite (lex_plain_word _ _ Hu).
  change (Sh.lex Sh.Plain false EmptyString ("-c " +:+ escapeShellArg command))
    with (cons "-c" <$> Sh.lex Sh.Plain false EmptyString (escapeShellArg command)).
  rewrite lex_last_shellArg. reflexivity.
Qed.

(** X17. The tab actions reach Zellij word for word. For a session name that
    needs no escaping between double quotes, the shell reads the command
    lines of rename-tab, new-tab, go-to-tab-name and write-chars as the
    Zellij invocation followed by the tab name, the directory and the init
    script exactly as [create] holds them, whatever characters they have:
    quotes, blanks, dollars, backticks and backslashes included. *)
Theorem tab_actions_reach_zellij_verbatim (zs tabName cwd script : string) :
  literalInDouble zs = true ->
  Sh.fields (actionCommand zs ("rename-tab " +:+ dquote (escapeDoubleQuoted tabName)))
  = Some ["zellij"; "--session"; zs; "action"; "rename-tab"; tabName]
  /\ Sh.fields (actionCommand zs
       ("new-tab --name " +:+ dquote (escapeDoubleQuoted tabName)
        +:+ " --cwd " +:+ dquote (escapeDoubleQuoted cwd)))
     = Some ["zellij"; "--session"; zs; "action"; "new-tab"; "--name"; tabName;
             "--cwd"; cwd]
  /\ Sh.fields (actionCommand zs ("go-to-tab-name " +:+ dquote (escapeDoubleQuoted tabName)))
     = Some ["zellij"; "--session"; zs; "action"; "go-to-tab-name"; tabName]
  /\ Sh.fields (actionCommand zs ("write-chars " +:+ dquote (escapeDoubleQuoted script)))
     = Some ["zellij"; "--session"; zs; "action"; "write-chars"; script].
Proof.
  intros Hz. rewrite !(actionCommand_fields _ _ Hz).
  assert (Hone : forall verb s, isPlainWord verb = true ->
            Sh.lex Sh.Plain false EmptyString
              (verb +:+ String Js.SPACE (dquote (escapeDoubleQuoted s)))
            = Some [verb; s]).
  { intros verb s Hv. now rewrite (lex_plain_word _ _ Hv), lex_last_dquote. }
  change ("rename-tab " +:+ dquote (escapeDoubleQuoted tabName))
    with ("rename-tab" +:+ String Js.SPACE (dquote (escapeDoubleQuoted tabName))).
  change ("go-to-tab-name " +:+ dquote (escapeDoubleQuoted tabName))
    with ("go-to-tab-name" +:+ String Js.SPACE (dquote (escapeDoubleQuoted tabName))).
  change ("write-chars " +:+ dquote (escapeDoubleQuoted script))
    with ("write-chars" +:+ String Js.SPACE (dquote (escapeDoubleQuoted script))).
  rewrite !Hone by reflexivity.
  repeat split.
  change (Sh.lex Sh.Plain false EmptyString
            ("new-tab --name " +:+ dquote (escapeDoubleQuoted tabName)
             +:+ " --cwd " +:+ dquote (escapeDoubleQuoted cwd)))
    with (cons "new-tab" <$> (cons "--name" <$>
            Sh.lex Sh.Plain false EmptyString
              (dquote (escapeDoubleQuoted tabName)
               +:+ " --cwd " +:+ dquote (escapeDoubleQuoted cwd)))).
  rewrite lex_dquote_escaped, append_nil_l.
  change (Sh.lex Sh.Plain true tabName (" --cwd " +:+ dquote (escapeDoubleQuoted cwd)))
    with (cons tabName <$> (cons "--cwd" <$>
            Sh.lex Sh.Plain false EmptyString (dquote (escapeDoubleQuoted cwd)))).
  now rewrite lex_last_dquote.
Qed.


(** The name of the Unix user is put on the command line as it is: a name
    with a blank is read as two words. *)
Example impersonation_does_not_quote_the_user :
  Sh.fields (fullCommandOf "id" (Some "a b"))
  = Some ["sudo"; "-n"; "su"; "-"; "a"; "b"; "-c"; "id"].
Proof. reflexivity. Qed.

(** The name of the session is put between the double quotes as it is: a
    dollar sign in it is an expansion to the shell. *)
Example action_does_not_escape_the_session :
  Sh.fields (actionCommand "agor-$HOME" "write 10") = None.
Proof. reflexivity. Qed.

Lemma impersonated_command_is_one_argument_witness :
  Sh.fields (fullCommandOf "zellij list-sessions 2>/dev/null" (Some "alice"))
  = Some ["sudo"; "-n"; "su"; "-"; "alice"; "-c"; "zellij list-sessions 2>/dev/null"].
Proof.
  apply (impersonated_command_is_one_argument "alice" "zellij list-sessions 2>/dev/null").
  reflexivity.
Defined.

Lemma tab_actions_reach_zellij_verbatim_witness :
  Sh.fields (actionCommand "agor-7f3a9c1e"
               ("new-tab --name " +:+ dquote (escapeDoubleQuoted "it's $5")
                +:+ " --cwd " +:+ dquote (escapeDoubleQuoted "/srv/my `dir`")))
  = Some ["zellij"; "--session"; "agor-7f3a9c1e"; "action"; "new-tab"; "--name";
          "it's $5"; "--cwd"; "/srv/my `dir`"].
Proof.
  exact (proj1 (proj2 (tab_actions_reach_zellij_verbatim "agor-7f3a9c1e" "it's $5"
                         "/srv/my `dir`" "cd '/srv'" eq_refl))).
Defined.

(* ===================================================================== *)
(** * [agor config set]: what is shown of a credential *)
(* ===================================================================== *)

Lemma startsWith_append (p s : string) : Js.startsWith p (p +:+ s) = true.
Proof.
  induction p as [|c p IH]; [reflexivity|].
  rewrite append_cons. cbn [Js.startsWith]. now rewrite Ascii.eqb_refl, IH.
Qed.

Lemma includes_infix (p a b : string) : Js.includes p (a +:+ p +:+ b) = true.
Proof.
  induction a as [|c a IH].
  - rewrite append_nil_l.
    destruct (p +:+ b) eqn:E; cbn [Js.includes]; rewrite <- E, startsWith_append;
      reflexivity.
  - rewrite append_cons. cbn [Js.includes]. rewrite IH. apply orb_true_r.
Qed.

Lemma take_length (n : nat) (s : string) : (String.length (Js.take n s) <= n)%nat.
Proof.
  revert s. induction n as [|n IH]; intros [|c s]; cbn; try lia.
  specialize (IH s). lia.
Qed.

Lemma take_short (n : nat) (s : string) : (String.length s <= n)%nat -> Js.take n s = s.
Proof.
  revert s. induction n as [|n IH]; intros [|c s] H; cbn in *; try reflexivity; try lia.
  f_equal. apply IH. lia.
Qed.

Lemma length_append (a b : string) :
  String.length (a +:+ b) = (String.length a + String.length b)%nat.
Proof. induction a as [|c a IH]; [reflexivity|]. rewrite append_cons. cbn. now rewrite IH. Qed.

(** X18. [agor config set] shows at most the first ten characters of a
    credential. For a key that contains [API_KEY] or [TOKEN] anywhere (as in
    [credentials.ANTHROPIC_API_KEY]), the line that is printed is the same
    for any two values that agree on their first ten characters, and the
    value shown is at most thirteen characters long; a value of ten
    characters or fewer is shown whole, followed by the three dots. The
    value handed to [setConfigValue] is the full one, and when that call
    throws nothing is logged: the command ends with [Failed to set config: ]
    and the message. *)
Theorem config_set_shows_ten_characters_of_a_credential
  (chalk : ConfigSet.Chalk)
  (setConfigValue : string -> string -> Outcome unit)
  (before after marker value1 value2 : string) :
  marker = "API_KEY" \/ marker = "TOKEN" ->
  Js.take 10 value1 = Js.take 10 value2 ->
  let key := before +:+ marker +:+ after in
  ConfigSet.displayValue key value1 = ConfigSet.displayValue key value2
  /\ (String.length (ConfigSet.displayValue key value1) <= 13)%nat
  /\ ((String.length value1 <= 10)%nat ->
      ConfigSet.displayValue key value1 = value1 +:+ "...")
  /\ (setConfigValue key value1 = Ok tt -> setConfigValue key value2 = Ok tt ->
      ConfigSet.run chalk setConfigValue key value1
      = ConfigSet.run chalk setConfigValue key value2)
  /\ (forall e, setConfigValue key value1 = Throw e ->
        ConfigSet.run chalk setConfigValue key value1
        = ConfigSet.Failed ("Failed to set config: " +:+ messageOf e)).
Proof.
  intros Hm Ht key.
  assert (Hd : forall v, ConfigSet.displayValue key v = Js.take 10 v +:+ "...").
  { intros v. unfold ConfigSet.displayValue, key.
    destruct Hm as [-> | ->]; rewrite includes_infix; [reflexivity|].
    now rewrite orb_true_r. }
  split; [now rewrite !Hd, Ht|].
  split.
  { rewrite Hd, length_append. pose proof (take_length 10 value1).
    change (String.length "...") with 3%nat. lia. }
  split; [intros Hs; now rewrite Hd, take_short|].
  split.
  - intros H1 H2. unfold ConfigSet.run. now rewrite H1, H2, !Hd, Ht.
  - intros e He. unfold ConfigSet.run. now rewrite He.
Qed.

(** A key that names no credential is shown with its value whole. *)
Example config_set_shows_other_values_whole :
  ConfigSet.displayValue "defaults.agent" "claude-code-with-a-long-name"
  = "claude-code-with-a-long-name".
Proof. reflexivity. Qed.

(** The test is on the spelling in capitals: a key in small letters is not
    masked. *)
Example config_set_masks_by_spelling :
  ConfigSet.displayValue "credentials.anthropic_api_key" "sk-ant-0123456789abcdef"
  = "sk-ant-0123456789abcdef".
Proof. reflexivity. Qed.

Lemma config_set_shows_ten_characters_of_a_credential_witness :
  ConfigSet.displayValue "credentials.ANTHROPIC_API_KEY" "sk-ant-0123456789abcdef"
  = ConfigSet.displayValue "credentials.ANTHROPIC_API_KEY" "sk-ant-012ZZZZ"
  /\ ConfigSet.displayValue "credentials.ANTHROPIC_API_KEY" "sk-ant-0123456789abcdef"
     = "sk-ant-012...".
Proof.
  destruct (config_set_shows_ten_characters_of_a_credential
              (ConfigSet.mkChalk id id id) (fun _ _ => Ok tt)
              "credentials.ANTHROPIC_" EmptyString "API_KEY"
              "sk-ant-0123456789abcdef" "sk-ant-012ZZZZ"
              (or_introl eq_refl) eq_refl) as (H & _).
  split; [exact H|reflexivity].
Defined.

(* ===================================================================== *)
(** * The env file *)
(* ===================================================================== *)

Lemma writesOf_app (a b : list Event) : writesOf (a ++ b) = writesOf a ++ writesOf b.
Proof. apply flat_map_app. Qed.

Lemma exportLine_quotes (kv : string * string) :
  exportLine kv = "export " +:+ fst kv +:+ "=" +:+ escapeShellArg (snd kv).
Proof. reflexivity. Qed.

Section EnvFile.

Variable W : World.

(** X19. The env file is written on a best-effort basis. [writeEnvFile]
    never throws. For a user id it writes exactly one file, with mode 0600,
    at the path made of the first eight characters of the id; it answers
    with that path when the write succeeded, whether or not the change of
    owner succeeded, and with nothing when the write threw. Each variable
    outside the skip list is exported with its value quoted by the rule of
    [escapeShellArg], in the order of the environment; the variables of the
    skip list are left out. *)
Theorem env_file_is_best_effort (userId : option string) (env : Env)
  (chownTo : option string) (st : State) :
  Js.truthy userId = true ->
  let path := envFilePathOf W userId in
  let exported := filter (fun kv => negb (Js.arrIncludes (fst kv) skipKeys)) env in
  let content :=
    "#!/bin/sh" +:+ Js.chr Js.NL
    +:+ "# Agor user environment variables" +:+ Js.chr Js.NL
    +:+ "# Auto-generated - do not edit manually" +:+ Js.chr Js.NL
    +:+ Js.join (Js.chr Js.NL)
          (map (fun kv => "export " +:+ fst kv +:+ "=" +:+ escapeShellArg (snd kv)) exported)
    +:+ Js.chr Js.NL in
  exists st',
    writeEnvFile W userId env chownTo st
    = (Ok (match w_writeFileSync W (trace st) path content 384 with
           | Ok _ => Some path
           | Throw _ => None
           end), st')
    /\ writesOf (trace st') = writesOf (trace st) ++ [(path, 384)]
    /\ (exists evs, trace st' = trace st ++ EvWriteFile path content 384 :: evs)
    /\ sameObjects st st'
    /\ Forall (fun kv => In (fst kv) skipKeys -> False) exported.
Proof.
  intros Hu path exported content.
  assert (Hc : content
               = "#!/bin/sh" +:+ Js.chr Js.NL
                 +:+ "# Agor user environment variables" +:+ Js.chr Js.NL
                 +:+ "# Auto-generated - do not edit manually" +:+ Js.chr Js.NL
                 +:+ Js.join (Js.chr Js.NL) (map exportLine exported) +:+ Js.chr Js.NL).
  { reflexivity. }
  assert (Hskip : Forall (fun kv => In (fst kv) skipKeys -> False) exported).
  { subst exported. apply Forall_forall. intros kv Hin Hk.
    apply list_elem_of_filter in Hin.
    destruct Hin as [Hn _]. apply Is_true_true in Hn. apply negb_true_iff in Hn.
    assert (Js.arrIncludes (fst kv) skipKeys = true); [|congruence].
    unfold Js.arrIncludes. apply existsb_exists. exists (fst kv).
    split; [exact Hk|apply String.eqb_refl]. }
  assert (Hsame : forall evs st', sessions st' = sessions st -> batchers st' = batchers st ->
            trace st' = trace st ++ evs -> killsOf evs = [] -> sameObjects st st').
  { intros evs st' S B T K. repeat split; try assumption.
    now rewrite T, killsOf_app, K, app_nil_r. }
  clearbody content. subst content. subst path. unfold envFilePathOf.
  unfold writeEnvFile. rewrite Hu. cbn [negb]. fold exported.
  set (path := w_pathJoin W (w_tmpdir W) _).
  set (content := _ +:+ _ +:+ _ +:+ _ +:+ _ +:+ _ +:+ Js.join _ _ +:+ _).
  unfold tryCatch, bind at 1, perform at 1.
  destruct (w_writeFileSync W (trace st) path content 384) as [[]|e] eqn:Hw.
  - destruct (Js.truthy chownTo).
    + unfold bind, tryCatch, perform, modify, ret. cbn [trace record].
      destruct (w_execSync W _ _ 2000) as [[]|c]; eexists;
        (split; [reflexivity|]); cbn [trace record log];
        (split; [rewrite !writesOf_app; cbn; now rewrite app_nil_r|]);
        (split; [eexists; rewrite <- app_assoc; reflexivity|]);
        (split; [|exact Hskip]);
        (eapply Hsame; [reflexivity|reflexivity|cbn [trace record log];
                        rewrite <- app_assoc; reflexivity|reflexivity]).
    + unfold bind, ret. eexists. split; [reflexivity|]. cbn [trace record].
      split; [now rewrite writesOf_app|]. split; [now exists []|].
      split; [|exact Hskip]. now eapply Hsame.
  - unfold bind, modify, ret. eexists. split; [reflexivity|].
    cbn [trace record log].
    split; [now rewrite writesOf_app|]. split; [now exists []|].
    split; [|exact Hskip]. now eapply Hsame.
Qed.

End EnvFile.

Lemma env_file_is_best_effort_witness :
  exists st',
    writeEnvFile Demo.quiet (Some "7f3a9c1e-52b4-4d1c-9a77-0c2e5d8f1b36")
      [("PATH", "/usr/bin"); ("EDITOR", "vi"); ("GREETING", "it's")] (Some "alice")
      Demo.empty
    = (Ok (Some "/tmp/agor-env-7f3a9c1e.sh"), st')
    /\ writesOf (trace st') = [("/tmp/agor-env-7f3a9c1e.sh", 384)].
Proof.
  destruct (env_file_is_best_effort Demo.quiet (Some "7f3a9c1e-52b4-4d1c-9a77-0c2e5d8f1b36")
              [("PATH", "/usr/bin"); ("EDITOR", "vi"); ("GREETING", "it's")]
              (Some "alice") Demo.empty eq_refl) as (st' & H & Hw & _).
  exists st'. split; [exact H|exact Hw].
Defined.

(* ===================================================================== *)
(** * The table of terminals stays well keyed *)
(* ===================================================================== *)

Lemma map_delete_incl {A} (k k' : string) (m : list (string * A)) :
  In k' (map fst (map_delete k m)) -> In k' (map fst m).
Proof.
  induction m as [|[k0 v] m IH]; [auto|]. cbn [map_delete].
  destruct (String.eqb k k0); cbn [map fst In]; tauto.
Qed.

Lemma wellKeyed_delete (k : string) (m : list (string * TerminalSession)) :
  wellKeyed m -> wellKeyed (map_delete k m).
Proof.
  intros [Hn Hf]. induction m as [|[k0 v] m IH]; [split; assumption|].
  cbn [map fst] in Hn. apply NoDup_cons_iff in Hn. destruct Hn as [Hin Hn].
  apply Forall_cons_iff in Hf. destruct Hf as [Hk Hf].
  destruct (IH Hn Hf) as [In' If']. cbn [map_delete].
  destruct (String.eqb k k0); [split; assumption|]. split.
  - cbn [map fst]. apply NoDup_cons_iff. split; [|exact In'].
    intros Hc. apply Hin. exact (map_delete_incl _ _ _ Hc).
  - apply Forall_cons_iff. split; assumption.
Qed.

Lemma map_set_incl {A} (k k' : string) (v : A) (m : list (string * A)) :
  In k' (map fst (map_set k v m)) -> k' = k \/ In k' (map fst m).
Proof.
  induction m as [|[k0 v0] m IH]; cbn [map_set map fst In].
  - intros [->|[]]. now left.
  - destruct (String.eqb k k0) eqn:E; cbn [map fst In].
    + apply String.eqb_eq in E. subst k0. intros [->|H]; auto.
    + intros [->|H]; [auto|]. destruct (IH H); auto.
Qed.

Lemma wellKeyed_set (k : string) (v : TerminalSession)
  (m : list (string * TerminalSession)) :
  ts_terminalId v = k -> wellKeyed m -> wellKeyed (map_set k v m).
Proof.
  intros Hv [Hn Hf]. induction m as [|[k0 v0] m IH].
  - split; cbn; [apply NoDup_cons_iff; split; [intros []|constructor]|].
    apply Forall_cons_iff. split; [exact Hv|constructor].
  - cbn [map fst] in Hn. apply NoDup_cons_iff in Hn. destruct Hn as [Hin Hn].
    apply Forall_cons_iff in Hf. destruct Hf as [Hk Hf].
    destruct (IH Hn Hf) as [In' If']. cbn [map_set].
    destruct (String.eqb k k0) eqn:E.
    + apply String.eqb_eq in E. subst k0. split.
      * cbn [map fst]. apply NoDup_cons_iff. split; assumption.
      * apply Forall_cons_iff. split; assumption.
    + split.
      * cbn [map fst]. apply NoDup_cons_iff. split; [|exact In'].
        intros Hc. destruct (map_set_incl _ _ _ _ Hc) as [->|Hc']; [|auto].
        now rewrite String.eqb_refl in E.
      * apply Forall_cons_iff. split; assumption.
Qed.

Lemma wellKeyed_get (k : string) (v : TerminalSession)
  (m : list (string * TerminalSession)) :
  wellKeyed m -> map_get k m = Some v -> ts_terminalId v = k.
Proof.
  intros [_ Hf]. induction m as [|[k0 v0] m IH]; [discriminate|].
  apply Forall_cons_iff in Hf. destruct Hf as [Hk Hf]. cbn [map_get].
  destruct (String.eqb k k0) eqn:E.
  - apply String.eqb_eq in E. subst k0. intros [= <-]. exact Hk.
  - now apply IH.
Qed.

Lemma wellKeyed_lookup (kv : string * TerminalSession)
  (m : list (string * TerminalSession)) :
  wellKeyed m -> In kv m -> map_get (fst kv) m = Some (snd kv).
Proof.
  intros [Hn _]. induction m as [|[k0 v0] m IH]; [intros []|].
  cbn [map fst] in Hn. apply NoDup_cons_iff in Hn. destruct Hn as [Hin Hn].
  cbn [map_get In]. intros [<-|H].
  - cbn. now rewrite String.eqb_refl.
  - destruct (String.eqb (fst kv) k0) eqn:E; [|now apply IH].
    apply String.eqb_eq in E. subst k0. exfalso. apply Hin.
    apply in_map_iff. exists kv. auto.
Qed.

Section Keeps.

Context {A B : Type}.

Lemma keeps_frame (m : M A) :
  (forall st o st', m st = (o, st') -> sessions st' = sessions st) -> keeps tableOk m.
Proof. intros Hm st o st' Hi H. unfold tableOk. now rewrite (Hm _ _ _ H). Qed.

Lemma keeps_ret (a : A) : keeps tableOk (ret a).
Proof. apply keeps_frame. intros st o st' H. now inversion H. Qed.

Lemma keeps_throw (e : Thrown) : keeps tableOk (@throw A e).
Proof. apply keeps_frame. intros st o st' H. now inversion H. Qed.

Lemma keeps_gets (f : State -> A) : keeps tableOk (gets f).
Proof. apply keeps_frame. intros st o st' H. now inversion H. Qed.

Lemma keeps_perform (ev : Event) (q : list Event -> Outcome A) :
  keeps tableOk (perform ev q).
Proof. apply keeps_frame. intros st o st' H. now inversion H. Qed.

Lemma keeps_pres (m : M A) : preserves sameObjects m -> keeps tableOk m.
Proof. intros Hm. apply keeps_frame. intros st o st' H. exact (proj1 (Hm _ _ _ H)). Qed.

Lemma keeps_bind (m : M A) (f : A -> M B) :
  keeps tableOk m -> (forall a, keeps tableOk (f a)) -> keeps tableOk (bind m f).
Proof.
  intros Hm Hf st o st' Hi H.
  destruct (bind_inv_any _ _ _ _ _ H) as [(e & H1 & _)|(a & s & H1 & H2)].
  - exact (Hm _ _ _ Hi H1).
  - exact (Hf _ _ _ _ (Hm _ _ _ Hi H1) H2).
Qed.

Lemma keeps_tryCatch (m : M A) (h : Thrown -> M A) :
  keeps tableOk m -> (forall e, keeps tableOk (h e)) -> keeps tableOk (tryCatch m h).
Proof.
  intros Hm Hh st o st' Hi H. unfold tryCatch in H.
  destruct (m st) as [[a|e] s] eqn:E.
  - inversion H; subst. exact (Hm _ _ _ Hi E).
  - exact (Hh _ _ _ _ (Hm _ _ _ Hi E) H).
Qed.

End Keeps.

Lemma keeps_log (l : LogEntry) : keeps tableOk (modify (log l)).
Proof. apply keeps_frame. intros st o st' H. now inversion H. Qed.

Lemma keeps_deref (r : nat) : keeps tableOk (deref r).
Proof.
  apply keeps_frame. intros st o st' H. unfold deref in H.
  destruct (batchers st !! r); now inversion H.
Qed.

Lemma keeps_store (r : nat) (b : TerminalDataBatcher) : keeps tableOk (store r b).
Proof. apply keeps_frame. intros st o st' H. now inversion H. Qed.

Lemma keeps_delete (k : string) : keeps tableOk (modify (set_sessions (map_delete k))).
Proof.
  intros st o st' Hi H. inversion H. unfold tableOk. cbn. now apply wellKeyed_delete.
Qed.

Lemma keeps_set (k : string) (v : TerminalSession) :
  ts_terminalId v = k -> keeps tableOk (modify (set_sessions (map_set k v))).
Proof.
  intros Hv st o st' Hi H. inversion H. unfold tableOk. cbn. now apply wellKeyed_set.
Qed.

Create HintDb keeps.

(** Takes a computation apart down to its primitives; the table is touched
    only by deleting a key or by storing a session under its own id. *)
Ltac keeps_tac :=
  repeat match goal with
  | |- keeps _ (bind _ _) => apply keeps_bind; [|intros ?]
  | |- keeps _ (tryCatch _ _) => apply keeps_tryCatch; [|intros ?]
  | |- keeps _ (if ?c then _ else _) => destruct c
  | |- keeps _ (match ?x with _ => _ end) => destruct x
  | |- keeps _ _ =>
      first [ apply keeps_ret | apply keeps_throw | apply keeps_gets | apply keeps_perform
            | apply keeps_log | apply keeps_deref | apply keeps_store | apply keeps_delete
            | apply keeps_set; reflexivity | solve [auto with keeps] ]
  end.

Section TableInvariant.

Variable W : World.

Lemma keeps_flush r : keeps tableOk (Batcher_flush W r).
Proof. unfold Batcher_flush, callOnFlush, emitData. keeps_tac. Qed.
Hint Resolve keeps_flush : keeps.

Lemma keeps_destroy r : keeps tableOk (Batcher_destroy r).
Proof. unfold Batcher_destroy. keeps_tac. Qed.
Hint Resolve keeps_destroy : keeps.

Lemma keeps_push r data : keeps tableOk (Batcher_push W r data).
Proof. unfold Batcher_push. keeps_tac. Qed.
Hint Resolve keeps_push : keeps.

Lemma keeps_pushAll r chunks : keeps tableOk (Batcher_pushAll W r chunks).
Proof. induction chunks; cbn [Batcher_pushAll]; keeps_tac. Qed.
Hint Resolve keeps_pushAll : keeps.

Lemma keeps_waitForReady t r : keeps tableOk (waitForReady W t r).
Proof. unfold waitForReady, Batcher_timerFires. keeps_tac. Qed.

Lemma keeps_create data params : keeps tableOk (create W data params).
Proof.
  unfold create. apply keeps_bind.
  2:{ intros plan. apply keeps_bind; [|intros ?; apply keeps_ret].
      apply keeps_pres, pres_create_configureTab. }
  unfold create_setup.
  apply keeps_bind; [apply keeps_gets|intros stamp].
  apply keeps_bind; [apply keeps_gets|intros rnd]. cbv zeta.
  apply keeps_bind; [apply keeps_pres, pres_create_resolveIdentity|intros u].
  apply keeps_bind; [apply keeps_pres, pres_create_resolveCwd|intros cw].
  apply keeps_bind; [apply keeps_pres, pres_create_classify|intros cls].
  apply keeps_bind; [apply keeps_pres, pres_create_environment|intros ee].
  apply keeps_bind; [apply keeps_pres, pres_create_spawn|intros pty].
  apply keeps_bind; [|intros r].
  { unfold create_register, newBatcher.
    apply keeps_bind; [|intros r].
    - apply keeps_frame. intros st o st' H. now inversion H.
    - keeps_tac. }
  apply keeps_bind; [apply keeps_waitForReady|intros ?; apply keeps_ret].
Qed.

Lemma keeps_patch id data : keeps tableOk (patch W id data).
Proof.
  intros st o st' Hi H. unfold patch in H. unfold bind at 1, gets at 1 in H.
  destruct (map_get id (sessions st)) as [session|] eqn:G.
  2:{ inversion H; now subst. }
  pose proof (wellKeyed_get _ _ _ Hi G) as Hid.
  revert H. revert Hi. revert st' o. revert st G.
  assert (K : keeps tableOk
            (do! match p_input data with
                 | Some input =>
                     perform (EvPtyWrite (ts_pty session) input)
                       (fun tr => w_ptyWrite W tr (ts_pty session) input)
                 | None => ret tt
                 end in
             match p_resize data with
             | Some rs =>
                 do! modify (set_sessions
                       (map_set id (resized session (r_cols rs) (r_rows rs)))) in
                 perform (EvPtyResize (ts_pty session) (r_cols rs) (r_rows rs))
                   (fun tr => w_ptyResize W tr (ts_pty session) (r_cols rs) (r_rows rs))
             | None => ret tt
             end)).
  { keeps_tac. apply keeps_set. exact Hid. }
  intros st _ st' o Hi H. exact (K _ _ _ Hi H).
Qed.

Lemma keeps_remove id : keeps tableOk (remove W id).
Proof. unfold remove, ptyKill. keeps_tac. Qed.

Lemma keeps_ptyOnExit t r code : keeps tableOk (ptyOnExit W t r code).
Proof. unfold ptyOnExit. keeps_tac. Qed.

Lemma keeps_teardownAll l : keeps tableOk (teardownAll W l).
Proof. induction l; cbn [teardownAll]; unfold teardown, ptyKill; keeps_tac. Qed.

Lemma keeps_cleanup : keeps tableOk (cleanup W).
Proof.
  unfold cleanup. apply keeps_bind; [apply keeps_gets|intros all].
  apply keeps_bind; [apply keeps_teardownAll|intros _].
  intros st o st' _ H. inversion H. split; constructor.
Qed.

(** X20. The table of terminals stays well keyed. From a table in which no
    id occurs twice and every session sits under its own id (the empty
    table of a new service is one), every operation of the service leaves
    such a table, whether it returns or throws: [create], [patch],
    [remove], the data and exit handlers of a PTY, and [cleanup]. On such a
    table [find] lists each terminal once, and [get] on a listed id answers
    with the listed directory. *)
Theorem table_stays_well_keyed (st : State) :
  wellKeyed (sessions st) ->
  (forall data params o st',
     create W data params st = (o, st') -> wellKeyed (sessions st'))
  /\ (forall id data o st', patch W id data st = (o, st') -> wellKeyed (sessions st'))
  /\ (forall id o st', remove W id st = (o, st') -> wellKeyed (sessions st'))
  /\ (forall r data o st', ptyOnData W r data st = (o, st') -> wellKeyed (sessions st'))
  /\ (forall t r code o st',
        ptyOnExit W t r code st = (o, st') -> wellKeyed (sessions st'))
  /\ (forall o st', cleanup W st = (o, st') -> wellKeyed (sessions st'))
  /\ exists listed,
       find st = (Ok listed, st)
       /\ List.NoDup (map (fun entry => fst (fst entry)) listed)
       /\ (forall id cwd createdAt, In (id, cwd, createdAt) listed ->
             get id st = (Ok (mkGetResult id cwd true), st)).
Proof.
  intros Hi.
  split; [intros data params o st' H; exact (keeps_create data params _ _ _ Hi H)|].
  split; [intros id data o st' H; exact (keeps_patch id data _ _ _ Hi H)|].
  split; [intros id o st' H; exact (keeps_remove id _ _ _ Hi H)|].
  split; [intros r data o st' H; exact (keeps_push r data _ _ _ Hi H)|].
  split; [intros t r code o st' H; exact (keeps_ptyOnExit t r code _ _ _ Hi H)|].
  split; [intros o st' H; exact (keeps_cleanup _ _ _ Hi H)|].
  eexists. split; [reflexivity|]. split.
  - rewrite map_map. cbn [fst]. destruct Hi as [Hn Hf].
    erewrite map_ext_in; [exact Hn|].
    intros kv Hin. exact (proj1 (List.Forall_forall _ _) Hf kv Hin).
  - intros id cwd createdAt Hin. apply in_map_iff in Hin.
    destruct Hin as (kv & E & Hin). injection E as <- <- _.
    pose proof (wellKeyed_lookup kv _ Hi Hin) as G.
    destruct Hi as [_ Hf]. pose proof (proj1 (List.Forall_forall _ _) Hf kv Hin) as Hk.
    cbn beta in Hk. unfold get, bind, gets, ret. rewrite Hk, G. now rewrite Hk.
Qed.

End TableInvariant.

Lemma table_stays_well_keyed_witness :
  wellKeyed (sessions (snd (create Demo.quiet Demo.noData None Demo.twoTerminals)))
  /\ wellKeyed (sessions (snd (remove Demo.killFails "term-1" Demo.twoTerminals)))
  /\ get "term-2" Demo.twoTerminals
     = (Ok (mkGetResult "term-2" "/home/agor" true), Demo.twoTerminals).
Proof.
  assert (Hi : wellKeyed (sessions Demo.twoTerminals)).
  { split.
    - cbn. repeat constructor; cbn; intuition discriminate.
    - repeat constructor. }
  destruct (table_stays_well_keyed Demo.quiet Demo.twoTerminals Hi)
    as (Hc & _).
  destruct (table_stays_well_keyed Demo.killFails Demo.twoTerminals Hi)
    as (_ & _ & Hr & _).
  split; [eapply Hc; apply surjective_pairing|].
  split; [eapply Hr; apply surjective_pairing|]. reflexivity.
Defined.

(* ===================================================================== *)
(** * The reuse flag *)
(* ===================================================================== *)

Lemma execsOf_app (a b : list Event) : execsOf (a ++ b) = execsOf a ++ execsOf b.
Proof. apply flat_map_app. Qed.

Lemma invalidationsOf_app (a b : list Event) :
  invalidationsOf (a ++ b) = invalidationsOf a ++ invalidationsOf b.
Proof. apply flat_map_app. Qed.

Lemma execsOf_action zs action asUser l :
  execsOf (actionEvent zs action asUser :: l)
  = fullCommandOf (actionCommand zs action) asUser :: execsOf l.
Proof. reflexivity. Qed.

Lemma execsOf_invalidate key l : execsOf (EvInvalidate key :: l) = execsOf l.
Proof. reflexivity. Qed.

Lemma execsOf_sleep n l : execsOf (EvSleep n :: l) = execsOf l.
Proof. reflexivity. Qed.

Lemma invalidationsOf_action zs action asUser l :
  invalidationsOf (actionEvent zs action asUser :: l) = invalidationsOf l.
Proof. reflexivity. Qed.

Lemma invalidationsOf_invalidate key l :
  invalidationsOf (EvInvalidate key :: l) = key :: invalidationsOf l.
Proof. reflexivity. Qed.

Lemma invalidationsOf_sleep n l : invalidationsOf (EvSleep n :: l) = invalidationsOf l.
Proof. reflexivity. Qed.

Lemma invalidationsOf_init zs cmds asUser :
  invalidationsOf (initEventsOf zs cmds asUser) = [].
Proof. destruct cmds; reflexivity. Qed.

Section ReuseFlag.

Variable W : World.

(** X22. What the reuse flag of the result tells. When [create] answers
    that it reused an existing tab, its tab management has run exactly:
    go-to-tab-name, the Ctrl-C keystroke [write 3], and the init commands;
    no tab was created or renamed and the cache of the session was neither
    invalidated nor changed. When it answers that it did not, exactly one of
    rename-tab and new-tab has run, no Ctrl-C was sent, and the cache entry
    of the session is gone. *)
Theorem reuse_flag_tells_what_was_done (data : CreateTerminalData)
  (params : option AuthenticatedParams) (st st' : State) (result : CreateResult) :
  create W data params st = (Ok result, st') ->
  exists plan st1,
    create_setup W data params st = (Ok plan, st1)
    /\ let zs := cr_zellijSession result in
       let asUser := tp_asUser plan in
       let key := getCacheKey zs asUser in
       let tab := dquote (escapeDoubleQuoted (tp_tabName plan)) in
       let dir := dquote (escapeDoubleQuoted (tp_cwd plan)) in
       let cmd action := fullCommandOf (actionCommand zs action) asUser in
       let init alwaysCd :=
         execsOf (initEventsOf zs
                    (buildInitCommands W (tp_envFile plan) (tp_cwd plan) alwaysCd) asUser) in
       if cr_zellijReused result then
         execsOf (trace st')
         = execsOf (trace st1) ++ [cmd ("go-to-tab-name " +:+ tab); cmd "write 3"] ++ init true
         /\ invalidationsOf (trace st') = invalidationsOf (trace st1)
         /\ tabsCache st' = tabsCache st1 /\ existsCache st' = existsCache st1
       else
         (execsOf (trace st')
          = execsOf (trace st1) ++ [cmd ("rename-tab " +:+ tab)] ++ init false
          \/ execsOf (trace st')
             = execsOf (trace st1)
               ++ [cmd ("new-tab --name " +:+ tab +:+ " --cwd " +:+ dir);
                   cmd ("go-to-tab-name " +:+ tab)] ++ init true)
         /\ invalidationsOf (trace st') = invalidationsOf (trace st1) ++ [key]
         /\ tabsCache st' !! key = None /\ existsCache st' !! key = None.
Proof.
  intros H. destruct (create_ok_inv W _ _ _ _ _ H) as (plan & st1 & Hs & Hc & ->).
  exists plan, st1. split; [exact Hs|]. cbn [cr_zellijSession cr_zellijReused].
  destruct (create_setup_plan W _ _ _ _ _ Hs) as (_ & Hcls).
  destruct (create_configureTab_ok W _ _ _ Hc) as (_ & _ & Hways).
  assert (Hnil : execsOf [] = []) by reflexivity.
  destruct Hways as [(E & T & C1 & C2)|[(E & N & T & C1 & C2)|[(E & N & S & T & C1 & C2)|(E & N & S & _)]]].
  - destruct Hcls as [(_ & _ & _ & ->)|[(A & _)|(A & _)]]; try congruence.
    rewrite T. cbn [app].
    rewrite execsOf_app, invalidationsOf_app, execsOf_action, execsOf_invalidate,
      invalidationsOf_action, invalidationsOf_invalidate, invalidationsOf_init.
    auto.
  - destruct Hcls as [(A & _)|[(_ & _ & _ & ->)|(_ & A & _)]]; try congruence.
    rewrite T. cbn [app].
    rewrite execsOf_app, invalidationsOf_app, !execsOf_action, execsOf_invalidate,
      execsOf_sleep, !invalidationsOf_action, invalidationsOf_invalidate,
      invalidationsOf_sleep, invalidationsOf_init.
    auto.
  - destruct Hcls as [(A & _)|[(_ & A & _)|(_ & _ & _ & ->)]]; try congruence.
    rewrite T. cbn [app].
    rewrite execsOf_app, invalidationsOf_app, !execsOf_action, execsOf_sleep,
      !invalidationsOf_action, invalidationsOf_sleep, invalidationsOf_init, app_nil_r.
    auto.
  - exfalso. destruct Hcls as [(A & _)|[(_ & A & _)|(_ & _ & A & _)]]; congruence.
Qed.

End ReuseFlag.

Lemma reuse_flag_tells_what_was_done_witness :
  exists result st' plan st1,
    create Demo.sessionExists
      (mkCreateData None None None None None (Some "other")) None Demo.empty
    = (Ok result, st')
    /\ create_setup Demo.sessionExists
         (mkCreateData None None None None None (Some "other")) None Demo.empty
       = (Ok plan, st1)
    /\ cr_zellijReused result = true
    /\ invalidationsOf (trace st') = invalidationsOf (trace st1).
Proof.
  destruct (create Demo.sessionExists
              (mkCreateData None None None None None (Some "other")) None Demo.empty)
    as [[result|e] st'] eqn:H.
  2:{ vm_compute in H. discriminate H. }
  assert (Hr : cr_zellijReused result = true).
  { vm_compute in H. injection H as <- _. reflexivity. }
  destruct (reuse_flag_tells_what_was_done Demo.sessionExists _ _ _ _ _ H)
    as (plan & st1 & Hs & Hf).
  cbv zeta in Hf. rewrite Hr in Hf. destruct Hf as (_ & Hi & _).
  exists result, st', plan, st1. auto.
Defined.

